(** * codebase2file: the filtering and traversal engine of [main.py]

    A shallow embedding of [main.py] and the properties of its exclusion
    policy ([is_ignored]) and of its three tree walks
    ([get_directory_structure], [count_files] / [count_excluded_files] and
    the content loop of [process_directory]).

    Conventions of the model.
    - A Python [str] is a [string]; one [ascii] stands for one character
      (a code point below 256).  The glyphs of the report (folder and file
      icons, the check mark) are spelled by their UTF-8 bytes; no function of
      the program looks inside them.
    - The file system is a finite tree of directories, regular files and
      broken symbolic links below [/] together with the working directory
      of the process.  Every directory can be listed and no symbolic link
      leads anywhere; the well-formed trees ([wf_world]) have no link, only
      valid names and no name twice in a directory.
    - Library functions ([os.path], [fnmatch], [re.search], [str] methods)
      are modelled by executable functions after their CPython (POSIX)
      implementation. *)

From Stdlib Require Import String Ascii List Bool Arith NArith ZArith Lia.
From Stdlib Require Import Permutation Sorted DecimalString.

Set Warnings "-register-all".
Import ListNotations.
Open Scope list_scope.
Open Scope string_scope.

(* ------------------------------------------------------------------ *)
(** ** Python [str] methods *)

Module Str.

Definition code (c : ascii) : nat := nat_of_ascii c.

Definition in_range (lo hi : nat) (c : ascii) : bool :=
  (lo <=? code c)%nat && (code c <=? hi)%nat.

(** [\d] on characters below 256: the ASCII digits. *)
Definition is_digit (c : ascii) : bool := in_range 48 57 c.

(** [str.isspace] on characters below 256. *)
Definition is_space (c : ascii) : bool :=
  in_range 9 13 c || in_range 28 32 c || (code c =? 133)%nat || (code c =? 160)%nat.

(** [str.lower] on one character below 256: [A-Z] and the Latin-1 capitals
    (U+00C0..U+00DE without the multiplication sign U+00D7). *)
Definition lower_char (c : ascii) : ascii :=
  if in_range 65 90 c || (in_range 192 222 c && negb (code c =? 215)%nat)
  then ascii_of_nat (code c + 32)
  else c.

Fixpoint lower (s : string) : string :=
  match s with
  | EmptyString => EmptyString
  | String c s' => String (lower_char c) (lower s')
  end.

(** [s.startswith(prefix)] *)
Definition startswith (s prefix : string) : bool := String.prefix prefix s.

(** [s.endswith(suffix)]: some tail of [s] is [suffix]. *)
Fixpoint endswith (s suffix : string) : bool :=
  (s =? suffix) ||
  match s with
  | EmptyString => false
  | String _ s' => endswith s' suffix
  end.

(** [needle in s] *)
Fixpoint contains (s needle : string) : bool :=
  startswith s needle ||
  match s with
  | EmptyString => false
  | String _ s' => contains s' needle
  end.

(** [s[1:]] *)
Definition tail (s : string) : string :=
  match s with
  | EmptyString => EmptyString
  | String _ s' => s'
  end.

(** [s[:-1]] *)
Fixpoint drop_last (s : string) : string :=
  match s with
  | EmptyString => EmptyString
  | String _ EmptyString => EmptyString
  | String c s' => String c (drop_last s')
  end.

(** [s[0]] and [s[-1]], when there is one. *)
Definition first_char (s : string) : option ascii :=
  match s with
  | EmptyString => None
  | String c _ => Some c
  end.

Fixpoint last_char (s : string) : option ascii :=
  match s with
  | EmptyString => None
  | String c EmptyString => Some c
  | String _ s' => last_char s'
  end.

Definition has_char (c : ascii) (s : string) : bool :=
  existsb (Ascii.eqb c) (list_ascii_of_string s).

(** [s.split(sep)] for a one-character separator: never empty. *)
Fixpoint split (sep : ascii) (s : string) : list string :=
  match s with
  | EmptyString => [EmptyString]
  | String c s' =>
      if Ascii.eqb c sep then EmptyString :: split sep s'
      else match split sep s' with
           | [] => [String c EmptyString]
           | h :: t => String c h :: t
           end
  end.

(** [sep.join(parts)] *)
Definition join (sep : string) (parts : list string) : string :=
  String.concat sep parts.

(** [s.lstrip()], [s.rstrip()] and [s.strip()] *)
Fixpoint lstrip (s : string) : string :=
  match s with
  | EmptyString => EmptyString
  | String c s' => if is_space c then lstrip s' else s
  end.

Fixpoint rstrip (s : string) : string :=
  match s with
  | EmptyString => EmptyString
  | String c s' =>
      match rstrip s' with
      | EmptyString => if is_space c then EmptyString else String c EmptyString
      | r => String c r
      end
  end.

Definition strip (s : string) : string := rstrip (lstrip s).

(** [x in xs] for a list of strings *)
Definition mem (x : string) (xs : list string) : bool :=
  existsb (String.eqb x) xs.

(** [str(n)] for a natural number *)
Definition of_nat (n : nat) : string := NilZero.string_of_uint (Nat.to_uint n).

(** [s1 <= s2] in the order of [sorted]: by code points, left to right. *)
Fixpoint leb (s1 s2 : string) : bool :=
  match s1, s2 with
  | EmptyString, _ => true
  | String _ _, EmptyString => false
  | String a s1', String b s2' =>
      if (code a <? code b)%nat then true
      else if (code b <? code a)%nat then false
      else leb s1' s2'
  end.

(** [re.search(r'\d{5,}', s)]: a run of at least [need] digits, [seen]
    of them read just before [s]. *)
Fixpoint digit_run (need seen : nat) (s : string) : bool :=
  (need <=? seen)%nat ||
  match s with
  | EmptyString => false
  | String c s' =>
      if is_digit c then digit_run need (S seen) s' else digit_run need 0 s'
  end.

Definition has_digit_run (s : string) : bool := digit_run 5 0 s.

End Str.

(* ------------------------------------------------------------------ *)
(** ** [posixpath] *)

Module Path.

Definition sep : ascii := "/"%char.

Definition isabs (p : string) : bool := Str.startswith p "/".

(** [os.path.join(a, b)] *)
Definition join (a b : string) : string :=
  if Str.startswith b "/" then b
  else if (a =? "") || Str.endswith a "/" then a ++ b
  else a ++ "/" ++ b.

(** [os.path.join(a, *names)] *)
Definition join_all (a : string) (names : list string) : string :=
  fold_left join names a.

(** [os.path.basename(p)]: what follows the last slash. *)
Definition basename (p : string) : string := last (Str.split sep p) "".

(** The loop of [normpath] over the components; [new_comps] is kept
    reversed, its last component first. *)
Fixpoint norm_comps (initial_slashes : bool) (new_comps comps : list string)
  : list string :=
  match comps with
  | [] => rev new_comps
  | comp :: rest =>
      if (comp =? "") || (comp =? ".") then
        norm_comps initial_slashes new_comps rest
      else if negb (comp =? "..")
              || (negb initial_slashes && match new_comps with [] => true | _ => false end)
              || match new_comps with
                 | top :: _ => top =? ".."
                 | [] => false
                 end
      then norm_comps initial_slashes (comp :: new_comps) rest
      else norm_comps initial_slashes (List.tl new_comps) rest
  end.

(** [os.path.normpath(path)] *)
Definition normpath (path : string) : string :=
  if path =? "" then "."
  else
    let initial_slashes := Str.startswith path "/" in
    let double :=
      Str.startswith path "//" && negb (Str.startswith path "///") in
    let body := Str.join "/" (norm_comps initial_slashes [] (Str.split sep path)) in
    let res :=
      if initial_slashes then (if double then "//" else "/") ++ body else body in
    if res =? "" then "." else res.

(** [os.path.abspath(path)], the working directory being [cwd]. *)
Definition abspath (cwd path : string) : string :=
  normpath (if isabs path then path else join cwd path).

Fixpoint common_prefix_length (xs ys : list string) : nat :=
  match xs, ys with
  | x :: xs', y :: ys' => if x =? y then S (common_prefix_length xs' ys') else 0
  | _, _ => 0
  end.

Definition nonempty_comps (p : string) : list string :=
  filter (fun x => negb (x =? "")) (Str.split sep p).

(** [os.path.relpath(path, start)].  CPython raises [ValueError] on the
    empty [path]; the program only passes [os.path.join(root, name)] for a
    directory entry [name], so the model is total and treats the empty
    path like the others. *)
Definition relpath (cwd path start : string) : string :=
  let start_list := nonempty_comps (abspath cwd start) in
  let path_list := nonempty_comps (abspath cwd path) in
  let i := common_prefix_length start_list path_list in
  let rel_list := (repeat ".." (List.length start_list - i) ++ skipn i path_list)%list in
  match rel_list with
  | [] => "."
  | _ => Str.join "/" rel_list
  end.

(** The last dot of [s]: what precedes it and the rest from the dot on. *)
Fixpoint rsplit_dot (s : string) : option (string * string) :=
  match s with
  | EmptyString => None
  | String c s' =>
      match rsplit_dot s' with
      | Some (a, b) => Some (String c a, b)
      | None => if Ascii.eqb c "."%char then Some (EmptyString, s) else None
      end
  end.

Definition only_dots (s : string) : bool :=
  forallb (Ascii.eqb "."%char) (list_ascii_of_string s).

(** The second component of [os.path.splitext(p)]: the extension with its
    dot, empty when the basename has no dot after a leading run of dots. *)
Definition splitext_ext (p : string) : string :=
  match rsplit_dot (basename p) with
  | Some (stem, ext) => if only_dots stem then "" else ext
  | None => ""
  end.

(** [os.path.splitext(p)] *)
Definition splitext (p : string) : string * string :=
  let ext := splitext_ext p in
  (substring 0 (String.length p - String.length ext) p, ext).

End Path.

(* ------------------------------------------------------------------ *)
(** ** [fnmatch.fnmatch] *)

Module Fnmatch.

(** What [fnmatch.translate] turns a pattern into. *)
Inductive tok : Type :=
| Star                                  (* [*] *)
| AnyChar                               (* [?] *)
| Lit (c : ascii)                       (* an escaped character *)
| CharSet (negated : bool) (chunks : list string).  (* [[...]] *)

(** The chunks of a bracket expression: it is cut at every hyphen that can
    be a range operator.  [skip] characters are not examined (the first one of
    the set, and the two after an operator); [cur] is the chunk being read. *)
Fixpoint chunks_of (skip : nat) (cur s : string) : list string :=
  match s with
  | EmptyString => [cur]
  | String c s' =>
      match skip with
      | S k => chunks_of k (cur ++ String c "") s'
      | O =>
          if Ascii.eqb c "-"%char then
            match s' with
            | EmptyString => [cur ++ "-"]
            | _ => cur :: chunks_of 2 "" s'
            end
          else chunks_of 0 (cur ++ String c "") s'
      end
  end.

(** "Remove empty ranges": from the last pair of chunks to the first, a
    range whose ends are out of order is dropped with both of its ends. *)
Fixpoint drop_empty_ranges (chunks : list string) : list string :=
  match chunks with
  | [] => []
  | c1 :: rest =>
      match drop_empty_ranges rest with
      | [] => [c1]
      | c2 :: rest' =>
          match Str.last_char c1, Str.first_char c2 with
          | Some a, Some b =>
              if (Str.code b <? Str.code a)%nat
              then (Str.drop_last c1 ++ Str.tail c2) :: rest'
              else c1 :: c2 :: rest'
          | _, _ => c1 :: c2 :: rest'
          end
      end
  end.

(** The set between the brackets, [stuff] being the text between them. *)
Definition charset_of (stuff : string) : tok :=
  let chunks :=
    if Str.has_char "-"%char stuff then
      drop_empty_ranges
        (chunks_of (if Str.startswith stuff "!" then 2 else 1) "" stuff)
    else [stuff] in
  match chunks with
  | String "!" c0 :: rest => CharSet true (c0 :: rest)
  | _ => CharSet false chunks
  end.

(** The first closing bracket of [s]: what precedes it. *)
Fixpoint until_close (s : string) : option string :=
  match s with
  | EmptyString => None
  | String c s' =>
      if Ascii.eqb c "]"%char then Some EmptyString
      else option_map (String c) (until_close s')
  end.

(** After an opening bracket, [s] being the rest of the pattern: the set
    and the number of characters it takes, or [None] when no bracket closes
    it.  A leading [!] and the character after it (or the first character)
    are never the closing bracket. *)
Definition bracket (s : string) : option (tok * nat) :=
  let '(bang, s1) :=
    match s with
    | String "!" t => ("!", t)
    | _ => ("", s)
    end in
  match s1 with
  | EmptyString => None
  | String c0 t =>
      match until_close t with
      | Some mid =>
          let stuff := bang ++ String c0 mid in
          Some (charset_of stuff, S (String.length stuff))
      | None => None
      end
  end.

(** Consecutive stars are one star. *)
Definition add_star (toks : list tok) : list tok :=
  match toks with
  | Star :: _ => toks
  | _ => Star :: toks
  end.

(** [fnmatch.translate], [skip] characters of a set still to pass. *)
Fixpoint translate_from (skip : nat) (pat : string) : list tok :=
  match pat with
  | EmptyString => []
  | String c rest =>
      match skip with
      | S k => translate_from k rest
      | O =>
          if Ascii.eqb c "*"%char then add_star (translate_from 0 rest)
          else if Ascii.eqb c "?"%char then AnyChar :: translate_from 0 rest
          else if Ascii.eqb c "["%char then
            match bracket rest with
            | Some (t, used) => t :: translate_from used rest
            | None => Lit "["%char :: translate_from 0 rest
            end
          else Lit c :: translate_from 0 rest
      end
  end.

Definition translate (pat : string) : list tok := translate_from 0 pat.

(** Membership of [c] in the set of the chunks: a character of a chunk, or
    between the last character of a chunk and the first of the next. *)
Fixpoint in_chunks (c : ascii) (chunks : list string) : bool :=
  match chunks with
  | [] => false
  | c1 :: rest =>
      Str.has_char c c1 ||
      match rest with
      | c2 :: _ =>
          match Str.last_char c1, Str.first_char c2 with
          | Some a, Some b => (Str.code a <=? Str.code c)%nat && (Str.code c <=? Str.code b)%nat
          | _, _ => false
          end
      | [] => false
      end ||
      in_chunks c rest
  end.

Definition tok_char (t : tok) (c : ascii) : bool :=
  match t with
  | Star => true
  | AnyChar => true
  | Lit d => Ascii.eqb c d
  | CharSet negated chunks => xorb negated (in_chunks c chunks)
  end.

(** The whole of [s] matches the tokens. *)
Fixpoint match_toks (toks : list tok) (s : string) {struct toks} : bool :=
  match toks with
  | [] => s =? ""
  | Star :: rest =>
      (fix star (s : string) : bool :=
         match_toks rest s ||
         match s with
         | EmptyString => false
         | String _ s' => star s'
         end) s
  | t :: rest =>
      match s with
      | EmptyString => false
      | String c s' => tok_char t c && match_toks rest s'
      end
  end.

(** [fnmatch.fnmatch(name, pat)] on POSIX, where [normcase] changes
    nothing. *)
Definition fnmatch (name pat : string) : bool := match_toks (translate pat) name.

End Fnmatch.

(* ------------------------------------------------------------------ *)
(** ** The file system *)

(** What [open(path, 'r', encoding='utf-8').read()] gives for a file. *)
Inductive read_result : Type :=
| Text (content : string)
| UnicodeDecodeError
| OSError (message : string).

Record file_meta : Type := mk_meta {
  st_size : N;
  st_mtime : Z;
  read : read_result
}.

(** What a directory holds: regular files, directories and broken links.
    [Link name] is a symbolic link to a path in a directory that does not
    exist: [os.listdir] and [os.walk] give its name ([os.walk] among the
    files), and every call that follows the link ([os.stat], [open]) fails
    with [FileNotFoundError]. *)
Inductive node : Type :=
| File (name : string) (meta : file_meta)
| Dir (name : string) (children : list node)
| Link (name : string).

(** The tree below [/], each directory in the order in which the operating
    system enumerates it, and the working directory of the process. *)
Record world : Type := mk_world {
  tree : list node;
  cwd : string
}.

Definition node_name (n : node) : string :=
  match n with
  | File name _ => name
  | Dir name _ => name
  | Link name => name
  end.

Definition is_dir_node (n : node) : bool :=
  match n with
  | Dir _ _ => true
  | File _ _ => false
  | Link _ => false
  end.

Fixpoint find_child (name : string) (kids : list node) : option node :=
  match kids with
  | [] => None
  | k :: kids' => if node_name k =? name then Some k else find_child name kids'
  end.

(** What a path leads to. *)
Inductive entry : Type :=
| EFile (m : file_meta)
| EDir (kids : list node).

(** Path resolution: the listings of the directories passed through
    (innermost first) and the entry reached. *)
Definition cursor : Type := list (list node) * entry.

Definition step (cur : cursor) (comp : string) : option cursor :=
  match cur with
  | (_, EFile _) => None
  | (up, EDir here) =>
      if (comp =? "") || (comp =? ".") then Some cur
      else if comp =? ".." then
        match up with
        | [] => Some cur
        | parent :: up' => Some (up', EDir parent)
        end
      else
        match find_child comp here with
        | Some (Dir _ kids) => Some (here :: up, EDir kids)
        | Some (File _ m) => Some (here :: up, EFile m)
        | Some (Link _) => None
        | None => None
        end
  end.

Fixpoint steps (cur : cursor) (comps : list string) : option cursor :=
  match comps with
  | [] => Some cur
  | comp :: rest =>
      match step cur comp with
      | Some cur' => steps cur' rest
      | None => None
      end
  end.

Definition anchored (w : world) (path : string) : string :=
  if Path.isabs path then path else cwd w ++ "/" ++ path.

Definition lookup (w : world) (path : string) : option entry :=
  if path =? "" then None
  else option_map snd
         (steps ([], EDir (tree w)) (Str.split Path.sep (anchored w path))).

Definition exists_ (w : world) (path : string) : bool :=
  match lookup w path with
  | Some _ => true
  | None => false
  end.

Definition isdir (w : world) (path : string) : bool :=
  match lookup w path with
  | Some (EDir _) => true
  | _ => false
  end.

Definition isfile (w : world) (path : string) : bool :=
  match lookup w path with
  | Some (EFile _) => true
  | _ => false
  end.

(** [os.path.getsize] and [os.path.getmtime] of a regular file; [None] is
    the exception for a path that leads nowhere, as the path of a broken
    link does (the program asks for the names that [os.walk] gives as
    files). *)
Definition getsize (w : world) (path : string) : option N :=
  match lookup w path with
  | Some (EFile m) => Some (st_size m)
  | _ => None
  end.

Definition getmtime (w : world) (path : string) : option Z :=
  match lookup w path with
  | Some (EFile m) => Some (st_mtime m)
  | _ => None
  end.

(** [str(e)] of the [OSError] raised for [path]. *)
Definition oserror_message (errno strerror path : string) : string :=
  "[Errno " ++ errno ++ "] " ++ strerror ++ ": '" ++ path ++ "'".

Definition enoent (path : string) : string :=
  oserror_message "2" "No such file or directory" path.
Definition enotdir (path : string) : string :=
  oserror_message "20" "Not a directory" path.
Definition eisdir (path : string) : string :=
  oserror_message "21" "Is a directory" path.

(** [open(path, 'r', encoding='utf-8')] followed by [read()]. *)
Definition open_read (w : world) (path : string) : read_result :=
  match lookup w path with
  | Some (EFile m) => read m
  | Some (EDir _) => OSError (eisdir path)
  | None => OSError (enoent path)
  end.

(** Exceptions that leave a function of the program. *)
Inductive result (A : Type) : Type :=
| Ok (a : A)
| Raise (message : string).
Arguments Ok {A} a.
Arguments Raise {A} message.

Definition bind {A B : Type} (r : result A) (k : A -> result B) : result B :=
  match r with
  | Ok a => k a
  | Raise e => Raise e
  end.

Notation "x <- r ;; k" := (bind r (fun x => k))
  (at level 61, r at next level, right associativity).

(** The file [comps] (the names from [/] to it) is created in its
    directory, or emptied; [now] is the time. *)
Fixpoint create (now : Z) (path : string) (kids : list node) (comps : list string)
  : result (list node) :=
  match comps with
  | [] => Raise (eisdir path)
  | [name] =>
      let fresh := File name (mk_meta 0 now (Text "")) in
      (fix put (l : list node) : result (list node) :=
         match l with
         | [] => Ok [fresh]
         | k :: l' =>
             if node_name k =? name then
               match k with
               | File _ _ => Ok (fresh :: l')
               | Dir _ _ => Raise (eisdir path)
               | Link _ => Raise (enoent path)
               end
             else
               match put l' with
               | Ok r => Ok (k :: r)
               | Raise e => Raise e
               end
         end) kids
  | name :: rest =>
      (fix enter (l : list node) : result (list node) :=
         match l with
         | [] => Raise (enoent path)
         | k :: l' =>
             if node_name k =? name then
               match k with
               | File _ _ => Raise (enotdir path)
               | Dir _ sub =>
                   match create now path sub rest with
                   | Ok sub' => Ok (Dir name sub' :: l')
                   | Raise e => Raise e
                   end
               | Link _ => Raise (enoent path)
               end
             else
               match enter l' with
               | Ok r => Ok (k :: r)
               | Raise e => Raise e
               end
         end) kids
  end.

(** The directory that the components [comps] lead to from the directory
    [here] (given by the names from [/] to it), as the operating system
    resolves them: every name passed through is an existing directory, also
    one that a later [..] leaves again. *)
Fixpoint resolve (path : string) (root : list node) (here comps : list string)
  : result (list string) :=
  match comps with
  | [] => Ok here
  | comp :: rest =>
      if (comp =? "") || (comp =? ".") then resolve path root here rest
      else if comp =? ".." then resolve path root (removelast here) rest
      else
        match steps ([], EDir root) (here ++ [comp]) with
        | Some (_, EDir _) => resolve path root (here ++ [comp]) rest
        | Some (_, EFile _) => Raise (enotdir path)
        | None => Raise (enoent path)
        end
  end.

(** [open(path, 'w')]: the directory of the last name is resolved, and the
    file is created there or emptied.  A path that ends with a slash, [.]
    or [..] names a directory.  (For a path that ends with a slash after a
    missing name the model raises [ENOENT] where Linux reports [EISDIR].) *)
Definition open_w (now : Z) (w : world) (path : string) : result world :=
  if path =? "" then Raise (enoent path)
  else
    let comps := Str.split Path.sep (anchored w path) in
    let name := last comps "" in
    parent <- resolve path (tree w) [] (removelast comps) ;;
    if (name =? "") || (name =? ".") || (name =? "..") then Raise (eisdir path)
    else
      kids <- create now path (tree w) (parent ++ [name]) ;;
      Ok (mk_world kids (cwd w)).

(* ------------------------------------------------------------------ *)
(** ** [read_gitignore] *)

(** The lines of a text file: cut at every line feed and carriage return.
    (Python reads [\r\n] as one line end; cutting it twice adds an empty
    line, which [read_gitignore] drops.) *)
Fixpoint file_lines (s : string) : list string :=
  match s with
  | EmptyString => [EmptyString]
  | String c s' =>
      if Ascii.eqb c "010"%char || Ascii.eqb c "013"%char
      then EmptyString :: file_lines s'
      else match file_lines s' with
           | [] => [String c EmptyString]
           | h :: t => String c h :: t
           end
  end.

Definition read_gitignore (w : world) (directory : string) : result (list string) :=
  let gitignore_path := Path.join directory ".gitignore" in
  if exists_ w gitignore_path then
    match open_read w gitignore_path with
    | Text content =>
        Ok (filter (fun stripped =>
                      negb (stripped =? "") && negb (Str.startswith stripped "#"))
                   (map Str.strip (file_lines content)))
    | UnicodeDecodeError => Raise "'utf-8' codec can't decode"
    | OSError e => Raise e
    end
  else Ok [].

(* ------------------------------------------------------------------ *)
(** ** [is_ignored] *)

(** The two [if]s that strip one leading and one trailing slash. *)
Definition strip_slashes (pattern : string) : string :=
  let pattern := if Str.startswith pattern "/" then Str.tail pattern else pattern in
  if Str.endswith pattern "/" then Str.drop_last pattern else pattern.

(** The [for pattern in patterns] loop of [is_ignored]: [true] when one of
    its three [return True] is reached. *)
Fixpoint patterns_loop (w : world) (path root : string) (patterns : list string)
  : bool :=
  match patterns with
  | [] => false
  | pattern :: rest =>
      let pattern := strip_slashes pattern in
      if Fnmatch.fnmatch path (Path.join root pattern)
         || Fnmatch.fnmatch (Path.relpath (cwd w) path root) pattern
      then true
      else if isdir w path && Fnmatch.fnmatch path (Path.join root (pattern ++ "/*"))
      then true
      else if existsb (fun part => Fnmatch.fnmatch part pattern)
                      (Str.split Path.sep (Path.relpath (cwd w) path root))
      then true
      else patterns_loop w path root rest
  end.

Definition is_ignored (w : world) (path : string) (patterns : list string)
    (root output_file : string) (extensions : list string) : bool :=
  if Path.abspath (cwd w) path =? Path.abspath (cwd w) output_file then true
  else
    let basename := Path.basename path in
    if isdir w path && Str.startswith basename "." then true
    else if Str.contains (Str.lower basename) "cache" then true
    else if isfile w path && Str.has_digit_run basename then true
    else if patterns_loop w path root patterns then true
    else if isfile w path
            && (match extensions with [] => false | _ => true end
                && negb (Str.mem (Str.lower (Str.tail (snd (Path.splitext path))))
                                 extensions))
    then true
    else false.

(** [main]: the allow-list built from the [-e] argument. *)
Definition main_extensions (arg : string) : list string :=
  if arg =? "" then [] else map Str.lower (Str.split ","%char arg).

(* ------------------------------------------------------------------ *)
(** ** [os.walk] *)

Definition dir_names (kids : list node) : list string :=
  map node_name (filter is_dir_node kids).

Definition file_names (kids : list node) : list string :=
  map node_name (filter (fun k => negb (is_dir_node k)) kids).

Section Walk.

Context {S : Type}.

(** The body of a [for root, dirs, files in os.walk(top)] loop: from the
    triple and the state before the iteration to [dirs] as the body
    leaves it (the generator reads it back) and the state after. *)
Variable body : string -> list string -> list string -> S -> list string * S.

(** The loop below [top], which is the directory [nd]: one iteration for
    [top], then, in the order of what is left of [dirs], the loop below
    each subdirectory.  Nothing is yielded for what is not a directory. *)
Fixpoint walk_node (top : string) (nd : node) (s : S) {struct nd} : S :=
  match nd with
  | File _ _ => s
  | Link _ => s
  | Dir _ kids =>
      let r := body top (dir_names kids) (file_names kids) s in
      fold_left
        (fun (s : S) (d : string) =>
           (fix enter (l : list node) : S :=
              match l with
              | [] => s
              | k :: l' =>
                  if is_dir_node k && (node_name k =? d)
                  then walk_node (Path.join top d) k s
                  else enter l'
              end) kids)
        (fst r) (snd r)
  end.

Definition walk_kids (top : string) (kids : list node) (s : S) : S :=
  walk_node top (Dir "" kids) s.

(** [os.walk(top)] with the default [onerror]: nothing is yielded for a
    [top] that cannot be listed. *)
Definition os_walk (w : world) (top : string) (s : S) : S :=
  match lookup w top with
  | Some (EDir kids) => walk_kids top kids s
  | _ => s
  end.

End Walk.

(* ------------------------------------------------------------------ *)
(** ** [count_files] and [count_excluded_files] *)

Definition count_files (w : world) (directory : string) (patterns : list string)
    (root_dir output_file : string) (extensions : list string) : nat :=
  os_walk
    (fun root dirs files count =>
       (filter (fun d => negb (is_ignored w (Path.join root d) patterns root_dir
                                          output_file extensions)) dirs,
        fold_left
          (fun count file =>
             let file_path := Path.join root file in
             if negb (is_ignored w file_path patterns root_dir output_file extensions)
             then count + 1 else count)
          files count))
    w directory 0.

(** [l.remove(x)]: without the first [x] (the program removes names it has
    just read from [l]). *)
Fixpoint list_remove (x : string) (l : list string) : list string :=
  match l with
  | [] => []
  | y :: l' => if y =? x then l' else y :: list_remove x l'
  end.

Definition count_excluded_files (w : world) (directory : string)
    (patterns : list string) (root_dir output_file : string)
    (extensions : list string) : nat :=
  os_walk
    (fun root dirs files count =>
       let excluded_dirs :=
         filter (fun d => is_ignored w (Path.join root d) patterns root_dir
                                     output_file extensions) dirs in
       (fold_left (fun dirs d => list_remove d dirs) excluded_dirs dirs,
        fold_left
          (fun count file =>
             let file_path := Path.join root file in
             if is_ignored w file_path patterns root_dir output_file extensions
             then count + 1 else count)
          files count))
    w directory 0.

(* ------------------------------------------------------------------ *)
(** ** [format_file_size] and [get_file_icon] *)

Definition N_to_string (n : N) : string := NilZero.string_of_uint (N.to_uint n).

(** [f"{num/den:.1f}"]: the quotient rounded to one decimal, ties to
    even.  (The divisions by [1024.0] are exact on floats below 2^53.) *)
Definition format_1f (num den : N) : string :=
  let q := (10 * num / den)%N in
  let r := (10 * num mod den)%N in
  let tenths :=
    if (den <? 2 * r)%N || ((den =? 2 * r)%N && N.odd q) then (q + 1)%N else q in
  N_to_string (tenths / 10) ++ "." ++ N_to_string (tenths mod 10).

Fixpoint format_units (units : list string) (num den : N) : string :=
  match units with
  | [] => format_1f num den ++ " TB"
  | unit :: rest =>
      if (num <? 1024 * den)%N then format_1f num den ++ " " ++ unit
      else format_units rest num (1024 * den)%N
  end.

Definition format_file_size (size_in_bytes : N) : string :=
  format_units ["B"; "KB"; "MB"; "GB"] size_in_bytes 1.

Definition icons : list (string * string) :=
  [ ("py", "🐍"); ("js", "📜"); ("ts", "📜"); ("jsx", "⚛️"); ("tsx", "⚛️");
    ("html", "🌐"); ("css", "🎨"); ("scss", "🎨"); ("sass", "🎨");
    ("java", "☕"); ("c", "📟"); ("cpp", "📟"); ("h", "📟"); ("cs", "📟");
    ("php", "🐘"); ("rb", "💎"); ("go", "🔹"); ("rs", "🦀");
    ("swift", "🔶"); ("kt", "🔷");
    ("json", "📊"); ("xml", "📊"); ("csv", "📊"); ("yaml", "📊");
    ("yml", "📊"); ("toml", "📊"); ("sql", "🗃️");
    ("md", "📝"); ("txt", "📄"); ("pdf", "📑"); ("doc", "📘");
    ("docx", "📘"); ("xls", "📗"); ("xlsx", "📗"); ("ppt", "📙");
    ("pptx", "📙");
    ("jpg", "🖼️"); ("jpeg", "🖼️"); ("png", "🖼️"); ("gif", "🖼️");
    ("svg", "🖼️"); ("ico", "🖼️"); ("webp", "🖼️");
    ("zip", "📦"); ("rar", "📦"); ("tar", "📦"); ("gz", "📦"); ("7z", "📦");
    ("ini", "⚙️"); ("conf", "⚙️"); ("config", "⚙️"); ("env", "⚙️");
    ("exe", "⚡"); ("sh", "⚡"); ("bat", "⚡"); ("cmd", "⚡") ].

Fixpoint dict_get (d : list (string * string)) (key default : string) : string :=
  match d with
  | [] => default
  | (k, v) :: d' => if k =? key then v else dict_get d' key default
  end.

Definition get_file_icon (extension : string) : string :=
  dict_get icons extension "📄".

(* ------------------------------------------------------------------ *)
(** ** [get_directory_structure] *)

(** [sorted(names)] *)
Fixpoint insert_sorted (x : string) (l : list string) : list string :=
  match l with
  | [] => [x]
  | y :: l' => if Str.leb x y then x :: l else y :: insert_sorted x l'
  end.

Definition sorted (l : list string) : list string :=
  fold_right insert_sorted [] l.

(** What the function appends to [result], before it is laid out as text:
    a directory or a file (with the [path] the policy was asked about), the
    statistics of the root call, and the line of an [except] clause. *)
Inductive item : Type :=
| DirItem (indent path d : string) (file_count : nat)
| FileItem (indent path f : string) (size : N)
| StatsItem (total_included total_excluded : nat)
| ErrorItem (indent message : string).

Definition nl : string := String "010"%char EmptyString.

Definition render_item (it : item) : list string :=
  match it with
  | DirItem indent _ d file_count =>
      [indent ++ "📁 " ++ d ++ "/ (" ++ Str.of_nat file_count ++ " files)"]
  | FileItem indent _ f size =>
      let size_str := format_file_size size in
      let ext := snd (Path.splitext f) in
      if ext =? "" then [indent ++ "📄 " ++ f ++ " (" ++ size_str ++ ")"]
      else
        let icon := get_file_icon (Str.lower (Str.tail ext)) in
        [indent ++ icon ++ " " ++ f ++ " (" ++ size_str ++ ")"]
  | StatsItem total_included total_excluded =>
      [ "";
        "📊 STATISTICS:";
        "   Total files included: " ++ Str.of_nat total_included;
        "   Total files excluded: " ++ Str.of_nat total_excluded;
        "   Total files: " ++ Str.of_nat (total_included + total_excluded) ]
  | ErrorItem indent message => [indent ++ "❌ Error: " ++ message]
  end.

Section Structure.

Variables (w : world) (patterns : list string) (root_dir output_file : string)
          (extensions : list string).

(** The [for f in files] loop: the items, and the message of the
    exception that ended it early, if one did. *)
Fixpoint files_loop (directory indent : string) (files : list string)
  : list item * option string :=
  match files with
  | [] => ([], None)
  | f :: rest =>
      let path := Path.join directory f in
      if negb (is_ignored w path patterns root_dir output_file extensions) then
        match getsize w path with
        | Some size =>
            let r := files_loop directory indent rest in
            (FileItem indent path f size :: fst r, snd r)
        | None => ([], Some (enoent path))
        end
      else files_loop directory indent rest
  end.

(** The body of the function for [directory], which is [nd]. *)
Fixpoint structure_node (directory : string) (nd : node) (indent : string)
    {struct nd} : list item :=
  match nd with
  | File _ _ => [ErrorItem indent (enotdir directory)]
  | Link _ => [ErrorItem indent (enoent directory)]
  | Dir _ kids =>
      let items := sorted (map node_name kids) in
      let dirs := filter (fun item => isdir w (Path.join directory item)) items in
      let files := filter (fun item => isfile w (Path.join directory item)) items in
      let listed_dirs :=
        flat_map
          (fun d =>
             let path := Path.join directory d in
             if negb (is_ignored w path patterns root_dir output_file extensions) then
               DirItem indent path d
                       (count_files w path patterns root_dir output_file extensions)
               :: (fix enter (l : list node) : list item :=
                     match l with
                     | [] => [ErrorItem (indent ++ "│  ") (enoent path)]
                     | k :: l' =>
                         if node_name k =? d
                         then structure_node path k (indent ++ "│  ")
                         else enter l'
                     end) kids
             else [])
          dirs in
      let listed_files := files_loop directory indent files in
      (listed_dirs ++ fst listed_files ++
       match snd listed_files with
       | Some message => [ErrorItem indent message]
       | None =>
           if directory =? root_dir then
             [StatsItem
                (count_files w directory patterns root_dir output_file extensions)
                (count_excluded_files w directory patterns root_dir output_file
                                      extensions)]
           else []
       end)%list
  end.

Definition structure_items (directory indent : string) : list item :=
  match lookup w directory with
  | Some (EDir kids) => structure_node directory (Dir "" kids) indent
  | Some (EFile _) => [ErrorItem indent (enotdir directory)]
  | None => [ErrorItem indent (enoent directory)]
  end.

End Structure.

Definition get_directory_structure (w : world) (directory : string)
    (patterns : list string) (root_dir output_file : string)
    (extensions : list string) (indent : string) : list string :=
  flat_map render_item
    (structure_items w patterns root_dir output_file extensions directory indent).

(* ------------------------------------------------------------------ *)
(** ** [process_directory] *)

(** One pass of the [for file in files] loop that writes a file to the
    artifact: the local variables of the pass and the text of its body. *)
Record emitted : Type := mk_emitted {
  file_path : string;
  relative_path : string;
  file_size : string;
  file_mod_time : string;
  body : string
}.

(** The [try] block and its two [except] clauses. *)
Definition read_body (w : world) (file_path : string) : string :=
  match open_read w file_path with
  | Text content => content ++ nl ++ nl
  | UnicodeDecodeError => "[Binary file - contents not displayed]" ++ nl ++ nl
  | OSError e => "[Error reading file: " ++ e ++ "]" ++ nl ++ nl
  end.

Fixpoint repeat_string (s : string) (n : nat) : string :=
  match n with
  | O => EmptyString
  | Datatypes.S n' => s ++ repeat_string s n'
  end.

Definition render_entry (e : emitted) : string :=
  "=== " ++ relative_path e ++ " ===" ++ nl ++
  "Size: " ++ file_size e ++ " | Last Modified: " ++ file_mod_time e ++ nl ++
  repeat_string "-" 60 ++ nl ++
  body e.

Section Process.

(** [time.time()] and [time.strftime('%Y-%m-%d %H:%M:%S', time.localtime(t))]. *)
Variables (now : Z) (strftime : Z -> string).

Definition stat_of (w : world) (path : string) : result (N * Z) :=
  match getsize w path, getmtime w path with
  | Some size, Some mtime => Ok (size, mtime)
  | _, _ => Raise (enoent path)
  end.

(** One pass of [for file in files]; an exception ends the run. *)
Definition content_step (w : world) (directory : string) (patterns : list string)
    (output_file : string) (extensions : list string) (root : string)
    (acc : result (list emitted)) (file : string) : result (list emitted) :=
  entries <- acc ;;
  let file_path := Path.join root file in
  if is_ignored w file_path patterns directory output_file extensions
  then Ok entries
  else
    st <- stat_of w file_path ;;
    Ok (entries ++
        [mk_emitted file_path
                    (Path.relpath (cwd w) file_path directory)
                    (format_file_size (fst st))
                    (strftime (snd st))
                    (read_body w file_path)])%list.

(** The [os.walk] loop of [process_directory]. *)
Definition content_entries (w : world) (directory : string)
    (patterns : list string) (output_file : string) (extensions : list string)
  : result (list emitted) :=
  os_walk
    (fun root dirs files acc =>
       (filter (fun d => negb (is_ignored w (Path.join root d) patterns directory
                                          output_file extensions)) dirs,
        fold_left
          (content_step w directory patterns output_file extensions root)
          files acc))
    w directory (Ok []).

Definition rule : string := repeat_string "=" 60.

(** The text written to [output_file]. *)
Definition process_directory (w : world) (directory output_file : string)
    (extensions : list string) : result string :=
  from_file <- read_gitignore w directory ;;
  let patterns := (from_file ++ [".git/"])%list in
  w' <- open_w now w output_file ;;
  let project_name := Path.basename (Path.normpath directory) in
  let structure :=
    get_directory_structure w' directory patterns directory output_file
                            extensions "" in
  entries <- content_entries w' directory patterns output_file extensions ;;
  Ok (rule ++ nl ++
      "=== PROJECT DIRECTORY STRUCTURE ===" ++ nl ++
      rule ++ nl ++ nl ++
      "📂 PROJECT: " ++ project_name ++ nl ++
      "📅 DATE: " ++ strftime now ++ nl ++ nl ++
      Str.join nl structure ++
      nl ++ nl ++
      rule ++ nl ++ nl ++
      "=== EXCLUSION RULES APPLIED ===" ++ nl ++
      "✓ Files and directories from .gitignore" ++ nl ++
      "✓ Directories starting with '.'" ++ nl ++
      "✓ Files with 5+ consecutive digits in filename" ++ nl ++
      "✓ Files and directories with 'cache' in name" ++ nl ++
      match extensions with
      | [] => ""
      | _ => "✓ Only including extensions: " ++ Str.join ", " extensions ++ nl
      end ++
      nl ++
      rule ++ nl ++ nl ++
      String.concat "" (map render_entry entries)).

End Process.

(* ------------------------------------------------------------------ *)
(** ** The exclusion policy as the specification words it *)

Module Policy.








End Policy.



(** One pass of the loop of [is_ignored] over the patterns. *)
Definition pattern_hits (w : world) (path root raw : string) : bool :=
  let pattern := strip_slashes raw in
  Fnmatch.fnmatch path (Path.join root pattern)
  || Fnmatch.fnmatch (Path.relpath (cwd w) path root) pattern
  || (isdir w path && Fnmatch.fnmatch path (Path.join root (pattern ++ "/*")))
  || existsb (fun part => Fnmatch.fnmatch part pattern)
             (Str.split Path.sep (Path.relpath (cwd w) path root)).

(** The extension test at the end of [is_ignored]. *)
Definition extension_rejected (path : string) (extensions : list string) : bool :=
  match extensions with [] => false | _ => true end
  && negb (Str.mem (Str.lower (Str.tail (snd (Path.splitext path)))) extensions).

(* ------------------------------------------------------------------ *)
(** ** Well-formed trees and what a walk visits *)

(** A name that a directory can hold. *)
Definition valid_name (n : string) : bool :=
  negb (n =? "") && negb (Str.has_char Path.sep n)
  && negb (n =? ".") && negb (n =? "..").

Fixpoint distinct (l : list string) : bool :=
  match l with
  | [] => true
  | x :: l' => negb (Str.mem x l') && distinct l'
  end.

(** Every name is valid, no directory holds a name twice and there is no
    link. *)
Fixpoint wf_node (nd : node) : bool :=
  valid_name (node_name nd) &&
  match nd with
  | File _ _ => true
  | Dir _ kids => distinct (map node_name kids) && forallb wf_node kids
  | Link _ => false
  end.

Definition wf_kids (kids : list node) : bool :=
  distinct (map node_name kids) && forallb wf_node kids.

Definition wf_world (w : world) : bool := wf_kids (tree w).

(** The subdirectory that [os.walk] enters for the name [d]. *)
Definition find_dir (d : string) (kids : list node) : option node :=
  find (fun k => is_dir_node k && (node_name k =? d)) kids.

(** The pairs [(root, files)] that [os.walk] yields below [top] when every
    loop body leaves in [dirs] the names [d] with [keep (join root d)], in
    the order in which they are yielded. *)
Fixpoint visits (keep : string -> bool) (top : string) (nd : node) {struct nd}
  : list (string * list string) :=
  match nd with
  | File _ _ => []
  | Link _ => []
  | Dir _ kids =>
      (top, file_names kids)
      :: flat_map
           (fun d =>
              (fix enter (l : list node) : list (string * list string) :=
                 match l with
                 | [] => []
                 | k :: l' =>
                     if is_dir_node k && (node_name k =? d)
                     then visits keep (Path.join top d) k
                     else enter l'
                 end) kids)
           (filter (fun d => keep (Path.join top d)) (dir_names kids))
  end.

(** The paths of the files met in the visits that [ignored] lets pass. *)
Definition passing (ignored : string -> bool) (vs : list (string * list string))
  : list string :=
  flat_map
    (fun v => filter (fun p => negb (ignored p)) (map (Path.join (fst v)) (snd v)))
    vs.

(** [count_files] with the counter replaced by the list of the paths it
    counts: the files counted as included. *)
Definition counted_files (w : world) (directory : string) (patterns : list string)
    (root_dir output_file : string) (extensions : list string) : list string :=
  os_walk
    (fun root dirs files counted =>
       (filter (fun d => negb (is_ignored w (Path.join root d) patterns root_dir
                                          output_file extensions)) dirs,
        fold_left
          (fun counted file =>
             let file_path := Path.join root file in
             if negb (is_ignored w file_path patterns root_dir output_file extensions)
             then (counted ++ [file_path])%list else counted)
          files counted))
    w directory [].

(** Every file below a directory, whatever the policy says. *)
Definition all_files (w : world) (directory : string) : list string :=
  match lookup w directory with
  | Some (EDir kids) =>
      passing (fun _ => false) (visits (fun _ => true) directory (Dir "" kids))
  | _ => []
  end.

(** [p] lies below the directory [a]: it is [a] followed by names. *)
Definition beneath (a p : string) : Prop :=
  exists names : list string,
    names <> [] /\ Forall (fun n => valid_name n = true) names
    /\ p = Path.join_all a names.

(** The path an item of the listing stands for. *)
Definition item_path (it : item) : option string :=
  match it with
  | DirItem _ path _ _ => Some path
  | FileItem _ path _ _ => Some path
  | _ => None
  end.

Definition listed_paths (items : list item) : list string :=
  flat_map (fun it => match item_path it with Some p => [p] | None => [] end) items.

Definition listed_files (items : list item) : list string :=
  flat_map (fun it => match it with FileItem _ p _ _ => [p] | _ => [] end) items.

(** The record that the content loop builds for the file at [file_path]. *)
Definition emit (strftime : Z -> string) (w : world) (directory file_path : string)
  : emitted :=
  mk_emitted file_path
             (Path.relpath (cwd w) file_path directory)
             (format_file_size (match getsize w file_path with Some n => n | None => 0%N end))
             (strftime (match getmtime w file_path with Some t => t | None => 0%Z end))
             (read_body w file_path).

(** The separator that [os.path.join] puts after [a]. *)
Definition glue (a : string) : string :=
  if (a =? "") || Str.endswith a "/" then "" else "/".

(** A cursor of the path resolution all of whose listings are well formed. *)
Definition wf_cursor (cur : cursor) : Prop :=
  Forall (fun l => wf_kids l = true) (fst cur) /\
  match snd cur with
  | EDir kids => wf_kids kids = true
  | EFile _ => True
  end.

(** The entry that the name of a node leads to, if any. *)
Definition entry_of (k : node) : option entry :=
  match k with
  | File _ m => Some (EFile m)
  | Dir _ sub => Some (EDir sub)
  | Link _ => None
  end.

(** The names from [a] on are kept by the walk: every directory on the
    way, [a] apart, passes [keep]. *)
Definition kept_chain (keep : string -> bool) (a : string) (names : list string)
  : Prop :=
  forall pre post : list string,
    names = (pre ++ post)%list -> pre <> [] -> keep (Path.join_all a pre) = true.

(* ------------------------------------------------------------------ *)
(** ** Concrete trees *)

Definition text_file (name content : string) : node :=
  File name (mk_meta (N.of_nat (String.length content)) 0%Z (Text content)).

(** The tree of the round-trip scenario: [a.py], [.hidden/secret.txt],
    [node_modules_cache/x.js], [build/out.txt] and the ignore-file with the
    line [build/], in the directory [/proj]. *)
Definition scenario : world :=
  mk_world
    [ Dir "proj"
        [ text_file ".gitignore" ("build/" ++ nl);
          text_file "a.py" "print(1)";
          Dir ".hidden" [text_file "secret.txt" "s3cret"];
          Dir "node_modules_cache" [text_file "x.js" "x()"];
          Dir "build" [text_file "out.txt" "out"] ] ]
    "/".

(** The scenario once the artifact [/proj.txt] has been opened for
    writing (the default output path of [main]). *)
Definition scenario_open : world :=
  mk_world (tree scenario ++ [File "proj.txt" (mk_meta 0 0%Z (Text ""))])%list "/".

(** What the round-trip scenario is said to produce: the files of the
    content section with their bodies, and the number of the statistics
    line. *)
Definition scenario_claim (included : nat) (files : list (string * string)) : Prop :=
  forall (now : Z) (strftime : Z -> string),
  exists (w' : world) (entries : list emitted) (text : string),
    read_gitignore scenario "/proj" = Ok ["build/"]
    /\ open_w now scenario "/proj.txt" = Ok w'
    /\ content_entries strftime w' "/proj" ["build/"; ".git/"] "/proj.txt" []
       = Ok entries
    /\ map (fun e => (relative_path e, body e)) entries = files
    /\ In ("   Total files included: " ++ Str.of_nat included)
          (get_directory_structure w' "/proj" ["build/"; ".git/"] "/proj" "/proj.txt"
                                   [] "")
    /\ process_directory now strftime scenario "/proj" "/proj.txt" [] = Ok text.

(** A tree with dot files, a file without extension, files that cannot be
    read as text, and the artifact inside the scanned directory. *)
Definition sample : world :=
  mk_world
    [ Dir "proj"
        [ text_file ".eslintcache" "{}";
          text_file ".env" "KEY=1";
          text_file "Makefile" "all:";
          text_file "main.py" "pass";
          File "logo.png" (mk_meta 4 0%Z UnicodeDecodeError);
          File "locked.txt" (mk_meta 9 0%Z (OSError "[Errno 13] Permission denied: '/proj/locked.txt'"));
          text_file "out.txt" "";
          Dir ".hidden" [text_file "secret.txt" "s3cret"];
          Dir "src" [text_file "util.py" "x = 1"; Dir ".venv" [text_file "pip.py" "p"]] ] ]
    "/".

(** A directory with a file that does not decode, a file that cannot be
    read, and a broken symbolic link ([latest], left behind by a build);
    and the same directory without the link. *)
Definition unlinked : world :=
  mk_world
    [ Dir "proj"
        [ text_file "a.py" "print(1)";
          File "logo.png" (mk_meta 4 0%Z UnicodeDecodeError);
          File "locked.txt"
               (mk_meta 9 0%Z (OSError "[Errno 13] Permission denied: '/proj/locked.txt'")) ] ]
    "/".

Definition linked : world :=
  mk_world
    [ Dir "proj"
        [ text_file "a.py" "print(1)";
          File "logo.png" (mk_meta 4 0%Z UnicodeDecodeError);
          File "locked.txt"
               (mk_meta 9 0%Z (OSError "[Errno 13] Permission denied: '/proj/locked.txt'"));
          Link "latest";
          text_file "z.py" "print(2)" ] ]
    "/".


(* ------------------------------------------------------------------ *)
(** ** What the counting walks meet *)

(** [count_files] with the counter replaced by the list of the paths of
    all the files it looks at, counted or not: the files of the
    directories that the pruned walk visits. *)
Definition met_files (w : world) (directory : string) (patterns : list string)
    (root_dir output_file : string) (extensions : list string) : list string :=
  os_walk
    (fun root dirs files met =>
       (filter (fun d => negb (is_ignored w (Path.join root d) patterns root_dir
                                          output_file extensions)) dirs,
        (met ++ map (Path.join root) files)%list))
    w directory [].

(** A pattern without [*], [?] and [[]: it stands for itself. *)
Definition glob_free (pat : string) : bool :=
  negb (Str.has_char "*"%char pat) && negb (Str.has_char "?"%char pat)
  && negb (Str.has_char "["%char pat).

(** The two inner loops of [create], on their own: [put_file] puts the
    new file [fresh] in a listing, in the place of a file of its name or at
    the end; [enter_dir] applies [inside] to the listing of the directory
    [name]. *)
Fixpoint put_file (fresh : node) (path : string) (l : list node)
  : result (list node) :=
  match l with
  | [] => Ok [fresh]
  | k :: l' =>
      if node_name k =? node_name fresh then
        match k with
        | File _ _ => Ok (fresh :: l')
        | Dir _ _ => Raise (eisdir path)
        | Link _ => Raise (enoent path)
        end
      else
        match put_file fresh path l' with
        | Ok r => Ok (k :: r)
        | Raise e => Raise e
        end
  end.

Fixpoint enter_dir (inside : list node -> result (list node)) (name path : string)
    (l : list node) : result (list node) :=
  match l with
  | [] => Raise (enoent path)
  | k :: l' =>
      if node_name k =? name then
        match k with
        | File _ _ => Raise (enotdir path)
        | Dir _ sub =>
            match inside sub with
            | Ok sub' => Ok (Dir name sub' :: l')
            | Raise e => Raise e
            end
        | Link _ => Raise (enoent path)
        end
      else
        match enter_dir inside name path l' with
        | Ok r => Ok (k :: r)
        | Raise e => Raise e
        end
  end.

(** The indentation of a line of the listing, and the names of the
    directories and of the files listed at a given indentation. *)
Definition item_indent (it : item) : option string :=
  match it with
  | DirItem indent _ _ _ => Some indent
  | FileItem indent _ _ _ => Some indent
  | ErrorItem indent _ => Some indent
  | StatsItem _ _ => None
  end.

Definition dirs_at (indent : string) (items : list item) : list string :=
  flat_map (fun it => match it with
                      | DirItem i _ d _ => if i =? indent then [d] else []
                      | _ => []
                      end) items.

Definition files_at (indent : string) (items : list item) : list string :=
  flat_map (fun it => match it with
                      | FileItem i _ f _ => if i =? indent then [f] else []
                      | _ => []
                      end) items.

(** The lines of directories and of files written at a given indentation,
    in the order of the listing: the name, and whether the line is that of
    a directory. *)
Definition level_at (indent : string) (items : list item) : list (bool * string) :=
  flat_map (fun it => match it with
                      | DirItem i _ d _ => if i =? indent then [(true, d)] else []
                      | FileItem i _ f _ => if i =? indent then [(false, f)] else []
                      | _ => []
                      end) items.

(** [s1 <= s2] as a relation. *)
Definition str_le (s1 s2 : string) : Prop := Str.leb s1 s2 = true.

(** Every character of [s] is a digit. *)
Definition all_digits (s : string) : bool :=
  forallb Str.is_digit (list_ascii_of_string s).

(** [main]: the path of the artifact.  [output] is the value of [-o];
    without it (or with an empty one) the artifact is named after the
    directory and put beside it.  For paths that pass
    through no symbolic link [os.path.realpath] is [os.path.abspath]. *)
Definition main_output_file (w : world) (directory_path : string)
    (output : option string) : string :=
  let given :=
    match output with
    | Some o => negb (o =? "")
    | None => false
    end in
  let output_file :=
    if given then
      Path.abspath (cwd w) (match output with Some o => o | None => "" end)
    else
      let directory_name := Path.basename (Path.normpath directory_path) in
      Path.join (Path.join directory_path "..") (directory_name ++ ".txt") in
  Path.abspath (cwd w) output_file.

(** [main]: the text of the artifact and the path printed at the end. *)
Definition main (now : Z) (strftime : Z -> string) (w : world)
    (directory : string) (output : option string) (extensions_arg : string)
  : result (string * string) :=
  let extensions := main_extensions extensions_arg in
  let directory_path := Path.abspath (cwd w) directory in
  let output_file := main_output_file w directory_path output in
  text <- process_directory now strftime w directory_path output_file extensions ;;
  Ok (text, output_file).

(** A line end, and a string without line ends. *)
Definition is_break (c : ascii) : bool :=
  Ascii.eqb c "010"%char || Ascii.eqb c "013"%char.

Fixpoint no_break (s : string) : bool :=
  match s with
  | EmptyString => true
  | String c s' => negb (is_break c) && no_break s'
  end.

(** [line] is a line of the text [content]: a part of it without line
    ends that starts where the text starts or after a line end, and ends
    where the text ends or before a line end. *)
Definition line_of (content line : string) : Prop :=
  exists pre post : string,
    content = pre ++ line ++ post
    /\ no_break line = true
    /\ (pre = "" \/ exists pre' b, pre = pre' ++ String b "" /\ is_break b = true)
    /\ (post = "" \/ exists b post', post = String b post' /\ is_break b = true).

(** A pattern as an ignore-file holds it on a line of its own. *)
Definition clean_pattern (p : string) : Prop :=
  p <> "" /\ Str.startswith p "#" = false /\ Str.strip p = p /\ no_break p = true.

(** A string that [str.lstrip] leaves alone. *)
Definition no_leading_space (s : string) : Prop :=
  match s with
  | EmptyString => True
  | String c _ => Str.is_space c = false
  end.

(** The entries of a directory of the tree; none when the path is not a
    directory. *)
Definition children_of (w : world) (path : string) : list node :=
  match lookup w path with
  | Some (EDir kids) => kids
  | _ => []
  end.

(** A directory whose ignore-file holds a comment, an empty line and a
    padded line; and one with a dated log file. *)
Definition commented : world :=
  mk_world
    [ Dir "proj"
        [ text_file ".gitignore"
            ("# build output" ++ nl ++ nl ++ "  build/  " ++ nl ++ "*.log") ] ]
    "/".

Definition dated : world :=
  mk_world [Dir "proj" [text_file "log_20240131.txt" "started"]] "/".

(* ------------------------------------------------------------------ *)
(** ** Properties of [is_ignored] *)

Lemma patterns_loop_existsb w path root patterns :
  patterns_loop w path root patterns = existsb (pattern_hits w path root) patterns.
Proof.
  induction patterns as [|raw rest IH]; [reflexivity|].
  cbn [patterns_loop existsb]. unfold pattern_hits at 1.
  rewrite IH.
  destruct (Fnmatch.fnmatch path _
            || Fnmatch.fnmatch (Path.relpath (cwd w) path root) _); [reflexivity|].
  cbn [orb].
  destruct (isdir w path && _); [reflexivity|].
  cbn [orb].
  destruct (existsb _ (Str.split _ _)); reflexivity.
Qed.



Lemma existsb_Permutation {A : Type} (f : A -> bool) (l l' : list A) :
  Permutation l l' -> existsb f l = existsb f l'.
Proof.
  induction 1 as [|x l l' _ IH|x y l|l l' l'' _ IH1 _ IH2]; cbn.
  - reflexivity.
  - now rewrite IH.
  - destruct (f x), (f y); reflexivity.
  - now rewrite IH1.
Qed.

(** [is_ignored] as a cascade of its six tests. *)
Lemma is_ignored_cascade w path patterns root output_file extensions :
  is_ignored w path patterns root output_file extensions =
  (Path.abspath (cwd w) path =? Path.abspath (cwd w) output_file)
  || (isdir w path && Str.startswith (Path.basename path) ".")
  || Str.contains (Str.lower (Path.basename path)) "cache"
  || (isfile w path && Str.has_digit_run (Path.basename path))
  || existsb (pattern_hits w path root) patterns
  || (isfile w path && extension_rejected path extensions).
Proof.
  unfold is_ignored, extension_rejected.
  rewrite patterns_loop_existsb.
  destruct (_ =? _); [reflexivity|].
  destruct (isdir w path && _); [reflexivity|].
  destruct (Str.contains _ _); [reflexivity|].
  destruct (isfile w path && Str.has_digit_run _); [reflexivity|].
  destruct (existsb _ _); [reflexivity|].
  cbn [orb]. destruct (isfile w path && _); reflexivity.
Qed.



(** C7.  The verdict does not depend on the order of the patterns: for every
    entry and every permutation of the pattern list, [is_ignored] returns
    the same value. *)
Theorem is_ignored_pattern_order w path patterns patterns' root output_file
    extensions :
  Permutation patterns patterns' ->
  is_ignored w path patterns root output_file extensions
  = is_ignored w path patterns' root output_file extensions.
Proof.
  intros Hperm. rewrite !is_ignored_cascade.
  now rewrite (existsb_Permutation _ _ _ Hperm).
Qed.

(* ------------------------------------------------------------------ *)
(** ** The walks as folds over what they visit *)

Lemma node_ind' (P : node -> Prop) :
  (forall name meta, P (File name meta)) ->
  (forall name kids, Forall P kids -> P (Dir name kids)) ->
  (forall name, P (Link name)) ->
  forall nd, P nd.
Proof.
  intros HF HD HL.
  fix IH 1. intros [name meta|name kids|name].
  - apply HF.
  - apply HD. induction kids as [|k kids IHk]; constructor; [apply IH|exact IHk].
  - apply HL.
Qed.

Lemma find_dir_In d kids k :
  find_dir d kids = Some k ->
  In k kids /\ is_dir_node k = true /\ node_name k = d.
Proof.
  unfold find_dir. intros H.
  destruct (find_some _ _ H) as [Hin Hk].
  apply andb_true_iff in Hk as [Hd Hn].
  apply String.eqb_eq in Hn. auto.
Qed.

Lemma fold_left_ext_in {A B : Type} (f g : A -> B -> A) (l : list B) (a : A) :
  (forall a b, In b l -> f a b = g a b) -> fold_left f l a = fold_left g l a.
Proof.
  revert a. induction l as [|b l IH]; intros a H; cbn; [reflexivity|].
  rewrite H by (now left). apply IH. intros; apply H; now right.
Qed.

Lemma fold_left_flat_map {A B C : Type} (g : A -> C -> A) (v : B -> list C)
    (l : list B) (a : A) :
  fold_left g (flat_map v l) a = fold_left (fun a b => fold_left g (v b) a) l a.
Proof.
  revert a. induction l as [|b l IH]; intros a; cbn; [reflexivity|].
  now rewrite fold_left_app, IH.
Qed.

Section WalkFacts.

Context {S : Type}.
Variable body : string -> list string -> list string -> S -> list string * S.

Lemma walk_node_Dir top name kids (s : S) :
  walk_node body top (Dir name kids) s =
  fold_left
    (fun s d =>
       match find_dir d kids with
       | Some k => walk_node body (Path.join top d) k s
       | None => s
       end)
    (fst (body top (dir_names kids) (file_names kids) s))
    (snd (body top (dir_names kids) (file_names kids) s)).
Proof.
  cbn [walk_node]. apply fold_left_ext_in. intros s' d _.
  unfold find_dir. induction kids as [|k l IH]; cbn [find]; [reflexivity|].
  destruct (is_dir_node k && (node_name k =? d)); [reflexivity|exact IH].
Qed.

End WalkFacts.

Lemma visits_Dir keep top name kids :
  visits keep top (Dir name kids) =
  (top, file_names kids)
  :: flat_map
       (fun d =>
          match find_dir d kids with
          | Some k => visits keep (Path.join top d) k
          | None => []
          end)
       (filter (fun d => keep (Path.join top d)) (dir_names kids)).
Proof.
  cbn [visits]. f_equal. apply flat_map_ext. intros d.
  unfold find_dir. induction kids as [|k l IH]; cbn [find]; [reflexivity|].
  destruct (is_dir_node k && (node_name k =? d)); [reflexivity|exact IH].
Qed.

(** A loop body that filters [dirs] by [keep] and folds [g] over the files
    runs [g] over the visits. *)
Lemma walk_node_visits {S : Type} (keep : string -> bool)
    (g : string -> list string -> S -> S) (nd : node) :
  forall top s,
    walk_node
      (fun root dirs files s =>
         (filter (fun d => keep (Path.join root d)) dirs, g root files s))
      top nd s
    = fold_left (fun s v => g (fst v) (snd v) s) (visits keep top nd) s.
Proof.
  induction nd as [name meta|name kids IH|name] using node_ind'; intros top s;
    [reflexivity| |reflexivity].
  rewrite walk_node_Dir, visits_Dir. cbn [fst snd fold_left].
    rewrite fold_left_flat_map.
    apply fold_left_ext_in. intros s' d _.
    destruct (find_dir d kids) as [k|] eqn:Hk; [|reflexivity].
    apply find_dir_In in Hk as [Hin _].
    rewrite Forall_forall in IH. now apply IH.
Qed.

Lemma passing_In ignored vs p :
  In p (passing ignored vs) <->
  ignored p = false /\
  exists root files f, In (root, files) vs /\ In f files /\ p = Path.join root f.
Proof.
  unfold passing. rewrite in_flat_map. split.
  - intros [[root files] [Hv Hp]]. cbn [fst snd] in Hp.
    apply filter_In in Hp as [Hp Hi]. apply in_map_iff in Hp as [f [Hf Hin]].
    split; [now apply negb_true_iff in Hi|].
    exists root, files, f. auto.
  - intros [Hi [root [files [f [Hv [Hf Hp]]]]]].
    exists (root, files). split; [exact Hv|]. cbn [fst snd].
    apply filter_In. split.
    + subst p. now apply in_map.
    + now rewrite Hi.
Qed.

Section Counting.

Variables (w : world) (patterns : list string) (root_dir output_file : string)
          (extensions : list string).

Let ignored (p : string) : bool :=
  is_ignored w p patterns root_dir output_file extensions.
Let keep (p : string) : bool := negb (ignored p).

Lemma count_loop root files (count : nat) :
  fold_left
    (fun count file =>
       let file_path := Path.join root file in
       if negb (is_ignored w file_path patterns root_dir output_file extensions)
       then count + 1 else count)
    files count
  = count + length (filter keep (map (Path.join root) files)).
Proof.
  revert count. induction files as [|f files IH]; intros count; cbn.
  - lia.
  - rewrite IH. unfold keep, ignored. destruct (negb _); cbn; lia.
Qed.

Lemma counted_loop root files (counted : list string) :
  fold_left
    (fun counted file =>
       let file_path := Path.join root file in
       if negb (is_ignored w file_path patterns root_dir output_file extensions)
       then (counted ++ [file_path])%list else counted)
    files counted
  = (counted ++ filter keep (map (Path.join root) files))%list.
Proof.
  revert counted. induction files as [|f files IH]; intros counted; cbn.
  - now rewrite app_nil_r.
  - rewrite IH. unfold keep, ignored. destruct (negb _); cbn; [|reflexivity].
    now rewrite <- app_assoc.
Qed.

Lemma count_visits vs (count : nat) :
  fold_left
    (fun count v =>
       fold_left
         (fun count file =>
            let file_path := Path.join (fst v) file in
            if negb (is_ignored w file_path patterns root_dir output_file extensions)
            then count + 1 else count)
         (snd v) count)
    vs count
  = count + length (passing ignored vs).
Proof.
  revert count. induction vs as [|v vs IH]; intros count.
  - cbn. lia.
  - cbn [fold_left]. rewrite IH, count_loop.
    unfold passing. cbn [flat_map]. rewrite length_app. unfold keep. lia.
Qed.

Lemma counted_visits vs (counted : list string) :
  fold_left
    (fun counted v =>
       fold_left
         (fun counted file =>
            let file_path := Path.join (fst v) file in
            if negb (is_ignored w file_path patterns root_dir output_file extensions)
            then (counted ++ [file_path])%list else counted)
         (snd v) counted)
    vs counted
  = (counted ++ passing ignored vs)%list.
Proof.
  revert counted. induction vs as [|v vs IH]; intros counted.
  - cbn. now rewrite app_nil_r.
  - cbn [fold_left]. rewrite IH, counted_loop.
    unfold passing. cbn [flat_map]. unfold keep. now rewrite <- app_assoc.
Qed.

(** [count_files] counts the files that pass in the directories it visits. *)
Lemma count_files_visits directory :
  count_files w directory patterns root_dir output_file extensions =
  match lookup w directory with
  | Some (EDir kids) => length (passing ignored (visits keep directory (Dir "" kids)))
  | _ => 0
  end.
Proof.
  unfold count_files, os_walk, walk_kids.
  destruct (lookup w directory) as [[m|kids]|]; try reflexivity.
  rewrite (walk_node_visits keep
             (fun root files count =>
                fold_left
                  (fun count file =>
                     let file_path := Path.join root file in
                     if negb (is_ignored w file_path patterns root_dir output_file
                                         extensions)
                     then count + 1 else count)
                  files count)).
  now rewrite count_visits.
Qed.

Lemma counted_files_visits directory :
  counted_files w directory patterns root_dir output_file extensions =
  match lookup w directory with
  | Some (EDir kids) => passing ignored (visits keep directory (Dir "" kids))
  | _ => []
  end.
Proof.
  unfold counted_files, os_walk, walk_kids.
  destruct (lookup w directory) as [[m|kids]|]; try reflexivity.
  rewrite (walk_node_visits keep
             (fun root files counted =>
                fold_left
                  (fun counted file =>
                     let file_path := Path.join root file in
                     if negb (is_ignored w file_path patterns root_dir output_file
                                         extensions)
                     then (counted ++ [file_path])%list else counted)
                  files counted)).
  now rewrite counted_visits.
Qed.

Lemma count_files_counted directory :
  count_files w directory patterns root_dir output_file extensions
  = length (counted_files w directory patterns root_dir output_file extensions).
Proof.
  rewrite count_files_visits, counted_files_visits.
  destruct (lookup w directory) as [[m|kids]|]; reflexivity.
Qed.

End Counting.

Section Content.

Variables (strftime : Z -> string) (w : world) (directory : string)
          (patterns : list string) (output_file : string)
          (extensions : list string).

Let ignored (p : string) : bool :=
  is_ignored w p patterns directory output_file extensions.
Let keep (p : string) : bool := negb (ignored p).

Lemma content_loop_Raise root files e :
  fold_left (content_step strftime w directory patterns output_file extensions root)
            files (Raise e) = Raise e.
Proof.
  induction files as [|f files IH]; [reflexivity|exact IH].
Qed.

Lemma content_visits_Raise vs e :
  fold_left
    (fun acc v =>
       fold_left (content_step strftime w directory patterns output_file extensions
                               (fst v)) (snd v) acc)
    vs (Raise e) = Raise e.
Proof.
  induction vs as [|v vs IH]; [reflexivity|].
  cbn [fold_left]. now rewrite content_loop_Raise.
Qed.

Lemma stat_of_emit p st :
  stat_of w p = Ok st ->
  mk_emitted p (Path.relpath (cwd w) p directory) (format_file_size (fst st))
             (strftime (snd st)) (read_body w p)
  = emit strftime w directory p.
Proof.
  unfold stat_of, emit.
  destruct (getsize w p), (getmtime w p); intros H; try discriminate.
  now inversion H.
Qed.

Lemma content_loop_Ok root files entries entries' :
  fold_left (content_step strftime w directory patterns output_file extensions root)
            files (Ok entries) = Ok entries' ->
  entries' = (entries ++ map (emit strftime w directory)
                             (filter keep (map (Path.join root) files)))%list.
Proof.
  revert entries. induction files as [|f files IH]; intros entries H.
  - cbn in *. inversion H. now rewrite app_nil_r.
  - cbn [fold_left map filter] in *.
    unfold content_step at 2 in H. cbn [bind] in H.
    unfold keep, ignored.
    destruct (is_ignored w (Path.join root f) _ _ _ _); cbn [negb].
    + now apply IH.
    + destruct (stat_of w (Path.join root f)) as [st|e] eqn:Hst; cbn [bind] in H.
      * apply IH in H. rewrite H, <- app_assoc. cbn [app map].
        now rewrite (stat_of_emit _ _ Hst).
      * now rewrite content_loop_Raise in H.
Qed.

Lemma content_visits_Ok vs entries entries' :
  fold_left
    (fun acc v =>
       fold_left (content_step strftime w directory patterns output_file extensions
                               (fst v)) (snd v) acc)
    vs (Ok entries) = Ok entries' ->
  entries' = (entries ++ map (emit strftime w directory) (passing ignored vs))%list.
Proof.
  revert entries. induction vs as [|v vs IH]; intros entries H.
  - cbn in *. inversion H. now rewrite app_nil_r.
  - cbn [fold_left] in H.
    destruct (fold_left _ (snd v) (Ok entries)) as [mid|e] eqn:Hmid.
    + apply content_loop_Ok in Hmid. apply IH in H.
      rewrite H, Hmid. unfold passing. cbn [flat_map].
      now rewrite map_app, <- app_assoc.
    + now rewrite content_visits_Raise in H.
Qed.

(** When every file that passes can be stat'ed, the loop ends normally. *)
Lemma content_loop_total root files entries :
  (forall f, In f files -> keep (Path.join root f) = true ->
             isfile w (Path.join root f) = true) ->
  exists entries',
    fold_left (content_step strftime w directory patterns output_file extensions root)
              files (Ok entries) = Ok entries'.
Proof.
  revert entries. induction files as [|f files IH]; intros entries H.
  - now exists entries.
  - cbn [fold_left]. unfold content_step at 2. cbn [bind].
    destruct (is_ignored w (Path.join root f) _ _ _ _) eqn:Hi.
    + apply IH. intros; apply H; [now right|assumption].
    + assert (Hf : isfile w (Path.join root f) = true).
      { apply H; [now left|]. unfold keep, ignored. now rewrite Hi. }
      unfold stat_of, getsize, getmtime. unfold isfile in Hf.
      destruct (lookup w (Path.join root f)) as [[m|kids]|]; try discriminate.
      cbn [bind]. apply IH. intros; apply H; [now right|assumption].
Qed.

Lemma content_visits_total vs entries :
  (forall root files f, In (root, files) vs -> In f files ->
                        keep (Path.join root f) = true ->
                        isfile w (Path.join root f) = true) ->
  exists entries',
    fold_left
      (fun acc v =>
         fold_left (content_step strftime w directory patterns output_file extensions
                                 (fst v)) (snd v) acc)
      vs (Ok entries) = Ok entries'.
Proof.
  revert entries. induction vs as [|[root files] vs IH]; intros entries H.
  - now exists entries.
  - cbn [fold_left fst snd].
    destruct (content_loop_total root files entries) as [mid Hmid].
    { intros f Hf. apply (H root files f); [now left|exact Hf]. }
    rewrite Hmid. apply IH. intros r fl f Hv. apply H. now right.
Qed.

Lemma content_entries_walk :
  content_entries strftime w directory patterns output_file extensions =
  match lookup w directory with
  | Some (EDir kids) =>
      fold_left
        (fun acc v =>
           fold_left (content_step strftime w directory patterns output_file
                                   extensions (fst v)) (snd v) acc)
        (visits keep directory (Dir "" kids)) (Ok [])
  | _ => Ok []
  end.
Proof.
  unfold content_entries, os_walk, walk_kids.
  destruct (lookup w directory) as [[m|kids]|]; try reflexivity.
  apply (walk_node_visits keep
           (fun root files acc =>
              fold_left (content_step strftime w directory patterns output_file
                                      extensions root) files acc)).
Qed.

(** What the content loop emits when it ends normally: the record of every
    file counted as included, in the same order. *)
Lemma content_entries_Ok entries :
  content_entries strftime w directory patterns output_file extensions = Ok entries ->
  entries = map (emit strftime w directory)
                (counted_files w directory patterns directory output_file extensions).
Proof.
  rewrite content_entries_walk, counted_files_visits.
  destruct (lookup w directory) as [[m|kids]|]; intros H.
  - now inversion H.
  - apply content_visits_Ok in H. exact H.
  - now inversion H.
Qed.

(** The loop ends normally only if every file that passes could be
    stat'ed. *)
Lemma content_loop_stat root files : forall entries entries',
  fold_left (content_step strftime w directory patterns output_file extensions root)
            files (Ok entries) = Ok entries' ->
  forall f, In f files -> keep (Path.join root f) = true ->
            isfile w (Path.join root f) = true.
Proof.
  induction files as [|a files IH]; intros entries entries' H f Hin Hk; [destruct Hin|].
  cbn [fold_left] in H. unfold content_step at 2 in H. cbn [bind] in H.
  unfold keep, ignored in Hk.
  destruct (is_ignored w (Path.join root a) _ _ _ _) eqn:Hi.
  - destruct Hin as [E|Hin]; [subst a; now rewrite Hi in Hk|].
    now apply (IH _ _ H).
  - destruct (stat_of w (Path.join root a)) as [st|e] eqn:Hs; cbn [bind] in H.
    + destruct Hin as [E|Hin]; [|now apply (IH _ _ H)].
      subst a. unfold stat_of, getsize in Hs. unfold isfile.
      now destruct (lookup w (Path.join root f)) as [[m|sub]|].
    + now rewrite content_loop_Raise in H.
Qed.

Lemma content_visits_stat vs : forall entries entries',
  fold_left
    (fun acc v =>
       fold_left (content_step strftime w directory patterns output_file extensions
                               (fst v)) (snd v) acc)
    vs (Ok entries) = Ok entries' ->
  forall root files f, In (root, files) vs -> In f files ->
                       keep (Path.join root f) = true ->
                       isfile w (Path.join root f) = true.
Proof.
  induction vs as [|v vs IH]; intros entries entries' H root files f Hv Hf Hk;
    [destruct Hv|].
  cbn [fold_left] in H.
  destruct (fold_left _ (snd v) (Ok entries)) as [mid|e] eqn:Hmid.
  - destruct Hv as [E|Hv]; [|now apply (IH _ _ H root files)].
    subst v. now apply (content_loop_stat _ _ _ _ Hmid).
  - now rewrite content_visits_Raise in H.
Qed.

(** The content loop ends normally exactly when every file that it is to
    write is a regular file: one whose size can be asked for. *)
Lemma content_entries_iff :
  (exists entries,
      content_entries strftime w directory patterns output_file extensions = Ok entries)
  <-> forall p,
        In p (counted_files w directory patterns directory output_file extensions) ->
        isfile w p = true.
Proof.
  rewrite content_entries_walk, counted_files_visits.
  destruct (lookup w directory) as [[m|kids]|].
  - split; [intros _ p []|eauto].
  - split.
    + intros [entries H] p Hp. apply passing_In in Hp as [Hi [root [files [f [Hv [Hf E]]]]]].
      subst p. apply (content_visits_stat _ _ _ H root files f Hv Hf).
      unfold keep. apply negb_true_iff. exact Hi.
    + intros H. apply content_visits_total. intros root files f Hv Hf Hk.
      apply H. apply passing_In. split.
      * unfold keep in Hk. now apply negb_true_iff in Hk.
      * eauto 6.
  - split; [intros _ p []|eauto].
Qed.

End Content.

(* ------------------------------------------------------------------ *)
(** ** Paths made of valid names *)

Lemma valid_name_nonempty n : valid_name n = true -> n <> "".
Proof.
  unfold valid_name. intros H Hn. subst n. discriminate.
Qed.

Lemma valid_name_slashfree n : valid_name n = true -> Str.has_char Path.sep n = false.
Proof.
  unfold valid_name. intros H.
  apply andb_true_iff in H as [H _]. apply andb_true_iff in H as [H _].
  apply andb_true_iff in H as [_ H]. now apply negb_true_iff in H.
Qed.

Lemma valid_name_not_special n :
  valid_name n = true -> (n =? "") = false /\ (n =? ".") = false /\ (n =? "..") = false.
Proof.
  unfold valid_name. intros H.
  apply andb_true_iff in H as [H H3]. apply andb_true_iff in H as [H H2].
  apply andb_true_iff in H as [H1 _].
  apply negb_true_iff in H1, H2, H3. auto.
Qed.

Lemma has_char_cons c a s :
  Str.has_char c (String a s) = Ascii.eqb c a || Str.has_char c s.
Proof. reflexivity. Qed.

Lemma slashfree_not_absolute n :
  Str.has_char Path.sep n = false -> Str.startswith n "/" = false.
Proof.
  unfold Str.startswith. destruct n as [|a n]; [reflexivity|].
  rewrite has_char_cons. intros H. apply orb_false_iff in H as [H _].
  cbn [String.prefix].
  destruct (ascii_dec "/"%char a) as [E|E]; [|reflexivity].
  subst a. unfold Path.sep in H. now rewrite Ascii.eqb_refl in H.
Qed.

Lemma length_append (a b : string) :
  String.length (a ++ b) = String.length a + String.length b.
Proof.
  induction a as [|c a IH]; cbn; [reflexivity|now rewrite IH].
Qed.

Lemma endswith_slashfree q :
  Str.has_char Path.sep q = false -> Str.endswith q "/" = false.
Proof.
  induction q as [|a q IH]; [reflexivity|].
  rewrite has_char_cons. intros H. apply orb_false_iff in H as [Ha Hq].
  cbn [Str.endswith]. rewrite (IH Hq), orb_false_r.
  cbn. unfold Path.sep in Ha. rewrite Ascii.eqb_sym in Ha. rewrite Ha. reflexivity.
Qed.

Lemma endswith_app_nonempty x q suffix :
  q <> "" -> String.length suffix = 1 ->
  Str.endswith (x ++ q) suffix = Str.endswith q suffix.
Proof.
  intros Hq Hs. induction x as [|a x IH]; [reflexivity|].
  cbn [append Str.endswith]. rewrite IH.
  replace (String a (x ++ q) =? suffix) with false; [reflexivity|].
  symmetry. apply String.eqb_neq. intros E.
  apply (f_equal String.length) in E. cbn in E.
  rewrite length_append in E.
  destruct q; [congruence|]. cbn in E. lia.
Qed.

Lemma endswith_split q :
  Str.endswith q "/" = true -> exists q', q = q' ++ "/".
Proof.
  induction q as [|a q IH]; cbn [Str.endswith]; intros H.
  - discriminate.
  - apply orb_true_iff in H as [H|H].
    + apply String.eqb_eq in H. exists "". exact H.
    + destruct (IH H) as [q' E]. exists (String a q'). cbn. now rewrite E.
Qed.

Lemma split_nonempty sep s : Str.split sep s <> [].
Proof.
  destruct s as [|a s]; cbn; [discriminate|].
  destruct (Ascii.eqb a sep); [discriminate|].
  destruct (Str.split sep s); discriminate.
Qed.

Lemma split_slashfree sep x :
  Str.has_char sep x = false -> Str.split sep x = [x].
Proof.
  induction x as [|a x IH]; [reflexivity|].
  rewrite has_char_cons. intros H. apply orb_false_iff in H as [Ha Hx].
  cbn [Str.split]. rewrite Ascii.eqb_sym, Ha, (IH Hx). reflexivity.
Qed.

Lemma split_app_sep sep x r :
  Str.has_char sep x = false ->
  Str.split sep (x ++ String sep r) = x :: Str.split sep r.
Proof.
  induction x as [|a x IH].
  - intros _. cbn. now rewrite Ascii.eqb_refl.
  - rewrite has_char_cons. intros H. apply orb_false_iff in H as [Ha Hx].
    cbn [append Str.split]. rewrite Ascii.eqb_sym, Ha, (IH Hx). reflexivity.
Qed.

Lemma split_snoc sep a n :
  Str.has_char sep n = false ->
  Str.split sep (a ++ String sep n) = (Str.split sep a ++ [n])%list.
Proof.
  intros Hn. induction a as [|c a IH].
  - cbn. now rewrite Ascii.eqb_refl, (split_slashfree _ _ Hn).
  - cbn [append Str.split]. rewrite IH.
    destruct (Ascii.eqb c sep); [reflexivity|].
    destruct (Str.split sep a) as [|h t] eqn:E; [now apply split_nonempty in E|].
    reflexivity.
Qed.

Lemma join_valid a n :
  valid_name n = true -> Path.join a n = a ++ glue a ++ n.
Proof.
  intros Hn. unfold Path.join, glue.
  rewrite (slashfree_not_absolute _ (valid_name_slashfree _ Hn)).
  destruct ((a =? "") || Str.endswith a "/"); reflexivity.
Qed.

Lemma append_assoc (a b c : string) : (a ++ b) ++ c = a ++ (b ++ c).
Proof.
  induction a as [|x a IH]; cbn; [reflexivity|now rewrite IH].
Qed.

Lemma append_nil_r (a : string) : a ++ "" = a.
Proof.
  induction a as [|x a IH]; cbn; [reflexivity|now rewrite IH].
Qed.

Lemma append_inj_l (a x y : string) : a ++ x = a ++ y -> x = y.
Proof.
  induction a as [|c a IH]; cbn; intros H; [exact H|].
  inversion H. auto.
Qed.

Lemma glue_join a n : valid_name n = true -> glue (Path.join a n) = "/".
Proof.
  intros Hn. rewrite (join_valid _ _ Hn). unfold glue at 1.
  rewrite <- append_assoc.
  rewrite (endswith_app_nonempty _ n "/" (valid_name_nonempty _ Hn) eq_refl).
  rewrite (endswith_slashfree _ (valid_name_slashfree _ Hn)), orb_false_r.
  replace ((a ++ glue a) ++ n =? "") with false; [reflexivity|].
  symmetry. apply String.eqb_neq. intros E.
  apply (f_equal String.length) in E. rewrite length_append in E.
  pose proof (valid_name_nonempty _ Hn). destruct n; [congruence|]. cbn in E. lia.
Qed.

Lemma join_all_cons a n names :
  Path.join_all a (n :: names) = Path.join_all (Path.join a n) names.
Proof. reflexivity. Qed.

Lemma join_all_app a xs ys :
  Path.join_all a (xs ++ ys) = Path.join_all (Path.join_all a xs) ys.
Proof. unfold Path.join_all. apply fold_left_app. Qed.

Lemma concat_cons2 sep (x y : string) l :
  String.concat sep (x :: y :: l) = x ++ sep ++ String.concat sep (y :: l).
Proof. reflexivity. Qed.

Lemma join_all_valid a n names :
  Forall (fun n => valid_name n = true) (n :: names) ->
  Path.join_all a (n :: names) = a ++ glue a ++ String.concat "/" (n :: names).
Proof.
  revert a n. induction names as [|m names IH]; intros a n H.
  - inversion H; subst. cbn [Path.join_all fold_left String.concat].
    now apply join_valid.
  - inversion H as [|? ? Hn Hrest]; subst.
    rewrite join_all_cons, (IH _ _ Hrest), (glue_join _ _ Hn), (join_valid _ _ Hn).
    rewrite (concat_cons2 "/" n m). now rewrite !append_assoc.
Qed.

Lemma split_concat names :
  names <> [] -> Forall (fun n => valid_name n = true) names ->
  Str.split Path.sep (String.concat "/" names) = names.
Proof.
  induction names as [|n names IH]; intros Hne H; [congruence|].
  inversion H as [|? ? Hn Hrest]; subst.
  destruct names as [|m names].
  - cbn [String.concat]. apply split_slashfree. now apply valid_name_slashfree.
  - rewrite concat_cons2.
    change ("/" ++ String.concat "/" (m :: names))
      with (String Path.sep (String.concat "/" (m :: names))).
    rewrite (split_app_sep _ _ _ (valid_name_slashfree _ Hn)).
    rewrite IH; [reflexivity|discriminate|exact Hrest].
Qed.

Lemma concat_nonempty names :
  names <> [] -> Forall (fun n => valid_name n = true) names ->
  String.concat "/" names <> "".
Proof.
  intros Hne H E. destruct names as [|n names]; [congruence|].
  inversion H as [|? ? Hn _]; subst. apply valid_name_nonempty in Hn.
  destruct names as [|m names].
  - cbn in E. congruence.
  - rewrite concat_cons2 in E. destruct n; [congruence|discriminate].
Qed.

(** Two lists of valid names that lead from [a] to the same path are equal. *)
Lemma join_all_inj a xs ys :
  Forall (fun n => valid_name n = true) xs ->
  Forall (fun n => valid_name n = true) ys ->
  Path.join_all a xs = Path.join_all a ys -> xs = ys.
Proof.
  intros Hx Hy E.
  assert (grow : forall zs, zs <> [] -> Forall (fun n => valid_name n = true) zs ->
                            a <> Path.join_all a zs).
  { intros [|z zs] Hne Hz; [congruence|]. rewrite (join_all_valid _ _ _ Hz).
    intros E'. apply (f_equal String.length) in E'.
    rewrite !length_append in E'.
    pose proof (concat_nonempty _ Hne Hz) as Hc.
    destruct (String.concat "/" (z :: zs)); [congruence|]. cbn in E'. lia. }
  destruct xs as [|x xs], ys as [|y ys].
  - reflexivity.
  - exfalso. apply (grow (y :: ys)); [discriminate|exact Hy|exact E].
  - exfalso. apply (grow (x :: xs)); [discriminate|exact Hx|now symmetry].
  - rewrite (join_all_valid _ _ _ Hx), (join_all_valid _ _ _ Hy) in E.
    apply append_inj_l, append_inj_l in E.
    rewrite <- (split_concat (x :: xs)), <- (split_concat (y :: ys));
      [now rewrite E|discriminate|exact Hy|discriminate|exact Hx].
Qed.

(* ------------------------------------------------------------------ *)
(** ** Path lookup in a well-formed tree *)

Lemma steps_app cur xs ys :
  steps cur (xs ++ ys) =
  match steps cur xs with
  | Some cur' => steps cur' ys
  | None => None
  end.
Proof.
  revert cur. induction xs as [|x xs IH]; intros cur; cbn; [reflexivity|].
  destruct (step cur x); [apply IH|reflexivity].
Qed.

Lemma step_name up here n :
  valid_name n = true ->
  step (up, EDir here) n =
  match find_child n here with
  | Some k => option_map (pair (here :: up)%list) (entry_of k)
  | None => None
  end.
Proof.
  intros Hn. destruct (valid_name_not_special _ Hn) as [H1 [H2 H3]].
  unfold step. rewrite H1, H2, H3. cbn [orb].
  destruct (find_child n here) as [[name m|name sub|name]|]; reflexivity.
Qed.

Lemma step_empty_dir cur up kids :
  step cur "" = Some (up, EDir kids) -> cur = (up, EDir kids).
Proof.
  destruct cur as [up' [m|here]]; cbn; intros H; [discriminate|now inversion H].
Qed.

Lemma startswith_slash_cons c s :
  Str.startswith (String c s) "/" = if ascii_dec "/"%char c then true else false.
Proof.
  unfold Str.startswith. cbn [String.prefix].
  destruct (ascii_dec "/"%char c); [now destruct s|reflexivity].
Qed.

Lemma anchored_join w p n :
  p <> "" -> valid_name n = true ->
  anchored w (Path.join p n) = anchored w p ++ glue (anchored w p) ++ n.
Proof.
  intros Hp Hn. rewrite (join_valid _ _ Hn). unfold anchored, Path.isabs.
  assert (Habs : Str.startswith (p ++ glue p ++ n) "/" = Str.startswith p "/").
  { destruct p as [|c p]; [congruence|]. cbn [append].
    now rewrite !startswith_slash_cons. }
  rewrite Habs. destruct (Str.startswith p "/"); [reflexivity|].
  assert (Hg : glue (cwd w ++ "/" ++ p) = glue p).
  { unfold glue. rewrite <- append_assoc.
    rewrite (endswith_app_nonempty _ p "/" Hp eq_refl).
    replace ((cwd w ++ "/") ++ p =? "") with false.
    - replace (p =? "") with false; [reflexivity|].
      symmetry. now apply String.eqb_neq.
    - symmetry. apply String.eqb_neq. intros E.
      apply (f_equal String.length) in E. rewrite length_append in E.
      destruct p; [congruence|]. cbn in E. lia. }
  rewrite Hg. now rewrite !append_assoc.
Qed.

(** The entry of a directory under its name: [join] leads to it. *)
Lemma lookup_join w p n kids k :
  lookup w p = Some (EDir kids) ->
  valid_name n = true ->
  find_child n kids = Some k ->
  lookup w (Path.join p n) = entry_of k.
Proof.
  intros Hp Hn Hk. unfold lookup in *.
  destruct (p =? "") eqn:Ep; [discriminate|]. apply String.eqb_neq in Ep.
  replace (Path.join p n =? "") with false.
  2:{ symmetry. apply String.eqb_neq. rewrite (join_valid _ _ Hn). intros E.
      destruct p; [congruence|discriminate]. }
  rewrite (anchored_join _ _ _ Ep Hn).
  set (q := anchored w p) in *.
  destruct (steps ([], EDir (tree w)) (Str.split Path.sep q)) as [[up e]|] eqn:Hq;
    [|discriminate].
  cbn in Hp. inversion Hp; subst e. clear Hp.
  assert (Hgo : steps ([], EDir (tree w)) (Str.split Path.sep (q ++ glue q ++ n))
                = step (up, EDir kids) n).
  { unfold glue. destruct ((q =? "") || Str.endswith q "/") eqn:Eg.
    - apply orb_true_iff in Eg as [Eg|Eg].
      + apply String.eqb_eq in Eg. rewrite Eg in *. cbn in Hq.
        inversion Hq; subst. cbn [append].
        rewrite (split_slashfree _ _ (valid_name_slashfree _ Hn)).
        cbn [steps]. now destruct (step _ n).
      + destruct (endswith_split _ Eg) as [q' Eq]. rewrite Eq in *.
        change (q' ++ "/") with (q' ++ String Path.sep "") in Hq.
        rewrite (split_snoc _ _ "" eq_refl), steps_app in Hq.
        destruct (steps ([], EDir (tree w)) (Str.split Path.sep q')) as [cur|] eqn:Hq';
          [|discriminate].
        cbn [steps] in Hq.
        destruct (step cur "") as [cur'|] eqn:Hs; [|discriminate].
        inversion Hq; subst cur'. apply step_empty_dir in Hs. subst cur.
        rewrite append_assoc. cbn [append].
        change (q' ++ String "/" n) with (q' ++ String Path.sep n).
        rewrite (split_snoc _ _ _ (valid_name_slashfree _ Hn)), steps_app, Hq'.
        cbn [steps]. now destruct (step _ n).
    - change (q ++ "/" ++ n) with (q ++ String Path.sep n).
      rewrite (split_snoc _ _ _ (valid_name_slashfree _ Hn)), steps_app, Hq.
      cbn [steps]. now destruct (step _ n). }
  rewrite Hgo, (step_name _ _ _ Hn), Hk. now destruct (entry_of k).
Qed.

Lemma find_child_In n kids k :
  find_child n kids = Some k -> In k kids /\ node_name k = n.
Proof.
  induction kids as [|k' kids IH]; cbn; [discriminate|].
  destruct (node_name k' =? n) eqn:E.
  - intros H. inversion H; subst. apply String.eqb_eq in E. auto.
  - intros H. destruct (IH H). auto.
Qed.

Lemma mem_In x l : Str.mem x l = true <-> In x l.
Proof.
  unfold Str.mem. rewrite existsb_exists. split.
  - intros [y [Hy E]]. apply String.eqb_eq in E. now subst.
  - intros H. exists x. split; [exact H|apply String.eqb_refl].
Qed.

(** With distinct names, a name finds the node that carries it. *)
Lemma find_child_distinct kids k :
  distinct (map node_name kids) = true -> In k kids ->
  find_child (node_name k) kids = Some k.
Proof.
  induction kids as [|k' kids IH]; cbn [map distinct find_child]; intros Hd Hin.
  - destruct Hin.
  - apply andb_true_iff in Hd as [Hfresh Hd]. apply negb_true_iff in Hfresh.
    destruct Hin as [E|Hin].
    + subst k'. now rewrite String.eqb_refl.
    + destruct (node_name k' =? node_name k) eqn:E.
      * apply String.eqb_eq in E. exfalso.
        assert (Hm : Str.mem (node_name k') (map node_name kids) = true).
        { apply mem_In. rewrite E. now apply in_map. }
        congruence.
      * now apply IH.
Qed.

Lemma wf_kids_In kids k :
  wf_kids kids = true -> In k kids ->
  valid_name (node_name k) = true /\
  match k with
  | File _ _ => True
  | Dir _ sub => wf_kids sub = true
  | Link _ => False
  end.
Proof.
  unfold wf_kids. intros H Hin. apply andb_true_iff in H as [_ H].
  rewrite forallb_forall in H. specialize (H _ Hin).
  destruct k as [name m|name sub|name]; cbn in H.
  - apply andb_true_iff in H as [H _]. auto.
  - apply andb_true_iff in H as [H1 H2]. auto.
  - apply andb_true_iff in H as [_ H]. discriminate.
Qed.

Lemma wf_kids_distinct kids :
  wf_kids kids = true -> distinct (map node_name kids) = true.
Proof.
  unfold wf_kids. intros H. now apply andb_true_iff in H as [H _].
Qed.

Lemma step_wf cur comp cur' :
  wf_cursor cur -> step cur comp = Some cur' -> wf_cursor cur'.
Proof.
  destruct cur as [up [m|here]]; cbn [step]; [discriminate|].
  intros [Hup Hhere]. cbn [fst snd] in *.
  destruct ((comp =? "") || (comp =? ".")).
  { intros H. inversion H; subst. now split. }
  destruct (comp =? "..").
  { destruct up as [|parent up']; intros H; inversion H; subst.
    - now split.
    - inversion Hup; subst. now split. }
  destruct (find_child comp here) as [k|] eqn:Hk; [|discriminate].
  destruct (find_child_In _ _ _ Hk) as [Hin _].
  destruct (wf_kids_In _ _ Hhere Hin) as [_ Hsub].
  destruct k as [name m|name sub|name]; [| |destruct Hsub];
    intros H; inversion H; subst;
    (split; [now constructor|exact Hsub || exact I]).
Qed.

Lemma steps_wf comps : forall cur cur',
  wf_cursor cur -> steps cur comps = Some cur' -> wf_cursor cur'.
Proof.
  induction comps as [|c comps IH]; intros cur cur' Hwf; cbn.
  - intros H. now inversion H; subst.
  - destruct (step cur c) as [mid|] eqn:Hs; [|discriminate].
    apply IH. eapply step_wf; eassumption.
Qed.

(** In a well-formed world every directory that a path leads to is
    well formed. *)
Lemma lookup_wf w p kids :
  wf_world w = true -> lookup w p = Some (EDir kids) -> wf_kids kids = true.
Proof.
  unfold lookup, wf_world. intros Hw.
  destruct (p =? ""); [discriminate|].
  destruct (steps _ _) as [[up e]|] eqn:Hs; [|discriminate].
  cbn. intros H. inversion H; subst e.
  apply steps_wf in Hs; [|split; [constructor|exact Hw]].
  now destruct Hs.
Qed.

(** The path of a child of a directory leads to that child. *)
Lemma lookup_child w p kids k :
  lookup w p = Some (EDir kids) -> wf_kids kids = true -> In k kids ->
  lookup w (Path.join p (node_name k)) = entry_of k.
Proof.
  intros Hp Hwf Hin.
  destruct (wf_kids_In _ _ Hwf Hin) as [Hn _].
  apply (lookup_join _ _ _ _ _ Hp Hn).
  apply find_child_distinct; [now apply wf_kids_distinct|exact Hin].
Qed.

(* ------------------------------------------------------------------ *)
(** ** What the walks visit in a well-formed tree *)

Lemma file_names_In f kids :
  wf_kids kids = true ->
  In f (file_names kids) <-> exists m, In (File f m) kids.
Proof.
  intros Hwf. unfold file_names. rewrite in_map_iff. split.
  - intros [k [E Hk]]. apply filter_In in Hk as [Hin Hd].
    destruct (wf_kids_In _ _ Hwf Hin) as [_ Hk].
    destruct k as [name m|name sub|name]; [|discriminate|destruct Hk].
    cbn in E. subst. eauto.
  - intros [m Hin]. exists (File f m). split; [reflexivity|].
    apply filter_In. auto.
Qed.

Lemma dir_names_In d kids :
  In d (dir_names kids) <-> exists sub, In (Dir d sub) kids.
Proof.
  unfold dir_names. rewrite in_map_iff. split.
  - intros [k [E Hk]]. apply filter_In in Hk as [Hin Hd].
    destruct k as [name m|name sub|name]; [discriminate| |discriminate].
    cbn in E. subst. eauto.
  - intros [sub Hin]. exists (Dir d sub). split; [reflexivity|].
    apply filter_In. auto.
Qed.

Lemma file_names_valid kids :
  wf_kids kids = true -> Forall (fun n => valid_name n = true) (file_names kids).
Proof.
  intros Hwf. apply Forall_forall. intros f Hf.
  apply (file_names_In _ _ Hwf) in Hf as [m Hin].
  now destruct (wf_kids_In _ _ Hwf Hin).
Qed.

Lemma isfile_child w p kids f :
  lookup w p = Some (EDir kids) -> wf_kids kids = true ->
  In f (file_names kids) -> isfile w (Path.join p f) = true.
Proof.
  intros Hp Hwf Hf. apply (file_names_In _ _ Hwf) in Hf as [m Hin].
  pose proof (lookup_child _ _ _ _ Hp Hwf Hin) as H. cbn in H.
  unfold isfile. now rewrite H.
Qed.

Lemma isdir_child w p kids d :
  lookup w p = Some (EDir kids) -> wf_kids kids = true ->
  In d (dir_names kids) -> isdir w (Path.join p d) = true.
Proof.
  intros Hp Hwf Hd. apply dir_names_In in Hd as [sub Hin].
  pose proof (lookup_child _ _ _ _ Hp Hwf Hin) as H. cbn in H.
  unfold isdir. now rewrite H.
Qed.

(** Every visited directory is a directory of the world, and the files
    yielded for it are its files. *)
Lemma visits_coherent w keep nd : forall top name kids,
  nd = Dir name kids -> wf_kids kids = true -> lookup w top = Some (EDir kids) ->
  forall root files, In (root, files) (visits keep top nd) ->
  exists kids', lookup w root = Some (EDir kids') /\ wf_kids kids' = true
                /\ files = file_names kids'.
Proof.
  induction nd as [name meta|name kids IH|name] using node_ind';
    intros top name' kids' E Hwf Hl root files Hin; [discriminate| |discriminate].
  inversion E; subst name' kids'. clear E.
  rewrite visits_Dir in Hin. destruct Hin as [Hin|Hin].
  - inversion Hin; subst. eauto.
  - apply in_flat_map in Hin as [d [_ Hin]].
    destruct (find_dir d kids) as [k|] eqn:Hk; [|destruct Hin].
    apply find_dir_In in Hk as [Hink [Hdir Hname]].
    destruct k as [kname m|kname sub|kname]; [discriminate| |discriminate].
    cbn in Hname. subst kname.
    rewrite Forall_forall in IH.
    destruct (wf_kids_In _ _ Hwf Hink) as [_ Hsub].
    apply (IH _ Hink (Path.join top d) d sub eq_refl Hsub); [|exact Hin].
    apply (lookup_child _ _ _ _ Hl Hwf Hink).
Qed.

Lemma kept_chain_nil keep a : kept_chain keep a [].
Proof.
  intros pre post E Hne. destruct pre; [congruence|discriminate].
Qed.

Lemma kept_chain_cons keep a d qs :
  keep (Path.join a d) = true -> kept_chain keep (Path.join a d) qs ->
  kept_chain keep a (d :: qs).
Proof.
  intros Hd Hqs pre post E Hne.
  destruct pre as [|x pre]; [congruence|]. cbn in E. inversion E; subst x.
  rewrite join_all_cons. destruct pre as [|y pre]; [exact Hd|].
  apply (Hqs (y :: pre) post); [assumption|discriminate].
Qed.

(** Every visited directory is reached from [top] by valid names through
    directories that pass [keep]. *)
Lemma visits_chain keep nd : forall top name kids,
  nd = Dir name kids -> wf_kids kids = true ->
  forall root files, In (root, files) (visits keep top nd) ->
  exists qs, root = Path.join_all top qs
             /\ Forall (fun n => valid_name n = true) qs
             /\ kept_chain keep top qs
             /\ Forall (fun n => valid_name n = true) files.
Proof.
  induction nd as [name meta|name kids IH|name] using node_ind';
    intros top name' kids' E Hwf root files Hin; [discriminate| |discriminate].
  inversion E; subst name' kids'. clear E.
  rewrite visits_Dir in Hin. destruct Hin as [Hin|Hin].
  - inversion Hin; subst. exists []. repeat split.
    + constructor.
    + apply kept_chain_nil.
    + now apply file_names_valid.
  - apply in_flat_map in Hin as [d [Hd Hin]].
    apply filter_In in Hd as [_ Hkeep].
    destruct (find_dir d kids) as [k|] eqn:Hk; [|destruct Hin].
    apply find_dir_In in Hk as [Hink [Hdir Hname]].
    destruct k as [kname m|kname sub|kname]; [discriminate| |discriminate].
    cbn in Hname. subst kname.
    rewrite Forall_forall in IH.
    destruct (wf_kids_In _ _ Hwf Hink) as [Hvalid Hsub]. cbn in Hvalid.
    destruct (IH _ Hink (Path.join top d) d sub eq_refl Hsub _ _ Hin)
      as [qs [Hroot [Hqs [Hchain Hfiles]]]].
    exists (d :: qs). repeat split.
    + now rewrite join_all_cons.
    + now constructor.
    + now apply kept_chain_cons.
    + exact Hfiles.
Qed.

(** A path below a directory that the walk does not keep is not a path of
    the walk. *)
Lemma chain_avoids keep a qs n D :
  Forall (fun n => valid_name n = true) (qs ++ [n]) ->
  kept_chain keep a qs ->
  beneath a D -> keep D = false ->
  ~ beneath D (Path.join_all a (qs ++ [n])).
Proof.
  intros Hvalid Hchain [ds [Hds [Hdsv HD]]] Hkeep [names [Hnames [Hnv E]]].
  subst D. rewrite <- join_all_app in E.
  apply join_all_inj in E; [|exact Hvalid|now apply Forall_app].
  destruct (exists_last Hnames) as [names' [last Elast]]. subst names.
  rewrite app_assoc in E. apply app_inj_tail in E as [E _].
  rewrite (Hchain ds names' E Hds) in Hkeep. discriminate.
Qed.

(* ------------------------------------------------------------------ *)
(** ** The structural listing *)

Lemma insert_sorted_perm x l : Permutation (insert_sorted x l) (x :: l).
Proof.
  induction l as [|y l IH]; cbn; [apply Permutation_refl|].
  destruct (Str.leb x y); [apply Permutation_refl|].
  eapply Permutation_trans; [apply perm_skip, IH|apply perm_swap].
Qed.

Lemma sorted_perm l : Permutation (sorted l) l.
Proof.
  induction l as [|x l IH]; cbn; [constructor|].
  eapply Permutation_trans; [apply insert_sorted_perm|now apply perm_skip].
Qed.

Lemma sorted_In x l : In x (sorted l) <-> In x l.
Proof.
  split; apply Permutation_in; [apply sorted_perm|apply Permutation_sym, sorted_perm].
Qed.

Lemma filter_perm {A : Type} (f : A -> bool) (l l' : list A) :
  Permutation l l' -> Permutation (filter f l) (filter f l').
Proof.
  induction 1 as [|x l l' _ IH|x y l|l l' l'' _ IH1 _ IH2]; cbn.
  - constructor.
  - destruct (f x); [now apply perm_skip|exact IH].
  - destruct (f x), (f y); try apply Permutation_refl. apply perm_swap.
  - eapply Permutation_trans; eassumption.
Qed.

Lemma flat_map_perm {A B : Type} (f g : A -> list B) (l l' : list A) :
  Permutation l l' ->
  (forall x, In x l -> Permutation (f x) (g x)) ->
  Permutation (flat_map f l) (flat_map g l').
Proof.
  intros Hl Hfg.
  apply Permutation_trans with (flat_map g l).
  - clear Hl. induction l as [|x l IH]; cbn; [constructor|].
    apply Permutation_app; [apply Hfg; now left|].
    apply IH. intros; apply Hfg; now right.
  - now apply Permutation_flat_map.
Qed.

Lemma flat_map_filter {A B : Type} (p : A -> bool) (g : A -> list B) (l : list A) :
  flat_map g (filter p l) = flat_map (fun x => if p x then g x else []) l.
Proof.
  induction l as [|x l IH]; cbn; [reflexivity|].
  destruct (p x); cbn; now rewrite IH.
Qed.

Section Listing.

Variables (w : world) (patterns : list string) (root_dir output_file : string)
          (extensions : list string).

Let ignored (p : string) : bool :=
  is_ignored w p patterns root_dir output_file extensions.
Let keep (p : string) : bool := negb (ignored p).

Lemma structure_node_Dir directory name kids indent :
  structure_node w patterns root_dir output_file extensions directory
                 (Dir name kids) indent
  = (flat_map
       (fun d =>
          if keep (Path.join directory d) then
            DirItem indent (Path.join directory d) d
                    (count_files w (Path.join directory d) patterns root_dir
                                 output_file extensions)
            :: match find_child d kids with
               | Some k =>
                   structure_node w patterns root_dir output_file extensions
                                  (Path.join directory d) k (indent ++ "│  ")
               | None => [ErrorItem (indent ++ "│  ") (enoent (Path.join directory d))]
               end
          else [])
       (filter (fun item => isdir w (Path.join directory item))
               (sorted (map node_name kids)))
     ++ fst (files_loop w patterns root_dir output_file extensions directory indent
               (filter (fun item => isfile w (Path.join directory item))
                       (sorted (map node_name kids))))
     ++ match snd (files_loop w patterns root_dir output_file extensions directory
                              indent
                              (filter (fun item => isfile w (Path.join directory item))
                                      (sorted (map node_name kids)))) with
        | Some message => [ErrorItem indent message]
        | None =>
            if directory =? root_dir then
              [StatsItem
                 (count_files w directory patterns root_dir output_file extensions)
                 (count_excluded_files w directory patterns root_dir output_file
                                       extensions)]
            else []
        end)%list.
Proof.
  cbn [structure_node]. f_equal. apply flat_map_ext. intros d.
  unfold keep, ignored. destruct (negb _); [|reflexivity]. f_equal.
  induction kids as [|k l IH]; cbn [find_child]; [reflexivity|].
  destruct (node_name k =? d); [reflexivity|exact IH].
Qed.

(** The files listed by the [for f in files] loop. *)
Lemma files_loop_In directory indent files it :
  In it (fst (files_loop w patterns root_dir output_file extensions directory indent
                         files)) ->
  exists f size,
    it = FileItem indent (Path.join directory f) f size
    /\ In f files /\ ignored (Path.join directory f) = false
    /\ getsize w (Path.join directory f) = Some size.
Proof.
  induction files as [|f files IH]; cbn [files_loop]; [intros []|].
  destruct (is_ignored w (Path.join directory f) _ _ _ _) eqn:Hi; cbn [negb].
  - intros H. destruct (IH H) as [f' [size [E [Hin H']]]].
    exists f', size. repeat split; [exact E|now right|apply H'|apply H'].
  - destruct (getsize w (Path.join directory f)) as [size|] eqn:Hs; [|intros []].
    cbn [fst]. intros [E|H].
    + exists f, size. repeat split; [now symmetry|now left|exact Hi|exact Hs].
    + destruct (IH H) as [f' [size' [E [Hin H']]]].
      exists f', size'. repeat split; [exact E|now right|apply H'|apply H'].
Qed.

(** When the loop meets regular files only it lists those that pass. *)
Lemma files_loop_listed directory indent files :
  (forall f, In f files -> isfile w (Path.join directory f) = true) ->
  listed_files (fst (files_loop w patterns root_dir output_file extensions directory
                                indent files))
  = filter keep (map (Path.join directory) files)
  /\ snd (files_loop w patterns root_dir output_file extensions directory indent files)
     = None.
Proof.
  induction files as [|f files IH]; intros H; [now split|].
  cbn [files_loop map filter]. unfold keep at 1, ignored.
  destruct (IH (fun f' Hf' => H f' (or_intror Hf'))) as [IH1 IH2].
  destruct (is_ignored w (Path.join directory f) _ _ _ _); cbn [negb].
  - now split.
  - assert (Hf : isfile w (Path.join directory f) = true) by (apply H; now left).
    unfold isfile in Hf. unfold getsize.
    destruct (lookup w (Path.join directory f)) as [[m|sub]|]; try discriminate.
    cbn [fst snd]. split; [|exact IH2].
    unfold listed_files. cbn [flat_map app]. f_equal. exact IH1.
Qed.

Lemma names_valid kids n :
  wf_kids kids = true -> In n (sorted (map node_name kids)) -> valid_name n = true.
Proof.
  intros Hwf Hn. apply sorted_In, in_map_iff in Hn as [k [E Hin]]. subst n.
  now destruct (wf_kids_In _ _ Hwf Hin).
Qed.

(** Every directory and file of the listing passes the policy and is
    reached from the listed directory through directories that pass. *)
Lemma structure_node_chain nd : forall directory name kids indent,
  nd = Dir name kids -> wf_kids kids = true ->
  forall it p,
    In it (structure_node w patterns root_dir output_file extensions directory nd
                          indent) ->
    item_path it = Some p ->
    ignored p = false /\
    exists qs n,
      p = Path.join_all directory (qs ++ [n])
      /\ Forall (fun n => valid_name n = true) (qs ++ [n])
      /\ kept_chain keep directory qs.
Proof.
  induction nd as [name meta|name kids IH|name] using node_ind';
    intros directory name' kids' indent E Hwf it p Hin Hp; [discriminate| |discriminate].
  inversion E; subst name' kids'. clear E.
  rewrite structure_node_Dir in Hin.
  apply in_app_or in Hin as [Hin|Hin]; [|apply in_app_or in Hin as [Hin|Hin]].
  - apply in_flat_map in Hin as [d [Hd Hin]].
    apply filter_In in Hd as [Hd _]. pose proof (names_valid _ _ Hwf Hd) as Hvalid.
    destruct (keep (Path.join directory d)) eqn:Hkeep; [|destruct Hin].
    destruct Hin as [Hit|Hin].
    + subst it. cbn in Hp. inversion Hp; subst p. split.
      * unfold keep in Hkeep. now apply negb_true_iff in Hkeep.
      * exists [], d. repeat split; [now repeat constructor|apply kept_chain_nil].
    + destruct (find_child d kids) as [k|] eqn:Hk.
      * apply find_child_In in Hk as [Hink Hname].
        destruct k as [kname m|kname sub|kname];
          [| |cbn in Hin; destruct Hin as [Hit|[]]; subst it; discriminate].
        { cbn in Hin. destruct Hin as [Hit|[]]. subst it. discriminate. }
        cbn in Hname. subst kname.
        destruct (wf_kids_In _ _ Hwf Hink) as [_ Hsub].
        rewrite Forall_forall in IH.
        destruct (IH _ Hink (Path.join directory d) d sub _ eq_refl Hsub it p Hin Hp)
          as [Hi [qs [n [Hpath [Hall Hchain]]]]].
        split; [exact Hi|]. exists (d :: qs), n. repeat split.
        -- exact Hpath.
        -- cbn [app]. now constructor.
        -- now apply kept_chain_cons.
      * destruct Hin as [Hit|[]]. subst it. discriminate.
  - apply files_loop_In in Hin as [f [size [Hit [Hf [Hi _]]]]].
    subst it. cbn in Hp. inversion Hp; subst p. split; [exact Hi|].
    apply filter_In in Hf as [Hf _].
    exists [], f. repeat split;
      [repeat constructor; now apply (names_valid kids)|apply kept_chain_nil].
  - destruct (snd (files_loop _ _ _ _ _ _ _ _)).
    + destruct Hin as [Hit|[]]. subst it. discriminate.
    + destruct (directory =? root_dir); [|destruct Hin].
      destruct Hin as [Hit|[]]. subst it. discriminate.
Qed.

End Listing.

Lemma find_dir_distinct kids d sub :
  distinct (map node_name kids) = true -> In (Dir d sub) kids ->
  find_dir d kids = Some (Dir d sub).
Proof.
  unfold find_dir.
  induction kids as [|k kids IH]; cbn [map distinct find]; intros Hd Hin.
  - destruct Hin.
  - apply andb_true_iff in Hd as [Hfresh Hd]. apply negb_true_iff in Hfresh.
    destruct Hin as [E|Hin].
    + subst k. cbn. now rewrite String.eqb_refl.
    + destruct (is_dir_node k && (node_name k =? d)) eqn:E.
      * apply andb_true_iff in E as [_ E]. apply String.eqb_eq in E. exfalso.
        assert (Hm : Str.mem (node_name k) (map node_name kids) = true).
        { apply mem_In. rewrite E. now apply (in_map node_name _ (Dir d sub)). }
        congruence.
      * now apply IH.
Qed.

Lemma filter_map_pred {A B : Type} (p : B -> bool) (q : A -> bool) (g : A -> B)
    (l : list A) :
  (forall x, In x l -> p (g x) = q x) -> filter p (map g l) = map g (filter q l).
Proof.
  induction l as [|x l IH]; intros H; cbn; [reflexivity|].
  rewrite (H x) by (now left).
  rewrite IH by (intros; apply H; now right).
  now destruct (q x).
Qed.

Lemma flat_map_flat_map {A B C : Type} (f : B -> list C) (g : A -> list B)
    (l : list A) :
  flat_map f (flat_map g l) = flat_map (fun x => flat_map f (g x)) l.
Proof.
  induction l as [|x l IH]; cbn; [reflexivity|].
  now rewrite flat_map_app, IH.
Qed.

Lemma listed_files_app a b : listed_files (a ++ b) = (listed_files a ++ listed_files b)%list.
Proof. apply flat_map_app. Qed.

Section ListingAgrees.

Variables (w : world) (patterns : list string) (root_dir output_file : string)
          (extensions : list string).

Let ignored (p : string) : bool :=
  is_ignored w p patterns root_dir output_file extensions.
Let keep (p : string) : bool := negb (ignored p).

Lemma isdir_names directory kids :
  lookup w directory = Some (EDir kids) -> wf_kids kids = true ->
  filter (fun item => isdir w (Path.join directory item)) (map node_name kids)
  = dir_names kids.
Proof.
  intros Hl Hwf. apply filter_map_pred. intros k Hin.
  unfold isdir. rewrite (lookup_child _ _ _ _ Hl Hwf Hin). now destruct k.
Qed.

Lemma isfile_names directory kids :
  lookup w directory = Some (EDir kids) -> wf_kids kids = true ->
  filter (fun item => isfile w (Path.join directory item)) (map node_name kids)
  = file_names kids.
Proof.
  intros Hl Hwf. apply filter_map_pred. intros k Hin.
  unfold isfile. rewrite (lookup_child _ _ _ _ Hl Hwf Hin).
  destruct (wf_kids_In _ _ Hwf Hin) as [_ Hk]. now destruct k.
Qed.

(** The files of the listing are the files that the pruned walk lets
    pass, in another order. *)
Lemma structure_node_files nd : forall directory name kids indent,
  nd = Dir name kids -> wf_kids kids = true ->
  lookup w directory = Some (EDir kids) ->
  Permutation
    (listed_files (structure_node w patterns root_dir output_file extensions
                                  directory nd indent))
    (passing ignored (visits keep directory nd)).
Proof.
  induction nd as [name meta|name kids IH|name] using node_ind';
    intros directory name' kids' indent E Hwf Hl; [discriminate| |discriminate].
  inversion E; subst name' kids'. clear E.
  rewrite structure_node_Dir, visits_Dir, !listed_files_app.
  set (files := filter (fun item => isfile w (Path.join directory item))
                       (sorted (map node_name kids))).
  destruct (files_loop_listed w patterns root_dir output_file extensions directory
                              indent files) as [Hfiles Hnone].
  { intros f Hf. apply filter_In in Hf. apply Hf. }
  rewrite Hfiles, Hnone.
  replace (listed_files (if directory =? root_dir then _ else [])) with (@nil string)
    by (now destruct (directory =? root_dir)).
  rewrite app_nil_r.
  unfold passing. cbn [flat_map fst snd].
  eapply Permutation_trans; [apply Permutation_app_comm|].
  apply Permutation_app.
  - apply filter_perm, Permutation_map. unfold files.
    rewrite <- (isfile_names _ _ Hl Hwf). apply filter_perm, sorted_perm.
  - unfold listed_files at 1. rewrite !flat_map_flat_map.
    rewrite (flat_map_filter (fun d => keep (Path.join directory d))).
    apply flat_map_perm.
    + rewrite <- (isdir_names _ _ Hl Hwf). apply filter_perm, sorted_perm.
    + intros d Hd.
      assert (Hd' : In d (dir_names kids)).
      { rewrite <- (isdir_names _ _ Hl Hwf).
        apply filter_In in Hd as [Hd1 Hd2]. apply filter_In. split; [|exact Hd2].
        exact (proj1 (sorted_In _ _) Hd1). }
      apply dir_names_In in Hd' as [sub Hin].
      unfold keep at 1, ignored at 1.
      destruct (negb (is_ignored w (Path.join directory d) _ _ _ _)); [|constructor].
      pose proof (find_child_distinct _ _ (wf_kids_distinct _ Hwf) Hin) as Hc.
      cbn [node_name] in Hc. rewrite Hc.
      rewrite (find_dir_distinct _ _ _ (wf_kids_distinct _ Hwf) Hin).
      cbn [flat_map app].
      rewrite Forall_forall in IH.
      destruct (wf_kids_In _ _ Hwf Hin) as [_ Hsub].
      apply (IH _ Hin (Path.join directory d) d sub _ eq_refl Hsub).
      apply (lookup_child _ _ _ _ Hl Hwf Hin).
Qed.

End ListingAgrees.

(* ------------------------------------------------------------------ *)
(** ** The walks and the policy *)

Lemma map_file_path_emit strftime w directory l :
  map file_path (map (emit strftime w directory) l) = l.
Proof.
  induction l as [|p l IH]; cbn; [reflexivity|now rewrite IH].
Qed.

Lemma counted_files_pass w directory patterns root_dir output_file extensions p :
  In p (counted_files w directory patterns root_dir output_file extensions) ->
  is_ignored w p patterns root_dir output_file extensions = false.
Proof.
  rewrite counted_files_visits.
  destruct (lookup w directory) as [[m|kids]|]; try (intros []).
  intros H. now apply passing_In in H as [H _].
Qed.

Lemma not_ignored_not_output w p patterns root output_file extensions :
  is_ignored w p patterns root output_file extensions = false ->
  Path.abspath (cwd w) p <> Path.abspath (cwd w) output_file.
Proof.
  unfold is_ignored. intros H E. apply String.eqb_eq in E.
  rewrite E in H. discriminate.
Qed.

Lemma hidden_directory_ignored w D patterns root output_file extensions :
  isdir w D = true -> Str.startswith (Path.basename D) "." = true ->
  is_ignored w D patterns root output_file extensions = true.
Proof.
  intros Hd Hb. unfold is_ignored. rewrite Hd, Hb.
  now destruct (_ =? _).
Qed.

(** In a well-formed world the content loop ends normally and emits the
    record of every file counted as included. *)
Lemma content_entries_total strftime w directory patterns output_file extensions :
  wf_world w = true ->
  content_entries strftime w directory patterns output_file extensions
  = Ok (map (emit strftime w directory)
            (counted_files w directory patterns directory output_file extensions)).
Proof.
  intros Hw.
  destruct (content_entries strftime w directory patterns output_file extensions)
    as [entries|e] eqn:Hc.
  - now rewrite (content_entries_Ok _ _ _ _ _ _ _ Hc).
  - exfalso. rewrite content_entries_walk in Hc.
    destruct (lookup w directory) as [[m|kids]|] eqn:Hl; try discriminate.
    pose proof (lookup_wf _ _ _ Hw Hl) as Hwf.
    destruct (content_visits_total strftime w directory patterns output_file
                extensions
                (visits (fun p => negb (is_ignored w p patterns directory output_file
                                                   extensions))
                        directory (Dir "" kids)) []) as [entries Hok].
    { intros root files f Hv Hf _.
      destruct (visits_coherent _ _ _ _ _ _ eq_refl Hwf Hl _ _ Hv)
        as [kids' [Hl' [Hwf' Hfiles]]].
      subst files. now apply (isfile_child _ _ kids'). }
    rewrite Hok in Hc. discriminate.
Qed.

(** The files of the listing of a directory are, in another order, the
    files counted as included below it. *)
Lemma structure_items_files w patterns root_dir output_file extensions directory
    indent :
  wf_world w = true ->
  Permutation
    (listed_files (structure_items w patterns root_dir output_file extensions
                                   directory indent))
    (counted_files w directory patterns root_dir output_file extensions).
Proof.
  intros Hw. unfold structure_items. rewrite counted_files_visits.
  destruct (lookup w directory) as [[m|kids]|] eqn:Hl; try (cbn; constructor).
  apply (structure_node_files _ _ _ _ _ _ _ _ _ _ eq_refl (lookup_wf _ _ _ Hw Hl) Hl).
Qed.

(** Every directory and file of the listing passes the policy. *)
Lemma structure_node_passes w patterns root_dir output_file extensions nd :
  forall directory indent it p,
    In it (structure_node w patterns root_dir output_file extensions directory nd
                          indent) ->
    item_path it = Some p ->
    is_ignored w p patterns root_dir output_file extensions = false.
Proof.
  induction nd as [name meta|name kids IH|name] using node_ind';
    intros directory indent it p Hin Hp;
    [| |cbn in Hin; destruct Hin as [E|[]]; subst it; discriminate].
  - cbn in Hin. destruct Hin as [E|[]]. subst it. discriminate.
  - rewrite structure_node_Dir in Hin.
    apply in_app_or in Hin as [Hin|Hin]; [|apply in_app_or in Hin as [Hin|Hin]].
    + apply in_flat_map in Hin as [d [_ Hin]].
      destruct (negb (is_ignored w (Path.join directory d) _ _ _ _)) eqn:Hkeep;
        [|destruct Hin].
      destruct Hin as [Hit|Hin].
      * subst it. cbn in Hp. inversion Hp; subst p. now apply negb_true_iff in Hkeep.
      * destruct (find_child d kids) as [k|] eqn:Hk.
        -- apply find_child_In in Hk as [Hink _].
           rewrite Forall_forall in IH. apply (IH _ Hink _ _ _ _ Hin Hp).
        -- destruct Hin as [Hit|[]]. subst it. discriminate.
    + apply files_loop_In in Hin as [f [size [Hit [_ [Hi _]]]]].
      subst it. cbn in Hp. inversion Hp; subst p. exact Hi.
    + destruct (snd (files_loop _ _ _ _ _ _ _ _)).
      * destruct Hin as [Hit|[]]. subst it. discriminate.
      * destruct (directory =? root_dir); [|destruct Hin].
        destruct Hin as [Hit|[]]. subst it. discriminate.
Qed.

Lemma structure_items_pass w patterns root_dir output_file extensions directory
    indent it p :
  In it (structure_items w patterns root_dir output_file extensions directory indent) ->
  item_path it = Some p ->
  is_ignored w p patterns root_dir output_file extensions = false.
Proof.
  unfold structure_items.
  destruct (lookup w directory) as [[m|kids]|].
  - intros [E|[]] Hp. subst it. discriminate.
  - apply structure_node_passes.
  - intros [E|[]] Hp. subst it. discriminate.
Qed.

(* ------------------------------------------------------------------ *)
(** ** Properties of the walks *)


(** C3.  The output artifact is excluded by the policy whatever the
    patterns and the root are, wherever it lies; no file emitted by the
    content loop and no directory or file of the structural listing is the
    artifact. *)
Theorem output_file_excluded strftime w directory patterns output_file extensions :
  (forall path root,
      Path.abspath (cwd w) path = Path.abspath (cwd w) output_file ->
      is_ignored w path patterns root output_file extensions = true)
  /\ (forall entries e,
        content_entries strftime w directory patterns output_file extensions
        = Ok entries ->
        In e entries ->
        Path.abspath (cwd w) (file_path e) <> Path.abspath (cwd w) output_file)
  /\ (forall it p,
        In it (structure_items w patterns directory output_file extensions
                               directory "") ->
        item_path it = Some p ->
        Path.abspath (cwd w) p <> Path.abspath (cwd w) output_file).
Proof.
  repeat split.
  - intros path root E. unfold is_ignored. rewrite E. now rewrite String.eqb_refl.
  - intros entries e Hc He. apply content_entries_Ok in Hc.
    apply (not_ignored_not_output w _ patterns directory output_file extensions).
    apply (counted_files_pass w directory).
    rewrite <- (map_file_path_emit strftime w directory), <- Hc. now apply in_map.
  - intros it p Hin Hp.
    apply (not_ignored_not_output w _ patterns directory output_file extensions).
    eapply structure_items_pass; eassumption.
Qed.

(** C4.  A directory [D] of the scanned tree whose basename starts with a
    dot is excluded by the policy, whatever the patterns are; [os.walk]
    never yields it, and neither [D] nor anything below it is emitted by the
    content loop or appears in the structural listing. *)
Theorem hidden_directory_pruned strftime w directory patterns output_file
    extensions D :
  wf_world w = true ->
  beneath directory D ->
  isdir w D = true ->
  Str.startswith (Path.basename D) "." = true ->
  is_ignored w D patterns directory output_file extensions = true
  /\ (forall kids,
        lookup w directory = Some (EDir kids) ->
        ~ In D (map fst
                    (visits (fun p => negb (is_ignored w p patterns directory
                                                       output_file extensions))
                            directory (Dir "" kids))))
  /\ (forall entries e,
        content_entries strftime w directory patterns output_file extensions
        = Ok entries ->
        In e entries -> ~ beneath D (file_path e))
  /\ (forall it p,
        In it (structure_items w patterns directory output_file extensions
                               directory "") ->
        item_path it = Some p -> p <> D /\ ~ beneath D p).
Proof.
  intros Hw HD Hdir Hdot.
  pose proof (hidden_directory_ignored w D patterns directory output_file extensions
                                       Hdir Hdot) as Hign.
  set (keep := fun p => negb (is_ignored w p patterns directory output_file
                                         extensions)).
  assert (Hkeep : keep D = false) by (unfold keep; now rewrite Hign).
  split; [exact Hign|]. split; [|split].
  - intros kids Hl Hin. apply in_map_iff in Hin as [[root files] [E Hv]].
    cbn in E. subst root.
    destruct (visits_chain keep _ _ _ _ eq_refl (lookup_wf _ _ _ Hw Hl) _ _ Hv)
      as [qs [Hroot [Hqs [Hchain _]]]].
    destruct HD as [ds [Hds [Hdsv HD]]].
    rewrite HD in Hroot. apply join_all_inj in Hroot; [|assumption|assumption].
    subst qs.
    pose proof (Hchain ds [] (eq_sym (app_nil_r ds)) Hds) as Hk.
    rewrite <- HD in Hk. congruence.
  - intros entries e Hc He. apply content_entries_Ok in Hc.
    assert (Hp : In (file_path e)
                    (counted_files w directory patterns directory output_file
                                   extensions)).
    { rewrite <- (map_file_path_emit strftime w directory), <- Hc. now apply in_map. }
    rewrite counted_files_visits in Hp.
    destruct (lookup w directory) as [[m|kids]|] eqn:Hl; try destruct Hp.
    apply passing_In in Hp as [_ [root [files [f [Hv [Hf Hp]]]]]].
    destruct (visits_chain keep _ _ _ _ eq_refl (lookup_wf _ _ _ Hw Hl) _ _ Hv)
      as [qs [Hroot [Hqs [Hchain Hfiles]]]].
    rewrite Forall_forall in Hfiles.
    rewrite Hp, Hroot.
    change (Path.join (Path.join_all directory qs) f)
      with (Path.join_all (Path.join_all directory qs) [f]).
    rewrite <- join_all_app.
    apply (chain_avoids keep); try assumption.
    apply Forall_app. split; [exact Hqs|]. constructor; [now apply Hfiles|constructor].
  - intros it p Hin Hp. split.
    + intros E. subst p.
      rewrite (structure_items_pass _ _ _ _ _ _ _ _ _ Hin Hp) in Hign. discriminate.
    + unfold structure_items in Hin.
      destruct (lookup w directory) as [[m|kids]|] eqn:Hl.
      * destruct Hin as [E|[]]. subst it. discriminate.
      * destruct (structure_node_chain w patterns directory output_file extensions
                    _ _ _ _ _ eq_refl (lookup_wf _ _ _ Hw Hl) _ _ Hin Hp)
          as [_ [qs [n [Hpath [Hall Hchain]]]]].
        rewrite Hpath. now apply (chain_avoids keep).
      * destruct Hin as [E|[]]. subst it. discriminate.
Qed.

(** C8 fails on the code.  The [try] of the content loop covers opening and
    reading a file only: [os.path.getsize] and [os.path.getmtime] are
    called before it.  In the directory [/proj] of [linked] the broken link
    [latest] is a file for [os.walk] and passes [is_ignored]; the files
    before it, one that does not decode and one that cannot be read, are
    written with the placeholder and with the error marker, and then the
    size of the link is asked for: [FileNotFoundError] leaves
    [process_directory], and [z.py] is never written.  Without the link the
    run returns. *)
Theorem stat_failure_aborts_run (now : Z) (strftime : Z -> string) :
  file_names (children_of linked "/proj")
  = ["a.py"; "logo.png"; "locked.txt"; "latest"; "z.py"]
  /\ is_ignored linked "/proj/latest" [".git/"] "/proj" "/proj.txt" [] = false
  /\ getsize linked "/proj/latest" = None
  /\ read_gitignore linked "/proj" = Ok []
  /\ process_directory now strftime linked "/proj" "/proj.txt" []
     = Raise (enoent "/proj/latest")
  /\ exists (w' : world) (entries : list emitted) (text : string),
       open_w now unlinked "/proj.txt" = Ok w'
       /\ content_entries strftime w' "/proj" [".git/"] "/proj.txt" [] = Ok entries
       /\ map (fun e => (relative_path e, body e)) entries
          = [ ("a.py", "print(1)" ++ nl ++ nl);
              ("logo.png", "[Binary file - contents not displayed]" ++ nl ++ nl);
              ("locked.txt",
               "[Error reading file: [Errno 13] Permission denied: '/proj/locked.txt']"
                 ++ nl ++ nl) ]
       /\ process_directory now strftime unlinked "/proj" "/proj.txt" [] = Ok text.
Proof.
  split; [reflexivity|]. split; [vm_compute; reflexivity|].
  split; [reflexivity|]. split; [reflexivity|]. split.
  - unfold process_directory.
    change (read_gitignore linked "/proj") with (@Ok (list string) []).
    cbn [bind app].
    change (open_w now linked "/proj.txt")
      with (Ok (mk_world (tree linked
                          ++ [File "proj.txt" (mk_meta 0 now (Text ""))])%list "/")).
    cbn [bind].
    set (w' := mk_world _ _).
    assert (Hc : content_entries strftime w' "/proj" [".git/"] "/proj.txt" []
                 = Raise (enoent "/proj/latest")) by (vm_compute; reflexivity).
    rewrite Hc. reflexivity.
  - set (w' := mk_world (tree unlinked
                         ++ [File "proj.txt" (mk_meta 0 now (Text ""))])%list "/").
    assert (Ho : open_w now unlinked "/proj.txt" = Ok w') by reflexivity.
    assert (Hc : content_entries strftime w' "/proj" [".git/"] "/proj.txt" []
                 = Ok (map (emit strftime w' "/proj")
                           ["/proj/a.py"; "/proj/logo.png"; "/proj/locked.txt"])).
    { rewrite content_entries_total by reflexivity. reflexivity. }
    exists w'. eexists. eexists.
    split; [exact Ho|]. split; [exact Hc|]. split; [reflexivity|].
    unfold process_directory.
    change (read_gitignore unlinked "/proj") with (@Ok (list string) []).
    cbn [bind app]. rewrite Ho. cbn [bind]. rewrite Hc. cbn [bind]. reflexivity.
Qed.

(* ------------------------------------------------------------------ *)
(** ** The round-trip scenario and the statistics *)

Lemma scenario_run (included : nat) (files : list (string * string)) :
  (forall (now : Z) (strftime : Z -> string),
      let w' := mk_world (tree scenario
                          ++ [File "proj.txt" (mk_meta 0 now (Text ""))])%list "/" in
      map (fun e => (relative_path e, body e))
          (map (emit strftime w' "/proj") ["/proj/.gitignore"; "/proj/a.py"]) = files
      /\ In ("   Total files included: " ++ Str.of_nat included)
            (get_directory_structure w' "/proj" ["build/"; ".git/"] "/proj"
                                     "/proj.txt" [] "")) ->
  scenario_claim included files.
Proof.
  intros H now strftime. destruct (H now strftime) as [Hfiles Hstat].
  set (w' := mk_world (tree scenario
                       ++ [File "proj.txt" (mk_meta 0 now (Text ""))])%list "/") in *.
  assert (Hg : read_gitignore scenario "/proj" = Ok ["build/"]) by reflexivity.
  assert (Ho : open_w now scenario "/proj.txt" = Ok w') by reflexivity.
  assert (Hc : content_entries strftime w' "/proj" ["build/"; ".git/"] "/proj.txt" []
               = Ok (map (emit strftime w' "/proj") ["/proj/.gitignore"; "/proj/a.py"])).
  { rewrite content_entries_total by reflexivity. reflexivity. }
  exists w'. eexists. eexists.
  split; [exact Hg|]. split; [exact Ho|]. split; [exact Hc|].
  split; [exact Hfiles|]. split; [exact Hstat|].
  unfold process_directory. rewrite Hg. cbn [bind app]. rewrite Ho. cbn [bind].
  rewrite Hc. cbn [bind]. reflexivity.
Qed.

(** C5, as stated, fails: in the round-trip scenario the content section
    does not consist of [a.py] alone with "Total files included: 1". *)
Lemma scenario_counterexample :
  ~ scenario_claim 1 [("a.py", "print(1)" ++ nl ++ nl)].
Proof.
  intros H.
  destruct (H 0%Z (fun _ => "")) as [w' [entries [text [_ [Ho [Hc [Hfiles _]]]]]]].
  vm_compute in Ho. inversion Ho; subst w'. clear Ho.
  vm_compute in Hc. inversion Hc; subst entries. clear Hc.
  vm_compute in Hfiles. discriminate.
Qed.

(** C5, amended.  In the round-trip scenario the ignore-file, whose name
    starts with a dot but which is a file, is emitted too: the content
    section holds [.gitignore] and [a.py] with their bodies, and the
    statistics line reads "Total files included: 2". *)
Theorem scenario_emits_two_files :
  scenario_claim 2 [ (".gitignore", "build/" ++ nl ++ nl ++ nl);
                     ("a.py", "print(1)" ++ nl ++ nl) ].
Proof.
  apply scenario_run. intros now strftime w'. split.
  - reflexivity.
  - vm_compute. do 4 right. left. reflexivity.
Qed.

(** C6 fails on the code.  In the round-trip scenario the scanned directory
    holds five files, two of which are emitted; the three others lie below
    excluded directories, are not emitted, and are not counted as excluded:
    the statistics read 2 included, 0 excluded, 2 in total. *)
Theorem excluded_count_misses_pruned_files :
  open_w 0%Z scenario "/proj.txt" = Ok scenario_open
  /\ all_files scenario_open "/proj"
     = [ "/proj/.gitignore"; "/proj/a.py"; "/proj/.hidden/secret.txt";
         "/proj/node_modules_cache/x.js"; "/proj/build/out.txt" ]
  /\ counted_files scenario_open "/proj" ["build/"; ".git/"] "/proj" "/proj.txt" []
     = [ "/proj/.gitignore"; "/proj/a.py" ]
  /\ count_files scenario_open "/proj" ["build/"; ".git/"] "/proj" "/proj.txt" [] = 2
  /\ count_excluded_files scenario_open "/proj" ["build/"; ".git/"] "/proj"
                          "/proj.txt" [] = 0
  /\ In (StatsItem 2 0)
        (structure_items scenario_open ["build/"; ".git/"] "/proj" "/proj.txt" []
                         "/proj" "").
Proof.
  repeat split; try reflexivity.
  vm_compute. do 2 right. left. reflexivity.
Qed.

(* ------------------------------------------------------------------ *)
(** ** Dot files and files without extension *)



Lemma lower_empty s : Str.lower s = "" -> s = "".
Proof.
  destruct s; [reflexivity|discriminate].
Qed.

Lemma mem_empty_lower items :
  Forall (fun item => item <> "") items -> Str.mem "" (map Str.lower items) = false.
Proof.
  induction 1 as [|item items Hitem _ IH]; [reflexivity|].
  cbn [map Str.mem existsb]. fold (Str.mem "" (map Str.lower items)). rewrite IH.
  destruct (Str.lower item) eqn:E; [|reflexivity].
  now apply lower_empty in E.
Qed.

(** A file without extension is excluded by a non-empty allow-list that
    does not hold the empty string. *)
Lemma no_extension_rejected w path patterns root output_file extensions :
  extensions <> [] -> Str.mem "" extensions = false ->
  isfile w path = true -> snd (Path.splitext path) = "" ->
  is_ignored w path patterns root output_file extensions = true.
Proof.
  intros Hne Hmem Hfile Hext.
  rewrite is_ignored_cascade, Hfile. unfold extension_rejected.
  rewrite Hext. cbn [Str.tail Str.lower]. rewrite Hmem.
  destruct extensions; [congruence|]. cbn [negb andb]. apply orb_true_r.
Qed.

(** C10, as stated, fails: the allow-list built from the argument [py,]
    is not empty and holds the empty string, so [Makefile], which has no
    extension, is not excluded. *)
Lemma no_extension_counterexample :
  main_extensions "py," = ["py"; ""]
  /\ isfile sample "/proj/Makefile" = true
  /\ snd (Path.splitext "/proj/Makefile") = ""
  /\ is_ignored sample "/proj/Makefile" [".git/"] "/proj" "/proj/out.txt"
                (main_extensions "py,") = false.
Proof.
  repeat split; vm_compute; reflexivity.
Qed.

(** C10, amended.  When the [-e] argument is not empty and none of its
    comma-separated items is empty, every file whose basename has no
    extension is excluded: its extension is the empty string, which is not
    in the allow-list. *)
Theorem no_extension_excluded w path patterns root output_file arg :
  arg <> "" ->
  Forall (fun item => item <> "") (Str.split ","%char arg) ->
  isfile w path = true ->
  snd (Path.splitext path) = "" ->
  is_ignored w path patterns root output_file (main_extensions arg) = true.
Proof.
  intros Harg Hitems Hfile Hext.
  apply no_extension_rejected; try assumption.
  - unfold main_extensions. apply String.eqb_neq in Harg. rewrite Harg.
    intros E. apply map_eq_nil in E. now apply split_nonempty in E.
  - unfold main_extensions. apply String.eqb_neq in Harg. rewrite Harg.
    now apply mem_empty_lower.
Qed.

(* ------------------------------------------------------------------ *)
(** ** The theorems at concrete trees *)


Lemma is_ignored_pattern_order_sample :
  is_ignored sample "/proj/main.py" ["build/"; ".git/"; "*.py"] "/proj"
             "/proj/out.txt" []
  = is_ignored sample "/proj/main.py" [".git/"; "build/"; "*.py"] "/proj"
               "/proj/out.txt" [].
Proof.
  apply is_ignored_pattern_order. apply perm_swap.
Defined.


Lemma hidden_directory_pruned_sample :
  is_ignored sample "/proj/src/.venv" [] "/proj" "/proj/out.txt" [] = true
  /\ forall it p,
       In it (structure_items sample [] "/proj" "/proj/out.txt" [] "/proj" "") ->
       item_path it = Some p ->
       p <> "/proj/src/.venv" /\ ~ beneath "/proj/src/.venv" p.
Proof.
  destruct (hidden_directory_pruned (fun _ => "") sample "/proj" [] "/proj/out.txt" []
                                    "/proj/src/.venv")
    as [Hign [_ [_ Hlisting]]].
  - vm_compute. reflexivity.
  - exists ["src"; ".venv"]. split; [discriminate|].
    split; [repeat constructor|vm_compute; reflexivity].
  - vm_compute. reflexivity.
  - vm_compute. reflexivity.
  - split; [exact Hign|exact Hlisting].
Defined.



Lemma no_extension_excluded_sample :
  is_ignored sample "/proj/Makefile" [".git/"] "/proj" "/proj/out.txt"
             (main_extensions "py,md") = true.
Proof.
  apply no_extension_excluded.
  - discriminate.
  - vm_compute. repeat constructor; discriminate.
  - vm_compute. reflexivity.
  - vm_compute. reflexivity.
Defined.

(* ------------------------------------------------------------------ *)
(** ** The patterns read from the ignore-file *)

Lemma lstrip_no_leading_space s : no_leading_space (Str.lstrip s).
Proof.
  induction s as [|c s IH]; cbn; [exact I|].
  destruct (Str.is_space c) eqn:E; [exact IH|exact E].
Qed.

Lemma lstrip_fixed s : no_leading_space s -> Str.lstrip s = s.
Proof.
  destruct s as [|c s]; cbn; [reflexivity|]. now intros ->.
Qed.

Lemma rstrip_no_leading_space s :
  no_leading_space s -> no_leading_space (Str.rstrip s).
Proof.
  destruct s as [|c s]; cbn; [trivial|]. intros H.
  destruct (Str.rstrip s); [now rewrite H|exact H].
Qed.

Lemma rstrip_idempotent s : Str.rstrip (Str.rstrip s) = Str.rstrip s.
Proof.
  induction s as [|c s IH]; [reflexivity|].
  cbn [Str.rstrip]. destruct (Str.rstrip s) as [|d r] eqn:E.
  - destruct (Str.is_space c) eqn:Ec; [reflexivity|].
    cbn. now rewrite Ec.
  - cbn [Str.rstrip]. cbn [Str.rstrip] in IH. now rewrite IH.
Qed.

Lemma strip_idempotent s : Str.strip (Str.strip s) = Str.strip s.
Proof.
  unfold Str.strip.
  rewrite (lstrip_fixed (Str.rstrip (Str.lstrip s))).
  - apply rstrip_idempotent.
  - apply rstrip_no_leading_space, lstrip_no_leading_space.
Qed.

(** The lines that [file_lines] cuts a text into are its lines. *)
Lemma file_lines_cons s : exists h t, file_lines s = h :: t.
Proof.
  destruct s as [|c s]; cbn [file_lines]; [eauto|].
  destruct (Ascii.eqb c "010" || Ascii.eqb c "013"); [eauto|].
  destruct (file_lines s); eauto.
Qed.

Lemma file_lines_break c s :
  is_break c = true -> file_lines (String c s) = "" :: file_lines s.
Proof. unfold is_break. cbn [file_lines]. now intros ->. Qed.

Lemma file_lines_char c s h t :
  is_break c = false -> file_lines s = h :: t ->
  file_lines (String c s) = String c h :: t.
Proof. unfold is_break. cbn [file_lines]. now intros -> ->. Qed.

(** The first line, and the text after it. *)
Lemma file_lines_first line post :
  no_break line = true ->
  (post = "" \/ exists b post', post = String b post' /\ is_break b = true) ->
  file_lines (line ++ post)
  = line :: match post with
            | EmptyString => []
            | String _ post' => file_lines post'
            end.
Proof.
  intros Hline Hpost. induction line as [|c line IH]; cbn [append].
  - destruct Hpost as [E|[b [post' [E Hb]]]]; subst post; [reflexivity|].
    now apply file_lines_break.
  - cbn [no_break] in Hline. apply andb_true_iff in Hline as [Hc Hline].
    apply negb_true_iff in Hc. now apply file_lines_char, IH.
Qed.

Lemma file_lines_later pre b rest x :
  is_break b = true -> In x (file_lines rest) ->
  In x (tl (file_lines (pre ++ String b rest))).
Proof.
  intros Hb Hx. induction pre as [|c pre IH]; cbn [append].
  - now rewrite (file_lines_break _ _ Hb).
  - destruct (is_break c) eqn:Hc.
    + rewrite (file_lines_break _ _ Hc). cbn [tl].
      destruct (file_lines (pre ++ String b rest)); [destruct IH|now right].
    + destruct (file_lines_cons (pre ++ String b rest)) as [h [t E]].
      rewrite (file_lines_char _ _ _ _ Hc E). now rewrite E in IH.
Qed.

Lemma append_snoc a c b : (a ++ String c "") ++ b = a ++ String c b.
Proof. induction a as [|x a IH]; cbn [append]; [reflexivity|now rewrite IH]. Qed.

Lemma line_of_file_lines content line :
  line_of content line -> In line (file_lines content).
Proof.
  intros [pre [post [E [Hline [Hpre Hpost]]]]]. subst content.
  destruct Hpre as [Hpre|[pre' [b [Hpre Hb]]]]; subst pre.
  - cbn [append]. rewrite (file_lines_first _ _ Hline Hpost). now left.
  - rewrite append_snoc.
    assert (H : In line (tl (file_lines (pre' ++ String b (line ++ post))))).
    { apply (file_lines_later _ _ _ _ Hb).
      rewrite (file_lines_first _ _ Hline Hpost). now left. }
    destruct (file_lines (pre' ++ String b (line ++ post))); [destruct H|].
    cbn [tl] in H. cbn [In]. now right.
Qed.

Lemma file_lines_line_of content :
  exists h t,
    file_lines content = h :: t
    /\ no_break h = true
    /\ (exists post,
           content = h ++ post
           /\ (post = "" \/ exists b post', post = String b post' /\ is_break b = true))
    /\ forall line, In line t ->
         exists pre' b post,
           content = (pre' ++ String b "") ++ line ++ post
           /\ is_break b = true /\ no_break line = true
           /\ (post = "" \/ exists b' post', post = String b' post' /\ is_break b' = true).
Proof.
  induction content as [|c s [h [t [E [Hh [[post [Es Hpost]] Ht]]]]]].
  - exists "", []. repeat split; [exists ""; split; [reflexivity|now left]|intros _ []].
  - destruct (is_break c) eqn:Hc.
    + exists "", (h :: t). rewrite (file_lines_break _ _ Hc), E.
      split; [reflexivity|]. split; [reflexivity|]. split.
      * exists (String c s). split; [reflexivity|]. right. eauto.
      * intros line [El|Hl].
        -- subst line. exists "", c, post. cbn [append]. rewrite <- Es. auto.
        -- destruct (Ht _ Hl) as [pre' [b [post' [E' [Hb [Hline Hpost']]]]]].
           exists (String c pre'), b, post'. cbn [append]. rewrite <- E'. auto.
    + exists (String c h), t. rewrite (file_lines_char _ _ _ _ Hc E).
      split; [reflexivity|]. split; [cbn [no_break]; now rewrite Hc, Hh|]. split.
      * exists post. cbn [append]. now rewrite <- Es.
      * intros line Hl.
        destruct (Ht _ Hl) as [pre' [b [post' [E' [Hb [Hline Hpost']]]]]].
        exists (String c pre'), b, post'. cbn [append]. rewrite <- E'. auto.
Qed.

Lemma file_lines_In content line :
  In line (file_lines content) <-> line_of content line.
Proof.
  split; [|apply line_of_file_lines].
  destruct (file_lines_line_of content)
    as [h [t [E [Hh [[post [Es Hpost]] Ht]]]]].
  rewrite E. intros [El|Hl].
  - subst line. exists "", post. cbn [append]. auto.
  - destruct (Ht _ Hl) as [pre' [b [post' [E' [Hb [Hline Hpost']]]]]].
    exists (pre' ++ String b ""), post'. repeat split; eauto.
Qed.

(** Lines joined by line feeds are read back as they are. *)
Lemma file_lines_concat ps :
  ps <> [] -> Forall (fun p => no_break p = true) ps ->
  file_lines (String.concat nl ps) = ps.
Proof.
  induction ps as [|p ps IH]; intros Hne Hall; [congruence|].
  inversion Hall as [|? ? Hp Hps]; subst.
  destruct ps as [|q ps].
  - cbn [String.concat]. rewrite <- (append_nil_r p) at 1.
    rewrite (file_lines_first p "" Hp (or_introl eq_refl)). reflexivity.
  - change (String.concat nl (p :: q :: ps))
      with (p ++ String "010" (String.concat nl (q :: ps))).
    rewrite (file_lines_first p _ Hp); [|right; eauto].
    f_equal. apply IH; [discriminate|exact Hps].
Qed.

Lemma clean_patterns_kept ps :
  Forall clean_pattern ps ->
  filter (fun stripped => negb (stripped =? "") && negb (Str.startswith stripped "#"))
         (map Str.strip ps) = ps.
Proof.
  induction 1 as [|q qs [Hne [Hhash [Hstrip Hbreak]]] _ IH]; [reflexivity|].
  cbn [map filter]. rewrite Hstrip, Hhash.
  apply String.eqb_neq in Hne. rewrite Hne. cbn [negb andb]. now f_equal.
Qed.

(** X1.  [read_gitignore] reads the patterns off the lines of the
    ignore-file: a string is a pattern exactly when it is a line of the file
    without its surrounding white space, is not empty and does not start
    with [#]; no pattern has white space left at either end; and a file
    that holds patterns one per line, separated by line feeds, is read back
    as the list of these patterns, in their order. *)
Theorem read_gitignore_reads_lines w directory m content :
  lookup w (Path.join directory ".gitignore") = Some (EFile m) ->
  read m = Text content ->
  exists patterns,
    read_gitignore w directory = Ok patterns
    /\ (forall p, In p patterns <->
                  p <> "" /\ Str.startswith p "#" = false
                  /\ exists line, line_of content line /\ p = Str.strip line)
    /\ Forall (fun p => Str.strip p = p) patterns
    /\ (forall ps, Forall clean_pattern ps -> content = String.concat nl ps ->
                   patterns = ps).
Proof.
  intros Hl Hm. unfold read_gitignore, exists_, open_read. rewrite Hl, Hm.
  eexists. split; [reflexivity|]. split; [|split].
  - intros p. rewrite filter_In, in_map_iff, andb_true_iff, !negb_true_iff. split.
    + intros [[line [E Hin]] [Hne Hhash]]. apply String.eqb_neq in Hne.
      repeat split; [exact Hne|exact Hhash|].
      exists line. split; [now apply file_lines_In|now symmetry].
    + intros [Hne [Hhash [line [Hline E]]]]. split.
      * exists line. split; [now symmetry|now apply file_lines_In].
      * split; [now apply String.eqb_neq|exact Hhash].
  - apply Forall_forall. intros p Hp. apply filter_In in Hp as [Hp _].
    apply in_map_iff in Hp as [line [E _]]. subst p. apply strip_idempotent.
  - intros ps Hps E. subst content. destruct ps as [|p ps]; [reflexivity|].
    rewrite file_lines_concat; [|discriminate|].
    2:{ apply Forall_forall. intros q Hq. rewrite Forall_forall in Hps.
        now destruct (Hps q Hq) as [_ [_ [_ H]]]. }
    now apply clean_patterns_kept.
Qed.

(* ------------------------------------------------------------------ *)
(** ** The two counters of the statistics *)

Section WalkExt.

Context {S : Type}.
Variables body1 body2 : string -> list string -> list string -> S -> list string * S.
Hypothesis bodies_agree :
  forall root dirs files s, body1 root dirs files s = body2 root dirs files s.

Lemma walk_node_ext nd : forall top s,
  walk_node body1 top nd s = walk_node body2 top nd s.
Proof.
  induction nd as [name meta|name kids IH|name] using node_ind'; intros top s;
    [reflexivity| |reflexivity].
  rewrite !walk_node_Dir, bodies_agree.
    apply fold_left_ext_in. intros s' d _.
    destruct (find_dir d kids) as [k|] eqn:Hk; [|reflexivity].
    apply find_dir_In in Hk as [Hin _].
    rewrite Forall_forall in IH. now apply IH.
Qed.

End WalkExt.

Lemma remove_keeps_head xs y l :
  (forall x, In x xs -> x <> y) ->
  fold_left (fun l x => list_remove x l) xs (y :: l)
  = y :: fold_left (fun l x => list_remove x l) xs l.
Proof.
  revert l. induction xs as [|x xs IH]; intros l H; [reflexivity|].
  cbn [fold_left list_remove].
  assert (Hx : x <> y) by (apply H; now left).
  apply String.eqb_neq in Hx. rewrite String.eqb_sym in Hx. rewrite Hx.
  apply IH. intros; apply H; now right.
Qed.

(** Removing from [dirs], one by one, the names that satisfy [p] leaves the
    names that do not. *)
Lemma remove_filtered (p : string -> bool) l :
  fold_left (fun l x => list_remove x l) (filter p l) l
  = filter (fun x => negb (p x)) l.
Proof.
  induction l as [|y l IH]; [reflexivity|].
  cbn [filter]. destruct (p y) eqn:Hy; cbn [negb].
  - cbn [fold_left list_remove]. now rewrite String.eqb_refl.
  - rewrite remove_keeps_head; [now rewrite IH|].
    intros x Hx E. subst x. apply filter_In in Hx as [_ Hx]. congruence.
Qed.

Lemma filter_flat_map {A B : Type} (f : B -> bool) (g : A -> list B) (l : list A) :
  filter f (flat_map g l) = flat_map (fun x => filter f (g x)) l.
Proof.
  induction l as [|x l IH]; cbn; [reflexivity|].
  now rewrite filter_app, IH.
Qed.

Lemma filter_true {A : Type} (l : list A) : filter (fun _ => true) l = l.
Proof.
  induction l as [|x l IH]; cbn; [reflexivity|now rewrite IH].
Qed.

Lemma passing_filter ignored vs :
  passing ignored vs
  = filter (fun p => negb (ignored p)) (passing (fun _ => false) vs).
Proof.
  unfold passing. rewrite filter_flat_map. apply flat_map_ext. intros v.
  cbn [negb]. now rewrite filter_true.
Qed.

Section Statistics.

Variables (w : world) (patterns : list string) (root_dir output_file : string)
          (extensions : list string).

Let ignored (p : string) : bool :=
  is_ignored w p patterns root_dir output_file extensions.
Let keep (p : string) : bool := negb (ignored p).

Lemma met_visits vs (met : list string) :
  fold_left (fun met v => (met ++ map (Path.join (fst v)) (snd v))%list) vs met
  = (met ++ passing (fun _ => false) vs)%list.
Proof.
  revert met. induction vs as [|v vs IH]; intros met.
  - cbn. now rewrite app_nil_r.
  - cbn [fold_left]. rewrite IH. unfold passing. cbn [flat_map negb].
    now rewrite filter_true, <- app_assoc.
Qed.

Lemma met_files_visits directory :
  met_files w directory patterns root_dir output_file extensions =
  match lookup w directory with
  | Some (EDir kids) => passing (fun _ => false) (visits keep directory (Dir "" kids))
  | _ => []
  end.
Proof.
  unfold met_files, os_walk, walk_kids.
  destruct (lookup w directory) as [[m|kids]|]; try reflexivity.
  rewrite (walk_node_visits keep
             (fun root files met => (met ++ map (Path.join root) files)%list)).
  now rewrite met_visits.
Qed.

Lemma excluded_loop root files (count : nat) :
  fold_left
    (fun count file =>
       let file_path := Path.join root file in
       if is_ignored w file_path patterns root_dir output_file extensions
       then count + 1 else count)
    files count
  = count + length (filter ignored (map (Path.join root) files)).
Proof.
  revert count. induction files as [|f files IH]; intros count; cbn.
  - lia.
  - rewrite IH. unfold ignored. destruct (is_ignored _ _ _ _ _ _); cbn; lia.
Qed.

Lemma excluded_visits vs (count : nat) :
  fold_left
    (fun count v =>
       fold_left
         (fun count file =>
            let file_path := Path.join (fst v) file in
            if is_ignored w file_path patterns root_dir output_file extensions
            then count + 1 else count)
         (snd v) count)
    vs count
  = count + length (filter ignored (passing (fun _ => false) vs)).
Proof.
  revert count. induction vs as [|v vs IH]; intros count.
  - cbn. lia.
  - cbn [fold_left]. rewrite IH, excluded_loop.
    unfold passing. cbn [flat_map negb].
    rewrite filter_true, filter_app, length_app. lia.
Qed.

Lemma count_excluded_files_met directory :
  count_excluded_files w directory patterns root_dir output_file extensions
  = length (filter ignored
                   (met_files w directory patterns root_dir output_file extensions)).
Proof.
  rewrite met_files_visits.
  unfold count_excluded_files, os_walk, walk_kids.
  destruct (lookup w directory) as [[m|kids]|]; try reflexivity.
  rewrite (walk_node_ext _
             (fun root dirs files count =>
                (filter (fun d => keep (Path.join root d)) dirs,
                 fold_left
                   (fun count file =>
                      let file_path := Path.join root file in
                      if is_ignored w file_path patterns root_dir output_file
                                    extensions
                      then count + 1 else count)
                   files count))).
  - rewrite (walk_node_visits keep
               (fun root files count =>
                  fold_left
                    (fun count file =>
                       let file_path := Path.join root file in
                       if is_ignored w file_path patterns root_dir output_file
                                     extensions
                       then count + 1 else count)
                    files count)).
    now rewrite excluded_visits.
  - intros root dirs files count. f_equal.
    apply (remove_filtered
             (fun d => is_ignored w (Path.join root d) patterns root_dir output_file
                                  extensions)).
Qed.

Lemma count_files_met directory :
  count_files w directory patterns root_dir output_file extensions
  = length (filter keep
                   (met_files w directory patterns root_dir output_file extensions)).
Proof.
  rewrite count_files_visits, met_files_visits.
  destruct (lookup w directory) as [[m|kids]|]; try reflexivity.
  now rewrite passing_filter.
Qed.

Lemma filter_split_length {A : Type} (f : A -> bool) (l : list A) :
  length (filter f l) + length (filter (fun x => negb (f x)) l) = length l.
Proof.
  induction l as [|x l IH]; cbn; [reflexivity|].
  destruct (f x); cbn; lia.
Qed.

End Statistics.

(** X2.  [count_excluded_files] counts the ignored files among the files of
    the directories that the pruned walk visits, [count_files] counts the
    others, and so the "Total files" of the statistics is the number of
    files in the visited directories (files below a pruned directory are in
    neither count). *)
Theorem statistics_partition_met_files w directory patterns root_dir output_file
    extensions :
  let met := met_files w directory patterns root_dir output_file extensions in
  let ignored := fun p => is_ignored w p patterns root_dir output_file extensions in
  count_excluded_files w directory patterns root_dir output_file extensions
  = length (filter ignored met)
  /\ count_files w directory patterns root_dir output_file extensions
     = length (filter (fun p => negb (ignored p)) met)
  /\ count_files w directory patterns root_dir output_file extensions
     + count_excluded_files w directory patterns root_dir output_file extensions
     = length met.
Proof.
  intros met ignored. subst met ignored.
  rewrite count_excluded_files_met, count_files_met.
  repeat split. rewrite Nat.add_comm. apply filter_split_length.
Qed.

(** X3.  In a well-formed tree the number that [count_files] returns for a
    directory (the statistics of the root and the count shown on each
    directory line) is the number of file lines that
    [get_directory_structure] lists for that directory. *)
Theorem count_files_is_listed_files w directory patterns root_dir output_file
    extensions indent :
  wf_world w = true ->
  count_files w directory patterns root_dir output_file extensions
  = length (listed_files
              (structure_items w patterns root_dir output_file extensions directory
                               indent)).
Proof.
  intros Hw. rewrite count_files_counted.
  symmetry. apply Permutation_length. now apply structure_items_files.
Qed.

(* ------------------------------------------------------------------ *)
(** ** How the count of a directory is made of the counts below it *)

Lemma length_flat_map {A B : Type} (f : A -> list B) (l : list A) :
  length (flat_map f l) = list_sum (map (fun x => length (f x)) l).
Proof.
  induction l as [|x l IH]; cbn; [reflexivity|].
  now rewrite length_app, IH.
Qed.

Lemma visits_name keep top name name' kids :
  visits keep top (Dir name kids) = visits keep top (Dir name' kids).
Proof. now rewrite !visits_Dir. Qed.

Lemma passing_flat_map {A : Type} ignored (f : A -> list (string * list string))
    (l : list A) :
  passing ignored (flat_map f l) = flat_map (fun x => passing ignored (f x)) l.
Proof. unfold passing. apply flat_map_flat_map. Qed.

Lemma passing_cons ignored v vs :
  passing ignored (v :: vs)
  = (filter (fun p => negb (ignored p)) (map (Path.join (fst v)) (snd v))
     ++ passing ignored vs)%list.
Proof. reflexivity. Qed.

(** X4.  In a well-formed tree the count of a directory is the number of
    its own files that pass the policy plus the counts of its
    subdirectories that pass the policy. *)
Theorem count_files_of_subdirectories w directory patterns root_dir output_file
    extensions kids :
  wf_world w = true ->
  lookup w directory = Some (EDir kids) ->
  let keep := fun p => negb (is_ignored w p patterns root_dir output_file extensions) in
  count_files w directory patterns root_dir output_file extensions
  = length (filter keep (map (Path.join directory) (file_names kids)))
    + list_sum
        (map (fun d => count_files w (Path.join directory d) patterns root_dir
                                   output_file extensions)
             (filter (fun d => keep (Path.join directory d)) (dir_names kids))).
Proof.
  intros Hw Hl keep.
  pose proof (lookup_wf _ _ _ Hw Hl) as Hwf.
  rewrite count_files_visits, Hl, visits_Dir.
  rewrite passing_cons. cbn [fst snd].
  rewrite length_app, passing_flat_map, length_flat_map. f_equal.
  apply f_equal, map_ext_in. intros d Hd.
  apply filter_In in Hd as [Hd _]. apply dir_names_In in Hd as [sub Hin].
  rewrite (find_dir_distinct _ _ _ (wf_kids_distinct _ Hwf) Hin).
  rewrite count_files_visits.
  pose proof (lookup_child _ _ _ _ Hl Hwf Hin) as Hsub. cbn in Hsub.
  rewrite Hsub. now rewrite (visits_name _ _ d "").
Qed.

(* ------------------------------------------------------------------ *)
(** ** [format_file_size] and [get_file_icon] *)

Lemma N_to_string_0 : N_to_string 0 = "0".
Proof. reflexivity. Qed.

(** X5.  A size below 1024 bytes is shown in bytes, as the number followed
    by [.0 B]. *)
Theorem format_file_size_bytes (size : N) :
  (size < 1024)%N -> format_file_size size = N_to_string size ++ ".0 B".
Proof.
  intros H. unfold format_file_size. cbn [format_units].
  rewrite N.mul_1_r. apply N.ltb_lt in H. rewrite H.
  unfold format_1f. rewrite N.div_1_r, N.mod_1_r.
  change (1 <? 2 * 0)%N with false. change (1 =? 2 * 0)%N with false.
  cbn [orb andb].
  rewrite (N.mul_comm 10 size), N.div_mul by discriminate.
  rewrite N.Div0.mod_mul, N_to_string_0.
  rewrite append_assoc. reflexivity.
Qed.

Lemma dict_get_missing d key default :
  (forall v, ~ In (key, v) d) -> dict_get d key default = default.
Proof.
  induction d as [|[k v] d IH]; intros H; cbn; [reflexivity|].
  destruct (k =? key) eqn:E.
  - apply String.eqb_eq in E. subst k. exfalso. apply (H v). now left.
  - apply IH. intros v' Hin. apply (H v'). now right.
Qed.

Lemma dict_get_present d key default :
  (exists v, In (key, v) d) -> In (key, dict_get d key default) d.
Proof.
  induction d as [|[k v] d IH]; intros [v' H]; cbn; [destruct H|].
  destruct (k =? key) eqn:E.
  - apply String.eqb_eq in E. subst k. now left.
  - right. apply IH. destruct H as [H|H]; [|now exists v'].
    inversion H; subst. now rewrite String.eqb_refl in E.
Qed.

Lemma icons_no_empty_key v : ~ In ("", v) icons.
Proof.
  unfold icons. intros H. cbn [In] in H.
  repeat (destruct H as [H|H]; [discriminate H|]). exact H.
Qed.

(** X6.  The line of a file in the listing is the indentation, one icon,
    the name and the size.  The icon is the one the table of
    [get_file_icon] holds for the extension in lower case, whatever the
    case of the extension in the name; it is the page icon when the table
    does not hold the extension, and when the name has no extension. *)
Theorem file_line_icon indent path f size :
  let extension := Str.lower (Str.tail (snd (Path.splitext f))) in
  exists icon,
    render_item (FileItem indent path f size)
    = [indent ++ icon ++ " " ++ f ++ " (" ++ format_file_size size ++ ")"]
    /\ ((exists v, In (extension, v) icons) -> In (extension, icon) icons)
    /\ ((forall v, ~ In (extension, v) icons) -> icon = "📄").
Proof.
  intros extension. unfold render_item.
  destruct (snd (Path.splitext f) =? "") eqn:E.
  - exists "📄". split; [reflexivity|]. split; [|reflexivity].
    intros [v Hv]. exfalso. apply String.eqb_eq in E.
    unfold extension in Hv. rewrite E in Hv. exact (icons_no_empty_key v Hv).
  - exists (get_file_icon extension). split; [reflexivity|]. split.
    + apply dict_get_present.
    + apply dict_get_missing.
Qed.

(* ------------------------------------------------------------------ *)
(** ** More about [is_ignored] *)

(** X7.  The verdict for two pattern lists put together is the disjunction
    of the verdicts for each: more patterns only exclude more. *)
Theorem is_ignored_patterns_app w path patterns patterns' root output_file
    extensions :
  is_ignored w path (patterns ++ patterns') root output_file extensions
  = is_ignored w path patterns root output_file extensions
    || is_ignored w path patterns' root output_file extensions.
Proof.
  rewrite !is_ignored_cascade, existsb_app.
  destruct (_ =? _), (isdir w path && _), (Str.contains _ _),
    (isfile w path && Str.has_digit_run _),
    (existsb _ patterns), (existsb _ patterns'),
    (isfile w path && extension_rejected _ _); reflexivity.
Qed.

Lemma isdir_not_isfile w path : isdir w path = true -> isfile w path = false.
Proof.
  unfold isdir, isfile. now destruct (lookup w path) as [[m|kids]|].
Qed.

(** X8.  The extension allow-list never decides about a directory: its
    verdict is the same whatever the allow-list is. *)
Theorem is_ignored_directory_extensions w path patterns root output_file
    extensions extensions' :
  isdir w path = true ->
  is_ignored w path patterns root output_file extensions
  = is_ignored w path patterns root output_file extensions'.
Proof.
  intros Hd. rewrite !is_ignored_cascade, (isdir_not_isfile _ _ Hd). reflexivity.
Qed.

Lemma match_star s : Fnmatch.match_toks [Fnmatch.Star] s = true.
Proof.
  cbn [Fnmatch.match_toks].
  induction s as [|c s IH]; [reflexivity|].
  cbn [Fnmatch.match_toks orb String.eqb] in *. exact IH.
Qed.

Lemma pattern_hits_ignored w path patterns root output_file extensions raw :
  In raw patterns -> pattern_hits w path root raw = true ->
  is_ignored w path patterns root output_file extensions = true.
Proof.
  intros Hin Hhit. rewrite is_ignored_cascade.
  assert (He : existsb (pattern_hits w path root) patterns = true).
  { apply existsb_exists. eauto. }
  rewrite He. rewrite orb_true_r. reflexivity.
Qed.

(** X9.  The pattern [*] excludes every entry: in [fnmatch] a star also
    matches the slashes of a path. *)
Theorem star_pattern_excludes_all w path patterns root output_file extensions :
  In "*" patterns ->
  is_ignored w path patterns root output_file extensions = true.
Proof.
  intros Hin. apply (pattern_hits_ignored _ _ _ _ _ _ "*" Hin).
  unfold pattern_hits.
  change (strip_slashes "*") with "*".
  replace (Fnmatch.fnmatch (Path.relpath (cwd w) path root) "*") with true.
  - now rewrite orb_true_r.
  - symmetry. apply match_star.
Qed.

Lemma has_char_false_cons c a s :
  Str.has_char c (String a s) = false ->
  Ascii.eqb a c = false /\ Str.has_char c s = false.
Proof.
  rewrite has_char_cons. intros H. apply orb_false_iff in H as [H1 H2].
  split; [now rewrite Ascii.eqb_sym|exact H2].
Qed.

Lemma glob_free_cons a s :
  glob_free (String a s) = true ->
  Ascii.eqb a "*"%char = false /\ Ascii.eqb a "?"%char = false
  /\ Ascii.eqb a "["%char = false /\ glob_free s = true.
Proof.
  unfold glob_free. intros H.
  apply andb_true_iff in H as [H H3]. apply andb_true_iff in H as [H1 H2].
  apply negb_true_iff in H1, H2, H3.
  apply has_char_false_cons in H1 as [A1 B1].
  apply has_char_false_cons in H2 as [A2 B2].
  apply has_char_false_cons in H3 as [A3 B3].
  now rewrite B1, B2, B3.
Qed.

Lemma translate_glob_free pat :
  glob_free pat = true ->
  Fnmatch.translate pat = map Fnmatch.Lit (list_ascii_of_string pat).
Proof.
  unfold Fnmatch.translate. induction pat as [|a pat IH]; [reflexivity|].
  intros H. apply glob_free_cons in H as [H1 [H2 [H3 H]]].
  cbn [Fnmatch.translate_from list_ascii_of_string map].
  now rewrite H1, H2, H3, (IH H).
Qed.

Lemma match_literal pat : forall s,
  Fnmatch.match_toks (map Fnmatch.Lit (list_ascii_of_string pat)) s = (s =? pat).
Proof.
  induction pat as [|a pat IH]; intros s.
  - reflexivity.
  - cbn [list_ascii_of_string map Fnmatch.match_toks].
    destruct s as [|c s]; [reflexivity|].
    cbn [Fnmatch.tok_char String.eqb]. rewrite IH.
    now destruct (Ascii.eqb c a).
Qed.

(** A pattern without wildcards matches its own text and nothing else. *)
Lemma fnmatch_literal name pat :
  glob_free pat = true -> Fnmatch.fnmatch name pat = (name =? pat).
Proof.
  intros H. unfold Fnmatch.fnmatch. rewrite (translate_glob_free _ H).
  apply match_literal.
Qed.

(** X10.  Patterns are not anchored: a pattern without wildcards, its
    slashes stripped, that is one of the segments of the path from the
    root to an entry excludes the entry, at any depth and whether the
    entry is a file or a directory.  With the pattern [.git/] that
    [process_directory] always adds, every entry on a path through [.git]
    is excluded. *)
Theorem literal_pattern_excludes_segment w path patterns root output_file
    extensions raw :
  In raw patterns ->
  glob_free (strip_slashes raw) = true ->
  In (strip_slashes raw) (Str.split Path.sep (Path.relpath (cwd w) path root)) ->
  is_ignored w path patterns root output_file extensions = true.
Proof.
  intros Hin Hfree Hseg. apply (pattern_hits_ignored _ _ _ _ _ _ raw Hin).
  unfold pattern_hits.
  assert (He : existsb (fun part => Fnmatch.fnmatch part (strip_slashes raw))
                       (Str.split Path.sep (Path.relpath (cwd w) path root)) = true).
  { apply existsb_exists. exists (strip_slashes raw). split; [exact Hseg|].
    rewrite (fnmatch_literal _ _ Hfree). apply String.eqb_refl. }
  rewrite He. apply orb_true_r.
Qed.

Lemma endswith_snoc p suffix : Str.endswith (p ++ suffix) suffix = true.
Proof.
  induction p as [|c p IH]; cbn [append Str.endswith].
  - destruct suffix; cbn; [reflexivity|]. now rewrite Ascii.eqb_refl, String.eqb_refl.
  - rewrite IH. apply orb_true_r.
Qed.

Lemma drop_last_snoc p c : Str.drop_last (p ++ String c "") = p.
Proof.
  induction p as [|a p IH]; [reflexivity|].
  cbn [append Str.drop_last]. rewrite IH.
  destruct (p ++ String c "") eqn:E; [|reflexivity].
  destruct p; discriminate.
Qed.

Lemma pattern_hits_strip w path root raw raw' :
  strip_slashes raw = strip_slashes raw' ->
  pattern_hits w path root raw = pattern_hits w path root raw'.
Proof.
  unfold pattern_hits. now intros ->.
Qed.

(** X11.  One leading and one trailing slash of a pattern do not count:
    [/p/] stands for [p] (so a trailing slash does not restrict a pattern
    to directories), and two pattern lists that are equal once every
    pattern is stripped give the same verdict. *)
Theorem pattern_slashes_are_dropped w path patterns patterns' root output_file
    extensions p :
  strip_slashes ("/" ++ p ++ "/") = p
  /\ (map strip_slashes patterns = map strip_slashes patterns' ->
      is_ignored w path patterns root output_file extensions
      = is_ignored w path patterns' root output_file extensions).
Proof.
  split.
  - unfold strip_slashes. cbn [append].
    rewrite startswith_slash_cons.
    destruct (ascii_dec "/"%char "/"%char) as [_|N]; [|congruence].
    cbn [Str.tail]. rewrite endswith_snoc. apply drop_last_snoc.
  - intros Hmap. rewrite !is_ignored_cascade.
    replace (existsb (pattern_hits w path root) patterns')
      with (existsb (pattern_hits w path root) patterns); [reflexivity|].
    revert patterns' Hmap.
    induction patterns as [|raw ps IH]; intros [|raw' ps'] Hmap;
      try discriminate; [reflexivity|].
    cbn [map] in Hmap. inversion Hmap as [[Hraw Hrest]].
    cbn [existsb]. now rewrite (pattern_hits_strip _ _ _ _ _ Hraw), (IH _ Hrest).
Qed.

(* ------------------------------------------------------------------ *)
(** ** What lies below an excluded directory *)

Lemma visit_file_avoids keep directory kids root files f D :
  wf_kids kids = true ->
  In (root, files) (visits keep directory (Dir "" kids)) -> In f files ->
  beneath directory D -> keep D = false ->
  ~ beneath D (Path.join root f).
Proof.
  intros Hwf Hv Hf HD Hkeep.
  destruct (visits_chain keep _ _ _ _ eq_refl Hwf _ _ Hv)
    as [qs [Hroot [Hqs [Hchain Hfiles]]]].
  rewrite Forall_forall in Hfiles. rewrite Hroot.
  change (Path.join (Path.join_all directory qs) f)
    with (Path.join_all (Path.join_all directory qs) [f]).
  rewrite <- join_all_app.
  apply (chain_avoids keep); try assumption.
  apply Forall_app. split; [exact Hqs|]. constructor; [now apply Hfiles|constructor].
Qed.

(** X12.  Nothing below an excluded directory is looked at: when the
    policy excludes a directory [D] of the scanned tree, for whatever
    reason, no file below [D] is emitted by the content loop, met by the
    counting walks or listed, whatever the policy would say about the file
    itself. *)
Theorem excluded_directory_is_pruned strftime w directory patterns output_file
    extensions D :
  wf_world w = true ->
  beneath directory D ->
  is_ignored w D patterns directory output_file extensions = true ->
  (forall entries e,
      content_entries strftime w directory patterns output_file extensions
      = Ok entries ->
      In e entries -> ~ beneath D (file_path e))
  /\ (forall p,
        In p (met_files w directory patterns directory output_file extensions) ->
        ~ beneath D p)
  /\ (forall it p,
        In it (structure_items w patterns directory output_file extensions
                               directory "") ->
        item_path it = Some p -> ~ beneath D p).
Proof.
  intros Hw HD Hign.
  set (keep := fun p => negb (is_ignored w p patterns directory output_file
                                         extensions)).
  assert (Hkeep : keep D = false) by (unfold keep; now rewrite Hign).
  split; [|split].
  - intros entries e Hc He. apply content_entries_Ok in Hc.
    assert (Hp : In (file_path e)
                    (counted_files w directory patterns directory output_file
                                   extensions)).
    { rewrite <- (map_file_path_emit strftime w directory), <- Hc. now apply in_map. }
    rewrite counted_files_visits in Hp.
    destruct (lookup w directory) as [[m|kids]|] eqn:Hl; try destruct Hp.
    apply passing_In in Hp as [_ [root [files [f [Hv [Hf Hp]]]]]]. rewrite Hp.
    apply (visit_file_avoids keep directory kids root files f D); try assumption.
    now apply (lookup_wf w directory).
  - intros p Hp. rewrite met_files_visits in Hp.
    destruct (lookup w directory) as [[m|kids]|] eqn:Hl; try destruct Hp.
    apply passing_In in Hp as [_ [root [files [f [Hv [Hf Hp]]]]]]. rewrite Hp.
    apply (visit_file_avoids keep directory kids root files f D); try assumption.
    now apply (lookup_wf w directory).
  - intros it p Hin Hp. unfold structure_items in Hin.
    destruct (lookup w directory) as [[m|kids]|] eqn:Hl.
    + destruct Hin as [E|[]]. subst it. discriminate.
    + destruct (structure_node_chain w patterns directory output_file extensions
                  _ _ _ _ _ eq_refl (lookup_wf _ _ _ Hw Hl) _ _ Hin Hp)
        as [_ [qs [n [Hpath [Hall Hchain]]]]].
      rewrite Hpath. now apply (chain_avoids keep).
    + destruct Hin as [E|[]]. subst it. discriminate.
Qed.

(* ------------------------------------------------------------------ *)
(** ** Which files are emitted *)

Lemma join_nonempty a n : a <> "" -> Path.join a n <> "".
Proof.
  intros Ha. unfold Path.join.
  destruct (Str.startswith n "/") eqn:E.
  - destruct n; [discriminate|discriminate].
  - destruct ((a =? "") || Str.endswith a "/"); destruct a; try congruence;
      discriminate.
Qed.

Lemma lookup_nonempty w p e : lookup w p = Some e -> p <> "".
Proof.
  unfold lookup. intros H E. subst p. discriminate.
Qed.

Lemma anchored_nonempty w a : a <> "" -> anchored w a <> "".
Proof.
  intros Ha. unfold anchored. destruct (Path.isabs a); [exact Ha|].
  intros E. apply (f_equal String.length) in E.
  rewrite !length_append in E. cbn in E. lia.
Qed.

(** A path that ends with a valid name leads somewhere only through the
    directory before the name. *)
Lemma lookup_join_inv w a n e :
  a <> "" -> valid_name n = true ->
  lookup w (Path.join a n) = Some e ->
  exists kids k,
    lookup w a = Some (EDir kids) /\ find_child n kids = Some k
    /\ Some e = entry_of k.
Proof.
  intros Ha Hn. unfold lookup.
  replace (Path.join a n =? "") with false
    by (symmetry; apply String.eqb_neq; now apply join_nonempty).
  replace (a =? "") with false by (symmetry; now apply String.eqb_neq).
  rewrite (anchored_join _ _ _ Ha Hn).
  pose proof (anchored_nonempty w a Ha) as Hq.
  set (q := anchored w a) in *.
  assert (Hcut : exists comps,
             Str.split Path.sep (q ++ glue q ++ n) = (comps ++ [n])%list
             /\ forall cur, steps ([], EDir (tree w)) comps = Some cur ->
                            forall up kids, cur = (up, EDir kids) ->
                            steps ([], EDir (tree w)) (Str.split Path.sep q)
                            = Some cur).
  { unfold glue. apply String.eqb_neq in Hq. rewrite Hq. cbn [orb].
    destruct (Str.endswith q "/") eqn:Eg.
    - destruct (endswith_split _ Eg) as [q' Eq]. exists (Str.split Path.sep q').
      split.
      + rewrite Eq, append_assoc. cbn [append].
        change (q' ++ String "/" n) with (q' ++ String Path.sep n).
        apply (split_snoc _ _ _ (valid_name_slashfree _ Hn)).
      + intros cur Hcur up kids Ecur. rewrite Eq.
        change (q' ++ "/") with (q' ++ String Path.sep "").
        rewrite (split_snoc _ _ "" eq_refl), steps_app, Hcur. subst cur.
        reflexivity.
    - exists (Str.split Path.sep q). split.
      + change (q ++ "/" ++ n) with (q ++ String Path.sep n).
        apply (split_snoc _ _ _ (valid_name_slashfree _ Hn)).
      + intros cur Hcur _ _ _. exact Hcur. }
  destruct Hcut as [comps [Hsplit Hback]]. rewrite Hsplit, steps_app.
  destruct (steps ([], EDir (tree w)) comps) as [[up [m|kids]]|] eqn:Hcomps;
    [cbn; discriminate| |cbn; discriminate].
  rewrite (Hback _ eq_refl up kids eq_refl). cbn [option_map snd steps].
  rewrite (step_name _ _ _ Hn).
  destruct (find_child n kids) as [k|] eqn:Hk; [|discriminate].
  destruct (entry_of k) as [e'|] eqn:Hent; cbn; [|discriminate].
  intros H. inversion H. subst e'. exists kids, k. auto.
Qed.

Lemma lookup_join_all_inv w names : forall a e,
  a <> "" -> names <> [] -> Forall (fun n => valid_name n = true) names ->
  lookup w (Path.join_all a names) = Some e ->
  exists kids, lookup w a = Some (EDir kids).
Proof.
  induction names as [|n names IH]; intros a e Ha Hne Hvalid Hl; [congruence|].
  inversion Hvalid as [|? ? Hn Hrest]; subst.
  rewrite join_all_cons in Hl.
  destruct names as [|m names].
  - cbn in Hl. destruct (lookup_join_inv _ _ _ _ Ha Hn Hl) as [kids [k [H _]]].
    eauto.
  - destruct (IH (Path.join a n) e (join_nonempty _ _ Ha) ltac:(discriminate)
                 Hrest Hl) as [sub Hsub].
    destruct (lookup_join_inv _ _ _ _ Ha Hn Hsub) as [kids [k [H _]]]. eauto.
Qed.

Lemma kept_chain_tail keep a d names :
  kept_chain keep a (d :: names) -> kept_chain keep (Path.join a d) names.
Proof.
  intros H pre post E Hne.
  rewrite <- join_all_cons. apply (H (d :: pre) post); [now rewrite E|discriminate].
Qed.

(** The walk visits every directory that is reached through directories
    that pass. *)
Lemma visits_complete w keep nd : forall top name kids,
  nd = Dir name kids -> wf_kids kids = true -> lookup w top = Some (EDir kids) ->
  forall names kids',
    Forall (fun n => valid_name n = true) names ->
    kept_chain keep top names ->
    lookup w (Path.join_all top names) = Some (EDir kids') ->
    In (Path.join_all top names, file_names kids') (visits keep top nd).
Proof.
  induction nd as [name meta|name kids IH|name] using node_ind';
    intros top name' kids0 E Hwf Hl names kids' Hvalid Hchain Hdeep;
    [discriminate| |discriminate].
  inversion E; subst name' kids0. clear E.
  pose proof (lookup_nonempty _ _ _ Hl) as Htop.
  rewrite visits_Dir. destruct names as [|d names].
  - cbn in Hdeep. rewrite Hl in Hdeep. inversion Hdeep; subst kids'. now left.
  - right. inversion Hvalid as [|? ? Hd Hrest]; subst.
    rewrite join_all_cons in Hdeep.
    assert (Hsub : exists sub, lookup w (Path.join top d) = Some (EDir sub)).
    { destruct names as [|m names]; [cbn in Hdeep; eauto|].
      apply (lookup_join_all_inv w (m :: names) _ _ (join_nonempty _ _ Htop)
                                 ltac:(discriminate) Hrest Hdeep). }
    destruct Hsub as [sub Hsub].
    destruct (lookup_join_inv _ _ _ _ Htop Hd Hsub) as [kids0 [k [Hl' [Hk Hent]]]].
    rewrite Hl in Hl'. inversion Hl'; subst kids0. clear Hl'.
    apply find_child_In in Hk as [Hink Hname].
    destruct k as [kname m|kname sub'|kname]; [discriminate| |discriminate].
    cbn in Hname, Hent. inversion Hent; subst sub' kname.
    apply in_flat_map. exists d. split.
    + apply filter_In. split.
      * apply dir_names_In. eauto.
      * apply (Hchain [d] names eq_refl). discriminate.
    + rewrite (find_dir_distinct _ _ _ (wf_kids_distinct _ Hwf) Hink).
      rewrite Forall_forall in IH.
      destruct (wf_kids_In _ _ Hwf Hink) as [_ Hwfsub].
      rewrite join_all_cons.
      apply (IH _ Hink (Path.join top d) d sub eq_refl Hwfsub Hsub names kids' Hrest);
        [now apply kept_chain_tail|exact Hdeep].
Qed.

Lemma join_all_nonempty names : forall a, a <> "" -> Path.join_all a names <> "".
Proof.
  induction names as [|n names IH]; intros a Ha; [exact Ha|].
  rewrite join_all_cons. apply IH. now apply join_nonempty.
Qed.

(** X13.  In a well-formed tree the content loop ends and emits a file of
    the scanned tree exactly when the file exists, passes the policy, and
    every directory between the root and the file passes the policy. *)
Theorem emitted_iff_all_pass strftime w directory patterns output_file extensions
    kids names f :
  wf_world w = true ->
  lookup w directory = Some (EDir kids) ->
  Forall (fun n => valid_name n = true) (names ++ [f]) ->
  let keep := fun p => negb (is_ignored w p patterns directory output_file
                                        extensions) in
  let path := Path.join_all directory (names ++ [f]) in
  exists entries,
    content_entries strftime w directory patterns output_file extensions = Ok entries
    /\ (In path (map file_path entries)
        <-> isfile w path = true /\ kept_chain keep directory names
            /\ keep path = true).
Proof.
  intros Hw Hl Hvalid keep path.
  pose proof (lookup_wf _ _ _ Hw Hl) as Hwf.
  apply Forall_app in Hvalid as Hboth. destruct Hboth as [Hnames Hf].
  inversion Hf as [|? ? Hfv _]; subst.
  eexists. split; [now apply content_entries_total|].
  rewrite map_file_path_emit, counted_files_visits, Hl, passing_In.
  fold keep. split.
  - intros [Hpass [root [files [f' [Hv [Hf' Hp]]]]]].
    destruct (visits_chain keep _ _ _ _ eq_refl Hwf _ _ Hv)
      as [qs [Hroot [Hqs [Hchain Hfiles]]]].
    rewrite Forall_forall in Hfiles.
    destruct (visits_coherent w keep _ _ _ _ eq_refl Hwf Hl _ _ Hv)
      as [kids' [Hl' [Hwf' Hfiles']]].
    assert (E : (names ++ [f])%list = (qs ++ [f'])%list).
    { apply (join_all_inj directory); [exact Hvalid| |].
      - apply Forall_app. split; [exact Hqs|].
        constructor; [now apply Hfiles|constructor].
      - fold path. rewrite Hp, Hroot, join_all_app. reflexivity. }
    apply app_inj_tail in E as [En Ef]. subst qs f'.
    repeat split.
    + rewrite Hp. subst files. now apply (isfile_child _ _ kids').
    + exact Hchain.
    + unfold keep. now rewrite Hpass.
  - intros [Hfile [Hchain Hkeep]]. split.
    + unfold keep in Hkeep. now apply negb_true_iff in Hkeep.
    + unfold path in Hfile. rewrite join_all_app in Hfile.
      cbn [Path.join_all fold_left] in Hfile.
      fold (Path.join_all directory names) in Hfile.
      unfold isfile in Hfile.
      destruct (lookup w (Path.join (Path.join_all directory names) f))
        as [[m|sub]|] eqn:Hlf; try discriminate.
      destruct (lookup_join_inv _ _ _ _
                  (join_all_nonempty names _ (lookup_nonempty _ _ _ Hl)) Hfv Hlf)
        as [kids' [k [Hl' [Hk Hent]]]].
      apply find_child_In in Hk as [Hink Hname].
      destruct k as [kname m'|kname sub|kname]; [|discriminate|discriminate].
      cbn in Hname. subst kname.
      exists (Path.join_all directory names), (file_names kids'), f. repeat split.
      * apply (visits_complete w keep _ _ _ _ eq_refl Hwf Hl); assumption.
      * apply (file_names_In _ _ (lookup_wf _ _ _ Hw Hl')). eauto.
      * unfold path. rewrite join_all_app. reflexivity.
Qed.

(* ------------------------------------------------------------------ *)
(** ** A root that is not a directory, and the [-e] argument *)

(** X14.  When the directory to process is not a directory (it is missing
    or it is a file) nothing raises: the content loop emits nothing, both
    counters are 0, and the listing is the single line of the [except]
    clause. *)
Theorem root_not_a_directory strftime w directory patterns output_file extensions :
  isdir w directory = false ->
  content_entries strftime w directory patterns output_file extensions = Ok []
  /\ count_files w directory patterns directory output_file extensions = 0
  /\ count_excluded_files w directory patterns directory output_file extensions = 0
  /\ exists message,
       get_directory_structure w directory patterns directory output_file
                               extensions ""
       = ["❌ Error: " ++ message].
Proof.
  unfold isdir, content_entries, count_files, count_excluded_files,
    get_directory_structure, structure_items, os_walk.
  destruct (lookup w directory) as [[m|kids]|]; [|discriminate|]; intros _;
    repeat split; eexists; reflexivity.
Qed.

Lemma lower_char_idempotent c : Str.lower_char (Str.lower_char c) = Str.lower_char c.
Proof.
  destruct c as [[] [] [] [] [] [] [] []]; reflexivity.
Qed.

Lemma lower_char_comma c :
  Ascii.eqb (Str.lower_char c) ","%char = Ascii.eqb c ","%char.
Proof.
  destruct c as [[] [] [] [] [] [] [] []]; reflexivity.
Qed.

Lemma lower_idempotent s : Str.lower (Str.lower s) = Str.lower s.
Proof.
  induction s as [|c s IH]; cbn; [reflexivity|].
  now rewrite lower_char_idempotent, IH.
Qed.

Lemma split_comma_lower s :
  Str.split ","%char (Str.lower s) = map Str.lower (Str.split ","%char s).
Proof.
  induction s as [|c s IH]; [reflexivity|].
  cbn [Str.lower Str.split]. rewrite lower_char_comma, IH.
  destruct (Ascii.eqb c ","%char); [reflexivity|].
  destruct (Str.split ","%char s) as [|h t] eqn:E; [now apply split_nonempty in E|].
  reflexivity.
Qed.

(** X15.  The case of the [-e] argument does not count: the allow-list
    built from an argument is the one built from the argument in lower
    case, and each of its items is in lower case (the extension of a file is
    lowered before it is looked up in it). *)
Theorem main_extensions_ignore_case arg :
  main_extensions (Str.lower arg) = main_extensions arg
  /\ Forall (fun item => Str.lower item = item) (main_extensions arg).
Proof.
  unfold main_extensions. split.
  - destruct arg as [|c arg]; [reflexivity|].
    replace (Str.lower (String c arg) =? "") with false by reflexivity.
    replace (String c arg =? "") with false by reflexivity.
    rewrite split_comma_lower, map_map.
    apply map_ext. intros item. apply lower_idempotent.
  - destruct (arg =? ""); [constructor|].
    apply Forall_forall. intros item Hin.
    apply in_map_iff in Hin as [raw [E _]]. subst item. apply lower_idempotent.
Qed.

(* ------------------------------------------------------------------ *)
(** ** The shape of the listing *)

Lemma join_all_longer a names :
  names <> [] -> Forall (fun n => valid_name n = true) names ->
  Path.join_all a names <> a.
Proof.
  intros Hne Hvalid E. destruct names as [|n names]; [congruence|].
  rewrite (join_all_valid _ _ _ Hvalid) in E.
  apply (f_equal String.length) in E. rewrite !length_append in E.
  pose proof (concat_nonempty _ Hne Hvalid) as Hc.
  destruct (String.concat "/" (n :: names)); [congruence|]. cbn in E. lia.
Qed.

Lemma beneath_join a p n :
  beneath a p -> valid_name n = true -> beneath a (Path.join p n).
Proof.
  intros [names [Hne [Hvalid E]]] Hn. exists (names ++ [n])%list. repeat split.
  - destruct names; discriminate.
  - apply Forall_app. split; [exact Hvalid|now repeat constructor].
  - now rewrite join_all_app, <- E.
Qed.

Lemma beneath_child a n : valid_name n = true -> beneath a (Path.join a n).
Proof.
  intros Hn. exists [n]. repeat split; [discriminate|now repeat constructor].
Qed.

Section ListingShape.

Variables (w : world) (patterns : list string) (root_dir output_file : string)
          (extensions : list string).

(** Below the root, in a well-formed tree, the function appends lines of
    directories and files only. *)
Lemma structure_node_entries nd : forall directory name kids indent,
  nd = Dir name kids -> wf_kids kids = true ->
  lookup w directory = Some (EDir kids) ->
  beneath root_dir directory ->
  Forall (fun it => item_path it <> None)
         (structure_node w patterns root_dir output_file extensions directory nd
                         indent).
Proof.
  induction nd as [name meta|name kids IH|name] using node_ind';
    intros directory name' kids' indent E Hwf Hl Hbelow; [discriminate| |discriminate].
  inversion E; subst name' kids'. clear E.
  rewrite structure_node_Dir.
  set (files := filter (fun item => isfile w (Path.join directory item))
                       (sorted (map node_name kids))).
  destruct (files_loop_listed w patterns root_dir output_file extensions directory
                              indent files) as [_ Hnone].
  { intros f Hf. apply filter_In in Hf. apply Hf. }
  rewrite Hnone.
  replace (directory =? root_dir) with false.
  2:{ symmetry. apply String.eqb_neq. destruct Hbelow as [names [Hne [Hv Ed]]].
      rewrite Ed. now apply join_all_longer. }
  rewrite app_nil_r. apply Forall_app. split.
  - apply Forall_forall. intros it Hin.
    apply in_flat_map in Hin as [d [Hd Hin]].
    destruct (negb (is_ignored w (Path.join directory d) _ _ _ _)); [|destruct Hin].
    destruct Hin as [Hit|Hin]; [subst it; discriminate|].
    assert (Hd' : In d (dir_names kids)).
    { rewrite <- (isdir_names w _ _ Hl Hwf).
      apply filter_In in Hd as [Hd1 Hd2]. apply filter_In. split; [|exact Hd2].
      exact (proj1 (sorted_In _ _) Hd1). }
    apply dir_names_In in Hd' as [sub Hink].
    pose proof (find_child_distinct _ _ (wf_kids_distinct _ Hwf) Hink) as Hc.
    cbn [node_name] in Hc. rewrite Hc in Hin.
    destruct (wf_kids_In _ _ Hwf Hink) as [Hvalid Hsub]. cbn in Hvalid.
    rewrite Forall_forall in IH.
    pose proof (IH _ Hink (Path.join directory d) d sub (indent ++ "│  ") eq_refl Hsub
                   (lookup_child _ _ _ _ Hl Hwf Hink)
                   (beneath_join _ _ _ Hbelow Hvalid)) as Hall.
    rewrite Forall_forall in Hall. now apply Hall.
  - apply Forall_forall. intros it Hin.
    apply files_loop_In in Hin as [f [size [Hit _]]]. subst it. discriminate.
Qed.

End ListingShape.

Lemma structure_items_shape w directory patterns output_file extensions kids :
  wf_world w = true ->
  lookup w directory = Some (EDir kids) ->
  exists entries,
    structure_items w patterns directory output_file extensions directory ""
    = (entries
       ++ [StatsItem
             (count_files w directory patterns directory output_file extensions)
             (count_excluded_files w directory patterns directory output_file
                                   extensions)])%list
    /\ Forall (fun it => item_path it <> None) entries.
Proof.
  intros Hw Hl. pose proof (lookup_wf _ _ _ Hw Hl) as Hwf.
  unfold structure_items. rewrite Hl, structure_node_Dir.
  set (files := filter (fun item => isfile w (Path.join directory item))
                       (sorted (map node_name kids))).
  destruct (files_loop_listed w patterns directory output_file extensions directory
                              "" files) as [_ Hnone].
  { intros f Hf. apply filter_In in Hf. apply Hf. }
  rewrite Hnone, String.eqb_refl, app_assoc.
  eexists. split; [reflexivity|].
  apply Forall_app. split.
  - apply Forall_forall. intros it Hin.
    apply in_flat_map in Hin as [d [Hd Hin]].
    destruct (negb (is_ignored w (Path.join directory d) _ _ _ _)); [|destruct Hin].
    destruct Hin as [Hit|Hin]; [subst it; discriminate|].
    assert (Hd' : In d (dir_names kids)).
    { rewrite <- (isdir_names w _ _ Hl Hwf).
      apply filter_In in Hd as [Hd1 Hd2]. apply filter_In. split; [|exact Hd2].
      exact (proj1 (sorted_In _ _) Hd1). }
    apply dir_names_In in Hd' as [sub Hink].
    pose proof (find_child_distinct _ _ (wf_kids_distinct _ Hwf) Hink) as Hc.
    cbn [node_name] in Hc. rewrite Hc in Hin.
    destruct (wf_kids_In _ _ Hwf Hink) as [Hvalid Hsub]. cbn in Hvalid.
    pose proof (structure_node_entries w patterns directory output_file extensions
                  _ (Path.join directory d) d sub ("" ++ "│  ") eq_refl Hsub
                  (lookup_child _ _ _ _ Hl Hwf Hink)
                  (beneath_child _ _ Hvalid)) as Hall.
    rewrite Forall_forall in Hall. now apply Hall.
  - apply Forall_forall. intros it Hin.
    apply files_loop_In in Hin as [f [size [Hit _]]]. subst it. discriminate.
Qed.

(** X16.  In a well-formed tree the listing of the root consists of lines
    of directories and files followed by the statistics, which appear
    once, at the end: no call below the root appends statistics or an error
    line.  As text, the listing ends with an empty line, the heading and
    the three totals, the last of which is the sum of the two others. *)
Theorem listing_ends_with_statistics w directory patterns output_file extensions
    kids :
  wf_world w = true ->
  lookup w directory = Some (EDir kids) ->
  let included :=
    count_files w directory patterns directory output_file extensions in
  let excluded :=
    count_excluded_files w directory patterns directory output_file extensions in
  exists entries,
    structure_items w patterns directory output_file extensions directory ""
    = (entries ++ [StatsItem included excluded])%list
    /\ Forall (fun it => item_path it <> None) entries
    /\ get_directory_structure w directory patterns directory output_file
                               extensions ""
       = (flat_map render_item entries
          ++ [ "";
               "📊 STATISTICS:";
               ("   Total files included: " ++ Str.of_nat included)%string;
               ("   Total files excluded: " ++ Str.of_nat excluded)%string;
               ("   Total files: " ++ Str.of_nat (included + excluded))%string ])%list.
Proof.
  intros Hw Hl included excluded.
  destruct (structure_items_shape w directory patterns output_file extensions kids
                                  Hw Hl) as [entries [Hitems Hentries]].
  exists entries. repeat split; [exact Hitems|exact Hentries|].
  unfold get_directory_structure. rewrite Hitems, flat_map_app. reflexivity.
Qed.


(* ------------------------------------------------------------------ *)
(** ** Opening the artifact keeps the tree well formed *)

Lemma create_one now path name kids :
  create now path kids [name]
  = put_file (File name (mk_meta 0 now (Text ""))) path kids.
Proof.
  cbn [create]. induction kids as [|k l IH]; cbn [put_file node_name]; [reflexivity|].
  destruct (node_name k =? name); [reflexivity|]. now rewrite IH.
Qed.

Lemma create_more now path name next rest kids :
  create now path kids (name :: next :: rest)
  = enter_dir (fun sub => create now path sub (next :: rest)) name path kids.
Proof.
  cbn [create]. induction kids as [|k l IH]; cbn [enter_dir]; [reflexivity|].
  destruct (node_name k =? name); [reflexivity|].
  cbn [create] in IH. now rewrite IH.
Qed.

Lemma mem_app x l l' : Str.mem x (l ++ l') = Str.mem x l || Str.mem x l'.
Proof. unfold Str.mem. apply existsb_app. Qed.

Lemma distinct_snoc l x :
  distinct l = true -> Str.mem x l = false -> distinct (l ++ [x]) = true.
Proof.
  induction l as [|y l IH]; cbn [app distinct]; intros Hd Hm; [reflexivity|].
  apply andb_true_iff in Hd as [Hy Hd].
  cbn [Str.mem existsb] in Hm. apply orb_false_iff in Hm as [Hxy Hm].
  fold (Str.mem x l) in Hm.
  rewrite (IH Hd Hm), andb_true_r, mem_app.
  apply negb_true_iff in Hy. rewrite Hy. cbn [Str.mem existsb orb].
  rewrite String.eqb_sym, Hxy. reflexivity.
Qed.

(** What [put_file] does to the names of a listing. *)
Lemma put_file_names fresh path l l' :
  put_file fresh path l = Ok l' ->
  (map node_name l' = map node_name l
   \/ (Str.mem (node_name fresh) (map node_name l) = false
       /\ map node_name l' = (map node_name l ++ [node_name fresh])%list))
  /\ (forallb wf_node l = true -> wf_node fresh = true -> forallb wf_node l' = true).
Proof.
  revert l'. induction l as [|k l IH]; intros l'; cbn [put_file].
  - intros H. inversion H; subst. split; [right; now split|].
    intros _ Hf. cbn. now rewrite Hf.
  - destruct (node_name k =? node_name fresh) eqn:E.
    + destruct k as [kname m|kname sub|kname]; [|discriminate|discriminate].
      intros H. inversion H; subst. apply String.eqb_eq in E. split.
      * left. cbn [map]. now rewrite E.
      * cbn [forallb]. intros Hall Hf. apply andb_true_iff in Hall as [_ Hall].
        now rewrite Hf, Hall.
    + destruct (put_file fresh path l) as [r|e]; [|discriminate].
      intros H. inversion H; subst. destruct (IH r eq_refl) as [Hnames Hwf]. split.
      * destruct Hnames as [Hn|[Hm Hn]]; [left|right]; cbn [map].
        -- now rewrite Hn.
        -- split; [|now rewrite Hn].
           cbn [Str.mem existsb]. rewrite String.eqb_sym, E. exact Hm.
      * cbn [forallb]. intros Hall Hf. apply andb_true_iff in Hall as [Hk Hall].
        now rewrite Hk, (Hwf Hall Hf).
Qed.

Lemma put_file_wf name meta path l l' :
  wf_kids l = true -> valid_name name = true ->
  put_file (File name meta) path l = Ok l' -> wf_kids l' = true.
Proof.
  unfold wf_kids. intros Hwf Hname Hput.
  apply andb_true_iff in Hwf as [Hd Hall].
  destruct (put_file_names _ _ _ _ Hput) as [Hnames Hwf].
  apply andb_true_iff. split.
  - destruct Hnames as [Hn|[Hm Hn]]; rewrite Hn; [exact Hd|].
    now apply distinct_snoc.
  - apply Hwf; [exact Hall|]. cbn. now rewrite Hname.
Qed.

Lemma enter_dir_wf inside name path l l' :
  (forall sub sub', wf_kids sub = true -> inside sub = Ok sub' -> wf_kids sub' = true) ->
  wf_kids l = true -> valid_name name = true ->
  enter_dir inside name path l = Ok l' ->
  map node_name l' = map node_name l /\ forallb wf_node l' = true.
Proof.
  intros Hinside. revert l'.
  induction l as [|k l IH]; intros l' Hwf Hname; cbn [enter_dir]; [discriminate|].
  unfold wf_kids in Hwf. apply andb_true_iff in Hwf as [Hd Hall].
  cbn [map distinct forallb] in Hd, Hall.
  apply andb_true_iff in Hd as [Hfresh Hd]. apply andb_true_iff in Hall as [Hk Hall].
  destruct (node_name k =? name) eqn:E.
  - destruct k as [kname m|kname sub|kname]; [discriminate| |discriminate].
    destruct (inside sub) as [sub'|e] eqn:Hin; [|discriminate].
    intros H. inversion H; subst. apply String.eqb_eq in E. cbn in E. subst kname.
    split; [reflexivity|].
    cbn [forallb wf_node node_name]. cbn [wf_node node_name] in Hk.
    apply andb_true_iff in Hk as [_ Hsub].
    pose proof (Hinside _ _ Hsub Hin) as Hsub'. unfold wf_kids in Hsub'.
    now rewrite Hname, Hsub', Hall.
  - destruct (enter_dir inside name path l) as [r|e] eqn:Hr; [|discriminate].
    intros H. inversion H; subst.
    destruct (IH r) as [Hn Hw]; try reflexivity; try assumption.
    { unfold wf_kids. now rewrite Hd, Hall. }
    split; [cbn [map]; now rewrite Hn|]. cbn [forallb]. now rewrite Hk, Hw.
Qed.

Lemma create_wf now path comps : forall kids kids',
  Forall (fun n => valid_name n = true) comps ->
  wf_kids kids = true ->
  create now path kids comps = Ok kids' -> wf_kids kids' = true.
Proof.
  induction comps as [|name comps IH]; intros kids kids' Hvalid Hwf Hc.
  - discriminate.
  - inversion Hvalid as [|? ? Hname Hrest]; subst.
    destruct comps as [|next rest].
    + rewrite create_one in Hc. now apply (put_file_wf _ _ _ _ _ Hwf Hname Hc).
    + rewrite create_more in Hc.
      destruct (enter_dir_wf _ _ _ _ _
                  (fun sub sub' Hs Hi => IH sub sub' Hrest Hs Hi) Hwf Hname Hc)
        as [Hnames Hall].
      unfold wf_kids. rewrite Hnames, Hall.
      unfold wf_kids in Hwf. apply andb_true_iff in Hwf as [Hd _]. now rewrite Hd.
Qed.

Lemma split_elements_slashfree sep s :
  Forall (fun x => Str.has_char sep x = false) (Str.split sep s).
Proof.
  induction s as [|c s IH]; cbn [Str.split]; [now repeat constructor|].
  destruct (Ascii.eqb c sep) eqn:E; [now constructor|].
  destruct (Str.split sep s) as [|h t].
  - constructor; [|constructor]. now rewrite has_char_cons, Ascii.eqb_sym, E.
  - inversion IH; subst. constructor; [|assumption].
    rewrite has_char_cons, Ascii.eqb_sym, E. assumption.
Qed.

Lemma Forall_removelast {A : Type} (P : A -> Prop) l :
  Forall P l -> Forall P (removelast l).
Proof.
  induction 1 as [|x l Hx Hl IH]; [constructor|].
  cbn [removelast]. destruct l; [constructor|]. now constructor.
Qed.

Lemma Forall_last {A : Type} (P : A -> Prop) l d :
  Forall P l -> l <> [] -> P (last l d).
Proof.
  induction 1 as [|x l Hx Hl IH]; intros Hne; [congruence|].
  cbn [last]. destruct l; [exact Hx|]. now apply IH.
Qed.

(** The names that [resolve] returns are names of directories of the
    tree. *)
Lemma resolve_valid path root comps : forall here out,
  Forall (fun x => Str.has_char Path.sep x = false) comps ->
  Forall (fun n => valid_name n = true) here ->
  resolve path root here comps = Ok out ->
  Forall (fun n => valid_name n = true) out.
Proof.
  induction comps as [|comp comps IH]; intros here out Hfree Hhere; cbn [resolve].
  - intros H. now inversion H; subst.
  - inversion Hfree as [|? ? Hcomp Hrest]; subst.
    destruct ((comp =? "") || (comp =? ".")) eqn:E1; [now apply IH|].
    apply orb_false_iff in E1 as [Ee Ed].
    destruct (comp =? "..") eqn:E2.
    + apply IH; [exact Hrest|now apply Forall_removelast].
    + destruct (steps _ _) as [[up [m|sub]]|]; try discriminate.
      apply IH; [exact Hrest|]. apply Forall_app. split; [exact Hhere|].
      constructor; [|constructor]. unfold valid_name.
      now rewrite Ee, Ed, E2, Hcomp.
Qed.

Lemma open_w_wf now w path w' :
  wf_world w = true -> open_w now w path = Ok w' -> wf_world w' = true.
Proof.
  unfold open_w, wf_world. intros Hw.
  destruct (path =? ""); [discriminate|].
  set (comps := Str.split Path.sep (anchored w path)).
  pose proof (split_elements_slashfree Path.sep (anchored w path)) as Hfree.
  fold comps in Hfree.
  destruct (resolve path (tree w) [] (removelast comps)) as [parent|e] eqn:Hr;
    [|discriminate].
  cbn [bind].
  destruct ((last comps "" =? "") || (last comps "" =? ".") || (last comps "" =? ".."))
    eqn:E; [discriminate|].
  apply orb_false_iff in E as [E E3]. apply orb_false_iff in E as [E1 E2].
  destruct (create now path (tree w) _) as [kids|e] eqn:Hc; [|discriminate].
  cbn [bind]. intros H. inversion H; subst. cbn [tree].
  refine (create_wf _ _ _ _ _ _ Hw Hc).
  apply Forall_app. split.
  - apply (resolve_valid _ _ _ _ _ (Forall_removelast _ _ Hfree) (Forall_nil _) Hr).
  - constructor; [|constructor]. unfold valid_name. rewrite E1, E2, E3.
    pose proof (Forall_last _ comps "" Hfree (split_nonempty _ _)) as Hlast.
    cbn beta in Hlast. rewrite Hlast. reflexivity.
Qed.

(** X17.  Where [process_directory] can fail.  Once the ignore-file is
    read and the artifact is open, the run returns exactly when every file
    that the content loop is to write is a regular file of the tree as it
    is after the open (a broken link among them ends the run: its size is
    asked for outside the [try]).  In a tree of directories and regular
    files this always holds, so that the run either returns the text of the
    artifact or fails before any walk: in [read_gitignore], or in opening
    the artifact. *)
Theorem process_directory_fails_early_or_returns now strftime w directory output_file
    extensions :
  (forall from_file w',
      read_gitignore w directory = Ok from_file ->
      open_w now w output_file = Ok w' ->
      (exists text,
          process_directory now strftime w directory output_file extensions = Ok text)
      <-> (forall p,
              In p (counted_files w' directory (from_file ++ [".git/"]) directory
                                  output_file extensions) ->
              isfile w' p = true))
  /\ (wf_world w = true ->
      (exists text,
          process_directory now strftime w directory output_file extensions = Ok text)
      \/ (exists e,
             read_gitignore w directory = Raise e
             /\ process_directory now strftime w directory output_file extensions
                = Raise e)
      \/ (exists e,
             open_w now w output_file = Raise e
             /\ process_directory now strftime w directory output_file extensions
                = Raise e)).
Proof.
  split.
  - intros from_file w' Hg Ho. unfold process_directory. rewrite Hg. cbn [bind].
    rewrite Ho. cbn [bind].
    rewrite <- (content_entries_iff strftime w' directory). split.
    + intros [text H].
      destruct (content_entries strftime w' directory _ output_file extensions)
        as [entries|e]; [eauto|discriminate].
    + intros [entries H]. rewrite H. cbn [bind]. eauto.
  - intros Hw. unfold process_directory.
    destruct (read_gitignore w directory) as [from_file|e]; [|right; left; eauto].
    destruct (open_w now w output_file) as [w'|e] eqn:Ho; [|right; right; eauto].
    left. cbn [bind].
    rewrite (content_entries_total strftime w') by (eapply open_w_wf; eassumption).
    cbn [bind]. eexists. reflexivity.
Qed.

(* ------------------------------------------------------------------ *)
(** ** The order of the listing *)

Lemma leb_total a : forall b, Str.leb a b = false -> Str.leb b a = true.
Proof.
  induction a as [|x a IH]; intros [|y b]; cbn [Str.leb];
    try discriminate; try reflexivity.
  destruct (Str.code x <? Str.code y)%nat eqn:E1; [discriminate|].
  destruct (Str.code y <? Str.code x)%nat eqn:E2; [reflexivity|]. apply IH.
Qed.

Lemma leb_trans a : forall b c,
  Str.leb a b = true -> Str.leb b c = true -> Str.leb a c = true.
Proof.
  induction a as [|x a IH]; intros [|y b] [|z c]; cbn [Str.leb];
    try discriminate; try reflexivity.
  destruct (Str.code x <? Str.code y)%nat eqn:Exy,
           (Str.code y <? Str.code x)%nat eqn:Eyx,
           (Str.code y <? Str.code z)%nat eqn:Eyz,
           (Str.code z <? Str.code y)%nat eqn:Ezy,
           (Str.code x <? Str.code z)%nat eqn:Exz,
           (Str.code z <? Str.code x)%nat eqn:Ezx;
    try reflexivity; try discriminate;
    repeat match goal with
           | H : (_ <? _)%nat = true |- _ => apply Nat.ltb_lt in H
           | H : (_ <? _)%nat = false |- _ => apply Nat.ltb_ge in H
           end; try lia.
  apply IH.
Qed.

Lemma insert_sorted_In x y l : In y (insert_sorted x l) -> y = x \/ In y l.
Proof.
  intros H. apply (Permutation_in _ (insert_sorted_perm x l)) in H.
  destruct H; auto.
Qed.

Lemma insert_sorted_sorted x l :
  StronglySorted str_le l -> StronglySorted str_le (insert_sorted x l).
Proof.
  induction 1 as [|y l Hl IH Hy]; cbn [insert_sorted].
  - repeat constructor.
  - destruct (Str.leb x y) eqn:E.
    + constructor; [now constructor|]. constructor; [exact E|].
      rewrite Forall_forall in *. intros z Hz.
      apply (leb_trans _ y); [exact E|now apply Hy].
    + constructor; [exact IH|]. apply Forall_forall. intros z Hz.
      apply insert_sorted_In in Hz as [Hz|Hz].
      * subst z. now apply leb_total.
      * rewrite Forall_forall in Hy. now apply Hy.
Qed.

Lemma sorted_is_sorted l : StronglySorted str_le (sorted l).
Proof.
  induction l as [|x l IH]; cbn; [constructor|now apply insert_sorted_sorted].
Qed.

Lemma filter_sorted (p : string -> bool) l :
  StronglySorted str_le l -> StronglySorted str_le (filter p l).
Proof.
  induction 1 as [|y l Hl IH Hy]; cbn [filter]; [constructor|].
  destruct (p y); [|exact IH]. constructor; [exact IH|].
  rewrite Forall_forall in *. intros z Hz. apply filter_In in Hz as [Hz _]. auto.
Qed.

Lemma dirs_at_app indent a b :
  dirs_at indent (a ++ b) = (dirs_at indent a ++ dirs_at indent b)%list.
Proof. apply flat_map_app. Qed.

Lemma files_at_app indent a b :
  files_at indent (a ++ b) = (files_at indent a ++ files_at indent b)%list.
Proof. apply flat_map_app. Qed.

Lemma deeper_not_at indent items :
  (forall it i, In it items -> item_indent it = Some i ->
                String.length indent < String.length i) ->
  dirs_at indent items = [] /\ files_at indent items = [].
Proof.
  induction items as [|it items IH]; intros H; [now split|].
  destruct IH as [IHd IHf]; [intros; eapply H; [right|]; eassumption|].
  unfold dirs_at, files_at in *. cbn [flat_map]. rewrite IHd, IHf.
  assert (Hne : forall i, item_indent it = Some i -> (i =? indent) = false).
  { intros i Hi. apply String.eqb_neq. intros E. subst i.
    specialize (H it indent (or_introl eq_refl) Hi). lia. }
  destruct it as [i p d n|i p f n|a b|i m]; cbn [item_indent] in Hne;
    try rewrite (Hne i eq_refl); now split.
Qed.

Section ListingOrder.

Variables (w : world) (patterns : list string) (root_dir output_file : string)
          (extensions : list string).

Lemma structure_node_indent nd : forall directory indent it i,
  In it (structure_node w patterns root_dir output_file extensions directory nd
                        indent) ->
  item_indent it = Some i -> String.length indent <= String.length i.
Proof.
  induction nd as [name meta|name kids IH|name] using node_ind';
    intros directory indent it i Hin Hi;
    [| |cbn in Hin; destruct Hin as [E|[]]; subst it; cbn in Hi; inversion Hi; lia].
  - cbn in Hin. destruct Hin as [E|[]]. subst it. cbn in Hi. inversion Hi. lia.
  - rewrite structure_node_Dir in Hin.
    apply in_app_or in Hin as [Hin|Hin]; [|apply in_app_or in Hin as [Hin|Hin]].
    + apply in_flat_map in Hin as [d [_ Hin]].
      destruct (negb (is_ignored w (Path.join directory d) _ _ _ _)); [|destruct Hin].
      destruct Hin as [Hit|Hin].
      * subst it. cbn in Hi. inversion Hi. lia.
      * destruct (find_child d kids) as [k|] eqn:Hk.
        -- apply find_child_In in Hk as [Hink _]. rewrite Forall_forall in IH.
           pose proof (IH _ Hink _ _ _ _ Hin Hi) as Hlen.
           rewrite length_append in Hlen. lia.
        -- destruct Hin as [Hit|[]]. subst it. cbn in Hi. inversion Hi.
           rewrite length_append. lia.
    + apply files_loop_In in Hin as [f [size [Hit _]]]. subst it.
      cbn in Hi. inversion Hi. lia.
    + destruct (snd (files_loop _ _ _ _ _ _ _ _)).
      * destruct Hin as [Hit|[]]. subst it. cbn in Hi. inversion Hi. lia.
      * destruct (directory =? root_dir); [|destruct Hin].
        destruct Hin as [Hit|[]]. subst it. discriminate.
Qed.

Lemma files_loop_sorted directory indent files :
  StronglySorted str_le files ->
  StronglySorted str_le
    (files_at indent (fst (files_loop w patterns root_dir output_file extensions
                                      directory indent files)))
  /\ (forall f, In f (files_at indent
                              (fst (files_loop w patterns root_dir output_file
                                               extensions directory indent files))) ->
                 In f files)
  /\ dirs_at indent (fst (files_loop w patterns root_dir output_file extensions
                                      directory indent files)) = [].
Proof.
  induction 1 as [|f files Hfiles [IHs [IHin IHd]] Hf]; [repeat split; [constructor|intros _ []]|].
  cbn [files_loop].
  destruct (negb (is_ignored w (Path.join directory f) _ _ _ _)).
  - destruct (getsize w (Path.join directory f)) as [size|].
    + cbn [fst]. unfold files_at, dirs_at in *. cbn [flat_map].
      rewrite String.eqb_refl. cbn [app]. repeat split.
      * constructor; [exact IHs|]. rewrite Forall_forall in *.
        intros g Hg. apply Hf. now apply IHin.
      * intros g [E|Hg]; [now left|right; now apply IHin].
      * exact IHd.
    + repeat split; [constructor|intros _ []].
  - repeat split; [exact IHs|intros g Hg; right; now apply IHin|exact IHd].
Qed.

Lemma listed_dirs_at directory indent kids dirs :
  let listed :=
    flat_map
      (fun d =>
         if negb (is_ignored w (Path.join directory d) patterns root_dir output_file
                             extensions) then
           DirItem indent (Path.join directory d) d
                   (count_files w (Path.join directory d) patterns root_dir
                                output_file extensions)
           :: match find_child d kids with
              | Some k =>
                  structure_node w patterns root_dir output_file extensions
                                 (Path.join directory d) k (indent ++ "│  ")
              | None => [ErrorItem (indent ++ "│  ") (enoent (Path.join directory d))]
              end
         else [])
      dirs in
  dirs_at indent listed
  = filter (fun d => negb (is_ignored w (Path.join directory d) patterns root_dir
                                      output_file extensions)) dirs
  /\ files_at indent listed = [].
Proof.
  induction dirs as [|d dirs [IHd IHf]]; [now split|].
  cbn [flat_map filter]. rewrite dirs_at_app, files_at_app, IHd, IHf.
  destruct (negb (is_ignored w (Path.join directory d) _ _ _ _)); [|now split].
  destruct (deeper_not_at indent
              match find_child d kids with
              | Some k =>
                  structure_node w patterns root_dir output_file extensions
                                 (Path.join directory d) k (indent ++ "│  ")
              | None => [ErrorItem (indent ++ "│  ") (enoent (Path.join directory d))]
              end) as [Hd Hf].
  { intros it i Hin Hi.
    assert (Hlen : String.length (indent ++ "│  ") <= String.length i).
    { destruct (find_child d kids) as [k|].
      - eapply structure_node_indent; eassumption.
      - destruct Hin as [E|[]]. subst it. cbn in Hi. inversion Hi. lia. }
    rewrite length_append in Hlen. cbn in Hlen. lia. }
  unfold dirs_at, files_at in *. cbn [flat_map]. rewrite String.eqb_refl, Hd, Hf.
  now split.
Qed.

Lemma files_loop_files_at directory indent files :
  (forall f, In f files -> isfile w (Path.join directory f) = true) ->
  files_at indent (fst (files_loop w patterns root_dir output_file extensions
                                   directory indent files))
  = filter (fun f => negb (is_ignored w (Path.join directory f) patterns root_dir
                                      output_file extensions)) files.
Proof.
  induction files as [|f files IH]; intros H; [reflexivity|].
  cbn [files_loop filter].
  specialize (IH (fun f' Hf' => H f' (or_intror Hf'))).
  destruct (negb (is_ignored w (Path.join directory f) _ _ _ _)); [|exact IH].
  assert (Hf : isfile w (Path.join directory f) = true) by (apply H; now left).
  unfold isfile in Hf. unfold getsize.
  destruct (lookup w (Path.join directory f)) as [[m|sub]|]; try discriminate.
  cbn [fst]. unfold files_at in *. cbn [flat_map].
  rewrite String.eqb_refl. cbn [app]. now rewrite IH.
Qed.

End ListingOrder.

Lemma level_at_app indent a b :
  level_at indent (a ++ b) = (level_at indent a ++ level_at indent b)%list.
Proof. apply flat_map_app. Qed.

Lemma level_only_dirs indent items :
  files_at indent items = [] ->
  level_at indent items = map (pair true) (dirs_at indent items).
Proof.
  induction items as [|it items IH]; [reflexivity|].
  unfold files_at, level_at, dirs_at in *. cbn [flat_map]. intros H.
  apply app_eq_nil in H as [Hit H]. rewrite map_app, (IH H). f_equal.
  destruct it as [i p d n|i p f n|a b|i m]; try reflexivity.
  - now destruct (i =? indent).
  - destruct (i =? indent); [discriminate|reflexivity].
Qed.

Lemma level_only_files indent items :
  dirs_at indent items = [] ->
  level_at indent items = map (pair false) (files_at indent items).
Proof.
  induction items as [|it items IH]; [reflexivity|].
  unfold files_at, level_at, dirs_at in *. cbn [flat_map]. intros H.
  apply app_eq_nil in H as [Hit H]. rewrite map_app, (IH H). f_equal.
  destruct it as [i p d n|i p f n|a b|i m]; try reflexivity.
  - destruct (i =? indent); [discriminate|reflexivity].
  - now destruct (i =? indent).
Qed.

(** X18.  At every level of the listing the directories come first and the
    files after them, each group in the order of [sorted] (by code points):
    the lines written at the indentation of a call are the lines of the
    subdirectories that pass the policy, in increasing order of their
    names, followed by the lines of the files that pass it, in increasing
    order of their names. *)
Theorem listing_directories_then_files w patterns root_dir output_file extensions
    directory indent kids :
  lookup w directory = Some (EDir kids) ->
  let keep := fun n => negb (is_ignored w (Path.join directory n) patterns root_dir
                                        output_file extensions) in
  exists dirs files,
    level_at indent (structure_items w patterns root_dir output_file extensions
                                     directory indent)
    = (map (pair true) dirs ++ map (pair false) files)%list
    /\ StronglySorted str_le dirs
    /\ StronglySorted str_le files
    /\ (forall d, In d dirs <->
                  In d (map node_name kids)
                  /\ isdir w (Path.join directory d) = true /\ keep d = true)
    /\ (forall f, In f files <->
                  In f (map node_name kids)
                  /\ isfile w (Path.join directory f) = true /\ keep f = true).
Proof.
  intros Hl keep.
  set (names := sorted (map node_name kids)).
  exists (filter keep (filter (fun n => isdir w (Path.join directory n)) names)),
         (filter keep (filter (fun n => isfile w (Path.join directory n)) names)).
  split; [|split; [|split; [|split]]].
  - unfold structure_items. rewrite Hl, structure_node_Dir, !level_at_app.
    fold names.
    destruct (listed_dirs_at w patterns root_dir output_file extensions directory
                indent kids
                (filter (fun item => isdir w (Path.join directory item)) names))
      as [Hd Hf].
    cbn zeta in Hd, Hf. rewrite (level_only_dirs _ _ Hf), Hd.
    destruct (files_loop_sorted w patterns root_dir output_file extensions directory
                indent
                (filter (fun item => isfile w (Path.join directory item)) names))
      as [_ [_ Hnone]].
    { apply filter_sorted, sorted_is_sorted. }
    rewrite (level_only_files _ _ Hnone).
    rewrite (files_loop_files_at w patterns root_dir output_file extensions directory
               indent)
      by (intros f Hf'; now apply filter_In in Hf' as [_ Hf']).
    replace (level_at indent _) with (@nil (bool * string)).
    + now rewrite app_nil_r.
    + destruct (snd _); [reflexivity|]. now destruct (directory =? root_dir).
  - apply filter_sorted, filter_sorted, sorted_is_sorted.
  - apply filter_sorted, filter_sorted, sorted_is_sorted.
  - intros d. rewrite !filter_In. unfold names. rewrite sorted_In. tauto.
  - intros f. rewrite !filter_In. unfold names. rewrite sorted_In. tauto.
Qed.

(* ------------------------------------------------------------------ *)
(** ** The two name heuristics *)

Lemma digit_run_more need s : forall seen seen',
  seen <= seen' -> Str.digit_run need seen s = true ->
  Str.digit_run need seen' s = true.
Proof.
  induction s as [|c s IH]; intros seen seen' Hle; cbn [Str.digit_run].
  - rewrite !orb_false_r. intros H. apply Nat.leb_le in H. apply Nat.leb_le. lia.
  - intros H. apply orb_true_iff in H as [H|H].
    + apply Nat.leb_le in H. apply orb_true_iff. left. apply Nat.leb_le. lia.
    + apply orb_true_iff. right. destruct (Str.is_digit c).
      * apply (IH (S seen)); [lia|exact H].
      * exact H.
Qed.

Lemma digit_run_digits need digits post : forall seen,
  all_digits digits = true -> need <= seen + String.length digits ->
  Str.digit_run need seen (digits ++ post) = true.
Proof.
  induction digits as [|c digits IH]; intros seen Hall Hlen.
  - cbn in Hlen. cbn [append].
    destruct post; cbn [Str.digit_run]; apply orb_true_iff; left;
      apply Nat.leb_le; lia.
  - unfold all_digits in Hall. cbn [list_ascii_of_string forallb] in Hall.
    apply andb_true_iff in Hall as [Hc Hall].
    cbn [append Str.digit_run]. rewrite Hc. apply orb_true_iff. right.
    apply IH; [exact Hall|]. cbn in Hlen. lia.
Qed.

Lemma digit_run_after need pre s : forall seen,
  Str.digit_run need 0 s = true -> Str.digit_run need seen (pre ++ s) = true.
Proof.
  induction pre as [|c pre IH]; intros seen H.
  - cbn [append]. apply (digit_run_more need s 0); [lia|exact H].
  - cbn [append Str.digit_run]. apply orb_true_iff. right.
    destruct (Str.is_digit c); now apply IH.
Qed.

(** X19.  A file whose basename holds five digits in a row, wherever they
    are, is excluded, whatever the patterns and the allow-list are. *)
Theorem file_with_five_digits_excluded w path patterns root output_file extensions
    pre digits post :
  isfile w path = true ->
  Path.basename path = pre ++ digits ++ post ->
  all_digits digits = true ->
  5 <= String.length digits ->
  is_ignored w path patterns root output_file extensions = true.
Proof.
  intros Hfile Hname Hall Hlen. rewrite is_ignored_cascade, Hfile.
  unfold Str.has_digit_run. rewrite Hname.
  rewrite (digit_run_after 5 pre (digits ++ post) 0)
    by (apply digit_run_digits; [exact Hall|lia]).
  cbn [andb]. now rewrite orb_true_r.
Qed.

Lemma lower_append a b : Str.lower (a ++ b) = Str.lower a ++ Str.lower b.
Proof.
  induction a as [|c a IH]; cbn; [reflexivity|now rewrite IH].
Qed.

Lemma prefix_append needle post : String.prefix needle (needle ++ post) = true.
Proof.
  induction needle as [|c needle IH]; cbn [append String.prefix].
  - now destruct post.
  - destruct (ascii_dec c c) as [_|N]; [exact IH|congruence].
Qed.

Lemma contains_middle pre needle post :
  Str.contains (pre ++ needle ++ post) needle = true.
Proof.
  induction pre as [|c pre IH]; cbn [append].
  - destruct (needle ++ post) eqn:E; cbn [Str.contains]; unfold Str.startswith;
      rewrite <- E, prefix_append; reflexivity.
  - cbn [Str.contains]. rewrite IH. apply orb_true_r.
Qed.

(** X20.  An entry, file or directory, whose basename holds the letters of
    "cache" in a row, in any case and at any place, is excluded, whatever
    the patterns and the allow-list are. *)
Theorem name_with_cache_excluded w path patterns root output_file extensions
    pre mid post :
  Path.basename path = pre ++ mid ++ post ->
  Str.lower mid = "cache" ->
  is_ignored w path patterns root output_file extensions = true.
Proof.
  intros Hname Hmid. rewrite is_ignored_cascade, Hname.
  rewrite !lower_append, Hmid, contains_middle.
  destruct (_ =? _), (isdir w path && _); reflexivity.
Qed.

(* ------------------------------------------------------------------ *)
(** ** The default path of the artifact *)

Lemma split_concat_slashfree names :
  names <> [] -> Forall (fun n => Str.has_char Path.sep n = false) names ->
  Str.split Path.sep (String.concat "/" names) = names.
Proof.
  induction names as [|n names IH]; intros Hne H; [congruence|].
  inversion H as [|? ? Hn Hrest]; subst.
  destruct names as [|m names].
  - cbn [String.concat]. now apply split_slashfree.
  - rewrite concat_cons2.
    change ("/" ++ String.concat "/" (m :: names))
      with (String Path.sep (String.concat "/" (m :: names))).
    rewrite (split_app_sep _ _ _ Hn).
    rewrite IH; [reflexivity|discriminate|exact Hrest].
Qed.

Lemma concat_snoc names n :
  names <> [] ->
  String.concat "/" (names ++ [n]) = String.concat "/" names ++ "/" ++ n.
Proof.
  induction names as [|m names IH]; intros Hne; [congruence|].
  destruct names as [|m' names].
  - reflexivity.
  - change ((m :: m' :: names) ++ [n])%list with (m :: (m' :: names) ++ [n])%list.
    cbn [app]. rewrite !concat_cons2.
    change (m' :: (names ++ [n])%list) with ((m' :: names) ++ [n])%list.
    rewrite IH by discriminate. now rewrite !append_assoc.
Qed.

Lemma norm_comps_run b names : forall acc rest,
  Forall (fun n => valid_name n = true) names ->
  Path.norm_comps b acc (names ++ rest)
  = Path.norm_comps b (rev names ++ acc) rest.
Proof.
  induction names as [|n names IH]; intros acc rest H; [reflexivity|].
  inversion H as [|? ? Hn Hrest]; subst.
  destruct (valid_name_not_special _ Hn) as [H1 [H2 H3]].
  cbn [app Path.norm_comps]. rewrite H1, H2, H3. cbn [orb negb].
  rewrite (IH _ _ Hrest). cbn [rev]. now rewrite <- app_assoc.
Qed.

Lemma valid_name_first n :
  valid_name n = true -> exists c t, n = String c t /\ Ascii.eqb c "/"%char = false.
Proof.
  intros Hn. pose proof (valid_name_slashfree _ Hn) as Hs.
  destruct n as [|c t]; [discriminate|]. exists c, t. split; [reflexivity|].
  now apply has_char_false_cons in Hs as [Hs _].
Qed.

Lemma concat_first n names :
  valid_name n = true ->
  exists c t, String.concat "/" (n :: names) = String c t
              /\ Ascii.eqb c "/"%char = false.
Proof.
  intros Hn. destruct (valid_name_first _ Hn) as [c [t [E Hc]]]. subst n.
  destruct names as [|m names].
  - exists c, t. now split.
  - rewrite concat_cons2. cbn [append]. eauto.
Qed.

(** The normal form of [/] followed by components, the first of which is a
    valid name: [normpath] runs its loop over the components. *)
Lemma normpath_rooted n comps :
  valid_name n = true ->
  Forall (fun x => Str.has_char Path.sep x = false) comps ->
  Path.normpath ("/" ++ String.concat "/" (n :: comps))
  = "/" ++ String.concat "/" (Path.norm_comps true [] (n :: comps)).
Proof.
  intros Hn Hfree. unfold Path.normpath.
  destruct (concat_first n comps Hn) as [c [t [E Hc]]].
  cbn [append]. rewrite E.
  replace (String "/" (String c t) =? "") with false by reflexivity.
  replace (Str.startswith (String "/" (String c t)) "/") with true by reflexivity.
  replace (Str.startswith (String "/" (String c t)) "//") with false.
  2:{ unfold Str.startswith. cbn [String.prefix].
      destruct (ascii_dec "/"%char "/"%char) as [_|N]; [|congruence].
      destruct (ascii_dec "/"%char c) as [Ec|_]; [|reflexivity].
      subst c. discriminate. }
  cbn [andb]. rewrite <- E.
  change (Str.split Path.sep (String "/" (String.concat "/" (n :: comps))))
    with (EmptyString :: Str.split Path.sep (String.concat "/" (n :: comps))).
  rewrite split_concat_slashfree;
    [|discriminate|constructor; [now apply valid_name_slashfree|exact Hfree]].
  unfold Str.join. cbn [Path.norm_comps String.eqb orb append]. reflexivity.
Qed.

Lemma norm_comps_valid_id names :
  Forall (fun n => valid_name n = true) names ->
  Path.norm_comps true [] names = names.
Proof.
  intros H. rewrite <- (app_nil_r names) at 1.
  rewrite (norm_comps_run true names [] [] H). cbn [Path.norm_comps].
  now rewrite app_nil_r, rev_involutive.
Qed.

Lemma valid_slashfree_all names :
  Forall (fun n => valid_name n = true) names ->
  Forall (fun x => Str.has_char Path.sep x = false) names.
Proof.
  intros H. eapply Forall_impl; [|exact H]. intros n. apply valid_name_slashfree.
Qed.

(** A path made of [/] and valid names is its own normal form. *)
Lemma normpath_normal names :
  names <> [] -> Forall (fun n => valid_name n = true) names ->
  Path.normpath ("/" ++ String.concat "/" names) = "/" ++ String.concat "/" names.
Proof.
  intros Hne H. destruct names as [|n names]; [congruence|].
  inversion H as [|? ? Hn Hrest]; subst.
  rewrite (normpath_rooted _ _ Hn (valid_slashfree_all _ Hrest)).
  now rewrite (norm_comps_valid_id _ H).
Qed.

Lemma has_char_append c a b :
  Str.has_char c (a ++ b) = Str.has_char c a || Str.has_char c b.
Proof.
  induction a as [|x a IH]; [reflexivity|].
  cbn [append]. rewrite !has_char_cons, IH. now rewrite orb_assoc.
Qed.

Lemma valid_name_txt name : valid_name name = true -> valid_name (name ++ ".txt") = true.
Proof.
  intros Hn. unfold valid_name.
  rewrite has_char_append, (valid_name_slashfree _ Hn).
  assert (Hlen : 5 <= String.length (name ++ ".txt")).
  { rewrite length_append. pose proof (valid_name_nonempty _ Hn).
    destruct name; [congruence|cbn; lia]. }
  assert (Hshort : forall lit, String.length lit < 5 -> (name ++ ".txt" =? lit) = false).
  { intros lit Hl. apply String.eqb_neq. intros E. rewrite E in Hlen. lia. }
  rewrite !Hshort by (cbn; lia). reflexivity.
Qed.

Lemma rooted_is_join_all names :
  names <> [] -> Forall (fun n => valid_name n = true) names ->
  "/" ++ String.concat "/" names = Path.join_all "/" names.
Proof.
  intros Hne H. destruct names as [|n names]; [congruence|].
  now rewrite (join_all_valid "/" _ _ H).
Qed.

Lemma snoc_not_nil {A : Type} (l : list A) (x : A) : (l ++ [x])%list <> [].
Proof. destruct l; discriminate. Qed.

Lemma startswith_rooted s : Str.startswith ("/" ++ s) "/" = true.
Proof.
  cbn [append]. rewrite startswith_slash_cons.
  destruct (ascii_dec "/"%char "/"%char); congruence.
Qed.

(** X21.  Without [-o], for a directory [/parent.../name], [main] writes
    the artifact to [/parent.../name.txt]: beside the directory, not in it
    and not below it, so the artifact is never a file of the scanned
    tree. *)
Theorem default_artifact_is_beside_directory w parent name :
  Forall (fun n => valid_name n = true) (parent ++ [name]) ->
  let directory_path := "/" ++ String.concat "/" (parent ++ [name]) in
  let output_file := main_output_file w directory_path None in
  output_file = "/" ++ String.concat "/" (parent ++ [(name ++ ".txt")%string])
  /\ output_file <> directory_path
  /\ ~ beneath directory_path output_file.
Proof.
  intros Hvalid directory_path output_file.
  assert (Hne : (parent ++ [name])%list <> []) by apply snoc_not_nil.
  apply Forall_app in Hvalid as Hboth. destruct Hboth as [Hparent Hname].
  inversion Hname as [|? ? Hn _]; subst.
  pose proof (valid_name_txt _ Hn) as Htxt.
  assert (Hvalid' : Forall (fun n => valid_name n = true) (parent ++ [(name ++ ".txt")%string])).
  { apply Forall_app. split; [exact Hparent|now repeat constructor]. }
  assert (Hout : output_file = "/" ++ String.concat "/" (parent ++ [(name ++ ".txt")%string])).
  { unfold output_file, main_output_file. cbn zeta iota beta.
    unfold directory_path.
    rewrite (normpath_normal _ Hne Hvalid).
    replace (Path.basename ("/" ++ String.concat "/" (parent ++ [name]))) with name.
    2:{ unfold Path.basename. cbn [append].
        change (Str.split Path.sep (String "/" (String.concat "/" (parent ++ [name]))))
          with (EmptyString
                  :: Str.split Path.sep (String.concat "/" (parent ++ [name]))).
        rewrite (split_concat _ Hne Hvalid).
        change (EmptyString :: (parent ++ [name])%list)
          with ((EmptyString :: parent) ++ [name])%list.
        now rewrite last_last. }
    assert (Hjoin : Path.join (Path.join ("/" ++ String.concat "/" (parent ++ [name]))
                                         "..") (name ++ ".txt")
                    = "/" ++ String.concat "/"
                               ((parent ++ [name]) ++ [".."; (name ++ ".txt")%string])).
    { change [".."; (name ++ ".txt")%string] with ([".."] ++ [(name ++ ".txt")%string])%list.
      rewrite app_assoc, (concat_snoc _ _ (snoc_not_nil _ _)).
      rewrite (concat_snoc _ _ Hne).
      set (N := "/" ++ String.concat "/" (parent ++ [name])).
      assert (HN : Str.endswith N "/" = false).
      { unfold N. destruct parent as [|p parent].
        - cbn [app String.concat].
          rewrite (endswith_app_nonempty "/" name "/" (valid_name_nonempty _ Hn) eq_refl).
          apply endswith_slashfree. now apply valid_name_slashfree.
        - rewrite concat_snoc by discriminate. rewrite <- !append_assoc.
          rewrite (endswith_app_nonempty _ name "/" (valid_name_nonempty _ Hn) eq_refl).
          apply endswith_slashfree. now apply valid_name_slashfree. }
      assert (HNe : (N =? "") = false) by reflexivity.
      unfold Path.join at 2.
      replace (Str.startswith ".." "/") with false by reflexivity.
      rewrite HNe, HN. cbn [orb].
      unfold Path.join.
      rewrite (slashfree_not_absolute _ (valid_name_slashfree _ Htxt)).
      replace (N ++ "/" ++ ".." =? "") with false by reflexivity.
      rewrite (endswith_app_nonempty N ("/" ++ "..") "/") by (discriminate || reflexivity).
      replace (Str.endswith ("/" ++ "..") "/") with false by reflexivity.
      cbn [orb]. unfold N. now rewrite !append_assoc. }
    rewrite Hjoin. unfold Path.abspath, Path.isabs.
    rewrite startswith_rooted.
    assert (Hnorm : Path.normpath ("/" ++ String.concat "/"
                                           ((parent ++ [name]) ++ [".."; (name ++ ".txt")%string]))
                    = "/" ++ String.concat "/" (parent ++ [(name ++ ".txt")%string])).
    { destruct (parent ++ [name])%list as [|n0 rest] eqn:El; [congruence|].
      inversion Hvalid as [|? ? Hn0 Hrest]; subst.
      change ((n0 :: rest) ++ [".."; (name ++ ".txt")%string])%list
        with (n0 :: (rest ++ [".."; (name ++ ".txt")%string]))%list.
      rewrite (normpath_rooted n0 _ Hn0).
      2:{ apply Forall_app. split; [now apply valid_slashfree_all|].
          constructor; [reflexivity|].
          constructor; [now apply valid_name_slashfree|constructor]. }
      change (n0 :: (rest ++ [".."; (name ++ ".txt")%string]))%list
        with ((n0 :: rest) ++ [".."; (name ++ ".txt")%string])%list.
      rewrite (norm_comps_run true (n0 :: rest) [] _ Hvalid), <- El.
      rewrite app_nil_r, rev_app_distr. cbn [rev app Path.norm_comps].
      destruct (valid_name_not_special _ Hn) as [_ [_ Hdd]].
      replace (".." =? "") with false by reflexivity.
      replace (".." =? ".") with false by reflexivity.
      replace (".." =? "..") with true by reflexivity.
      rewrite Hdd. cbn [orb andb negb tl].
      destruct (valid_name_not_special _ Htxt) as [T1 [T2 T3]].
      rewrite T1, T2, T3. cbn [orb negb rev app].
      now rewrite rev_involutive. }
    rewrite Hnorm. reflexivity. }
  split; [exact Hout|].
  assert (Hdiff : (parent ++ [(name ++ ".txt")%string])%list <> (parent ++ [name])%list).
  { intros E. apply app_inv_head in E. injection E as E'.
    apply (f_equal String.length) in E'. rewrite length_append in E'. cbn in E'. lia. }
  rewrite Hout. unfold directory_path.
  rewrite (rooted_is_join_all _ Hne Hvalid).
  rewrite (rooted_is_join_all (parent ++ [(name ++ ".txt")%string])
                              (snoc_not_nil _ _) Hvalid').
  split.
  - intros E. apply join_all_inj in E; [|exact Hvalid'|exact Hvalid]. congruence.
  - intros [names [Hnames [Hnv E]]].
    rewrite <- join_all_app in E.
    apply join_all_inj in E; [|exact Hvalid'|now apply Forall_app].
    rewrite <- app_assoc in E. apply app_inv_head in E.
    cbn [app] in E. injection E as E' _.
    apply (f_equal String.length) in E'. rewrite length_append in E'. cbn in E'. lia.
Qed.

(* ------------------------------------------------------------------ *)
(** ** The order of the content section *)

Lemma flat_map_ext_on {A B : Type} (f g : A -> list B) l :
  (forall x, In x l -> f x = g x) -> flat_map f l = flat_map g l.
Proof.
  induction l as [|a l IH]; intros H; cbn; [reflexivity|].
  rewrite (H a (or_introl eq_refl)), IH; [reflexivity|].
  intros x Hx. apply H. now right.
Qed.

(** X22.  In a well-formed tree the content loop emits the files of a
    directory that pass the policy, in the order in which the directory
    enumerates them, and then, for each of its subdirectories that pass, in
    that order, what it emits for the subdirectory. *)
Theorem content_is_emitted_in_preorder strftime w directory patterns output_file
    extensions kids :
  wf_world w = true ->
  lookup w directory = Some (EDir kids) ->
  let keep := fun p => negb (is_ignored w p patterns directory output_file
                                        extensions) in
  exists entries,
    content_entries strftime w directory patterns output_file extensions = Ok entries
    /\ map file_path entries
       = (filter keep (map (Path.join directory) (file_names kids))
          ++ flat_map
               (fun d => counted_files w (Path.join directory d) patterns directory
                                       output_file extensions)
               (filter (fun d => keep (Path.join directory d)) (dir_names kids)))%list.
Proof.
  intros Hw Hl keep. pose proof (lookup_wf _ _ _ Hw Hl) as Hwf.
  eexists. split; [now apply content_entries_total|].
  rewrite map_file_path_emit, counted_files_visits, Hl, visits_Dir, passing_cons.
  cbn [fst snd]. rewrite passing_flat_map. f_equal.
  apply flat_map_ext_on. intros d Hd.
  apply filter_In in Hd as [Hd _]. apply dir_names_In in Hd as [sub Hin].
  rewrite (find_dir_distinct _ _ _ (wf_kids_distinct _ Hwf) Hin).
  rewrite counted_files_visits.
  pose proof (lookup_child _ _ _ _ Hl Hwf Hin) as Hsub. cbn in Hsub.
  rewrite Hsub. now rewrite (visits_name _ _ d "").
Qed.

(* ------------------------------------------------------------------ *)
(** ** The further properties at concrete trees *)

Lemma read_gitignore_reads_lines_sample :
  read_gitignore commented "/proj" = Ok ["build/"; "*.log"]
  /\ (In "build/" ["build/"; "*.log"] <->
      "build/" <> "" /\ Str.startswith "build/" "#" = false
      /\ exists line,
           line_of ("# build output" ++ nl ++ nl ++ "  build/  " ++ nl ++ "*.log") line
           /\ "build/" = Str.strip line).
Proof.
  destruct (read_gitignore_reads_lines commented "/proj"
              (mk_meta 32 0%Z
                 (Text ("# build output" ++ nl ++ nl ++ "  build/  " ++ nl ++ "*.log")))
              ("# build output" ++ nl ++ nl ++ "  build/  " ++ nl ++ "*.log"))
    as [patterns [Hread [Hlines _]]].
  - vm_compute. reflexivity.
  - reflexivity.
  - assert (E : patterns = ["build/"; "*.log"]).
    { assert (H : read_gitignore commented "/proj" = Ok ["build/"; "*.log"])
        by (vm_compute; reflexivity).
      rewrite H in Hread. now inversion Hread. }
    subst patterns. split; [exact Hread|apply Hlines].
Defined.

Lemma count_files_is_listed_files_sample :
  wf_world sample = true
  /\ count_files sample "/proj" [".git/"] "/proj" "/proj/out.txt" []
     = length (listed_files
                 (structure_items sample [".git/"] "/proj" "/proj/out.txt" []
                                  "/proj" "")).
Proof.
  assert (H : wf_world sample = true) by (vm_compute; reflexivity).
  split; [exact H|].
  exact (count_files_is_listed_files sample "/proj" [".git/"] "/proj" "/proj/out.txt"
                                     [] "" H).
Defined.

Lemma count_files_of_subdirectories_sample :
  lookup sample "/proj" = Some (EDir (children_of sample "/proj"))
  /\ count_files sample "/proj" [".git/"] "/proj" "/proj/out.txt" []
     = 5 + (0 + (count_files sample "/proj/src" [".git/"] "/proj" "/proj/out.txt" []
                 + 0)).
Proof.
  assert (Hw : wf_world sample = true) by (vm_compute; reflexivity).
  assert (Hl : lookup sample "/proj" = Some (EDir (children_of sample "/proj")))
    by (vm_compute; reflexivity).
  split; [exact Hl|].
  rewrite (count_files_of_subdirectories sample "/proj" [".git/"] "/proj"
             "/proj/out.txt" [] (children_of sample "/proj") Hw Hl).
  vm_compute. reflexivity.
Defined.

Lemma format_file_size_bytes_sample :
  (512 < 1024)%N /\ format_file_size 512 = "512.0 B".
Proof.
  split; [reflexivity|].
  exact (format_file_size_bytes 512 eq_refl).
Defined.

Lemma is_ignored_directory_extensions_sample :
  isdir sample "/proj/src" = true
  /\ is_ignored sample "/proj/src" [".git/"] "/proj" "/proj/out.txt" []
     = is_ignored sample "/proj/src" [".git/"] "/proj" "/proj/out.txt" ["md"].
Proof.
  assert (H : isdir sample "/proj/src" = true) by (vm_compute; reflexivity).
  split; [exact H|].
  exact (is_ignored_directory_extensions sample "/proj/src" [".git/"] "/proj"
                                         "/proj/out.txt" [] ["md"] H).
Defined.

Lemma star_pattern_excludes_all_sample :
  is_ignored sample "/proj/main.py" [".git/"; "*"] "/proj" "/proj/out.txt" [] = true.
Proof.
  apply star_pattern_excludes_all. right. left. reflexivity.
Defined.

Lemma literal_pattern_excludes_segment_sample :
  Str.split Path.sep (Path.relpath (cwd scenario) "/proj/build/out.txt" "/proj")
  = ["build"; "out.txt"]
  /\ is_ignored scenario "/proj/build/out.txt" ["build/"; ".git/"] "/proj"
                "/proj.txt" [] = true.
Proof.
  assert (H : Str.split Path.sep
                (Path.relpath (cwd scenario) "/proj/build/out.txt" "/proj")
              = ["build"; "out.txt"]) by (vm_compute; reflexivity).
  split; [exact H|].
  apply (literal_pattern_excludes_segment scenario "/proj/build/out.txt"
           ["build/"; ".git/"] "/proj" "/proj.txt" [] "build/").
  - left. reflexivity.
  - vm_compute. reflexivity.
  - rewrite H. left. vm_compute. reflexivity.
Defined.

Lemma excluded_directory_is_pruned_sample :
  is_ignored scenario "/proj/build" ["build/"; ".git/"] "/proj" "/proj.txt" [] = true
  /\ forall p,
       In p (met_files scenario "/proj" ["build/"; ".git/"] "/proj" "/proj.txt" []) ->
       ~ beneath "/proj/build" p.
Proof.
  assert (H : is_ignored scenario "/proj/build" ["build/"; ".git/"] "/proj"
                         "/proj.txt" [] = true) by (vm_compute; reflexivity).
  split; [exact H|].
  destruct (excluded_directory_is_pruned (fun _ => "") scenario "/proj"
              ["build/"; ".git/"] "/proj.txt" [] "/proj/build")
    as [_ [Hmet _]].
  - vm_compute. reflexivity.
  - exists ["build"]. split; [discriminate|].
    split; [repeat constructor|vm_compute; reflexivity].
  - exact H.
  - exact Hmet.
Defined.

Lemma emitted_iff_all_pass_sample :
  exists entries,
    content_entries (fun _ => "") sample "/proj" [".git/"] "/proj/out.txt" []
    = Ok entries
    /\ (In (Path.join_all "/proj" (["src"] ++ ["util.py"])) (map file_path entries)
        <-> isfile sample (Path.join_all "/proj" (["src"] ++ ["util.py"])) = true
            /\ kept_chain
                 (fun p => negb (is_ignored sample p [".git/"] "/proj" "/proj/out.txt"
                                            []))
                 "/proj" ["src"]
            /\ negb (is_ignored sample (Path.join_all "/proj" (["src"] ++ ["util.py"]))
                                [".git/"] "/proj" "/proj/out.txt" []) = true).
Proof.
  assert (Hw : wf_world sample = true) by (vm_compute; reflexivity).
  assert (Hl : lookup sample "/proj" = Some (EDir (children_of sample "/proj")))
    by (vm_compute; reflexivity).
  assert (Hv : Forall (fun n => valid_name n = true) (["src"] ++ ["util.py"]))
    by (repeat constructor).
  exact (emitted_iff_all_pass (fun _ => "") sample "/proj" [".git/"] "/proj/out.txt" []
           (children_of sample "/proj") ["src"] "util.py" Hw Hl Hv).
Defined.

Lemma root_not_a_directory_sample :
  isdir sample "/proj/main.py" = false
  /\ content_entries (fun _ => "") sample "/proj/main.py" [".git/"] "/proj/out.txt" []
     = Ok []
  /\ count_files sample "/proj/main.py" [".git/"] "/proj/main.py" "/proj/out.txt" [] = 0.
Proof.
  assert (H : isdir sample "/proj/main.py" = false) by (vm_compute; reflexivity).
  split; [exact H|].
  destruct (root_not_a_directory (fun _ => "") sample "/proj/main.py" [".git/"]
              "/proj/out.txt" [] H) as [Hc [Hn _]].
  split; [exact Hc|exact Hn].
Defined.

Lemma listing_ends_with_statistics_sample :
  exists entries,
    structure_items sample [".git/"] "/proj" "/proj/out.txt" [] "/proj" ""
    = (entries
       ++ [StatsItem
             (count_files sample "/proj" [".git/"] "/proj" "/proj/out.txt" [])
             (count_excluded_files sample "/proj" [".git/"] "/proj" "/proj/out.txt"
                                   [])])%list
    /\ Forall (fun it => item_path it <> None) entries.
Proof.
  assert (Hw : wf_world sample = true) by (vm_compute; reflexivity).
  assert (Hl : lookup sample "/proj" = Some (EDir (children_of sample "/proj")))
    by (vm_compute; reflexivity).
  destruct (listing_ends_with_statistics sample "/proj" [".git/"] "/proj/out.txt" []
              (children_of sample "/proj") Hw Hl) as [entries [Hitems [Hpaths _]]].
  exists entries. split; [exact Hitems|exact Hpaths].
Defined.


Lemma file_with_five_digits_excluded_sample :
  isfile dated "/proj/log_20240131.txt" = true
  /\ is_ignored dated "/proj/log_20240131.txt" [] "/proj" "/proj.txt" [] = true.
Proof.
  assert (H : isfile dated "/proj/log_20240131.txt" = true)
    by (vm_compute; reflexivity).
  split; [exact H|].
  apply (file_with_five_digits_excluded dated "/proj/log_20240131.txt" [] "/proj"
           "/proj.txt" [] "log_" "20240131" ".txt").
  - exact H.
  - vm_compute. reflexivity.
  - vm_compute. reflexivity.
  - cbn. lia.
Defined.

Lemma name_with_cache_excluded_sample :
  is_ignored sample "/proj/src/MyCache.java" [] "/proj" "/proj/out.txt" [] = true.
Proof.
  apply (name_with_cache_excluded sample "/proj/src/MyCache.java" [] "/proj"
           "/proj/out.txt" [] "My" "Cache" ".java").
  - vm_compute. reflexivity.
  - vm_compute. reflexivity.
Defined.

Lemma default_artifact_is_beside_directory_sample :
  main_output_file sample "/home/user/proj" None = "/home/user/proj.txt"
  /\ ~ beneath "/home/user/proj" (main_output_file sample "/home/user/proj" None).
Proof.
  destruct (default_artifact_is_beside_directory sample ["home"; "user"] "proj")
    as [Hout [_ Hout']].
  - repeat constructor.
  - split; [exact Hout|exact Hout'].
Defined.

Lemma content_is_emitted_in_preorder_sample :
  exists entries,
    content_entries (fun _ => "") sample "/proj" [".git/"] "/proj/out.txt" []
    = Ok entries
    /\ map file_path entries
       = [ "/proj/.env"; "/proj/Makefile"; "/proj/main.py"; "/proj/logo.png";
           "/proj/locked.txt"; "/proj/src/util.py" ].
Proof.
  assert (Hw : wf_world sample = true) by (vm_compute; reflexivity).
  assert (Hl : lookup sample "/proj" = Some (EDir (children_of sample "/proj")))
    by (vm_compute; reflexivity).
  destruct (content_is_emitted_in_preorder (fun _ => "") sample "/proj" [".git/"]
              "/proj/out.txt" [] (children_of sample "/proj") Hw Hl)
    as [entries [Hentries Hpaths]].
  exists entries. split; [exact Hentries|].
  rewrite Hpaths. vm_compute. reflexivity.
Defined.

Lemma listing_directories_then_files_sample :
  lookup sample "/proj" = Some (EDir (children_of sample "/proj"))
  /\ exists dirs files,
       level_at "" (structure_items sample [".git/"] "/proj" "/proj/out.txt" []
                                    "/proj" "")
       = (map (pair true) dirs ++ map (pair false) files)%list
       /\ StronglySorted str_le dirs
       /\ StronglySorted str_le files.
Proof.
  assert (Hl : lookup sample "/proj" = Some (EDir (children_of sample "/proj")))
    by (vm_compute; reflexivity).
  split; [exact Hl|].
  destruct (listing_directories_then_files sample [".git/"] "/proj" "/proj/out.txt" []
              "/proj" "" (children_of sample "/proj") Hl)
    as [dirs [files [Hlevel [Hdirs [Hfiles _]]]]].
  exists dirs, files. split; [exact Hlevel|]. split; [exact Hdirs|exact Hfiles].
Defined.
